(** * MEDS: cutout addressing and composite-weight masking

    A shallow embedding of [meds/meds.py] (class [MEDS]).

    - Catalog columns of dtype [i4] hold integers ([Z]); arithmetic on two
      of them is [numpy.int32] arithmetic and wraps ([wrap_i4]).  Columns
      of dtype [f8] are binary64 floats ([PrimFloat.float]).
    - numpy arrays are views (buffer, offset, shape) into a heap of flat
      buffers, so that [mosaic[r1:r2, :]] shares storage with [mosaic] and
      [wt.copy()] does not.
    - Python exceptions are values of [exn]; methods run in a state-and-error
      monad over the heap.
    - The pixel dtype is a parameter: the code only copies pixels, compares
      them with [!=] and stores [0.0].
    - [numpy.matrix.getI] (LAPACK) is a parameter returning [None] where
      numpy raises [LinAlgError].
    - The module is Python 2 code of 2013; numpy behaves as the releases of
      that time did (a float used as an index is converted with [int()]). *)

From Stdlib Require Import ZArith Lia.
From Stdlib Require Import Floats.PrimFloat Floats.SpecFloat Floats.FloatOps.
From Stdlib Require Import Uint63.
From stdpp Require Import base option list strings gmap.

Local Open Scope Z_scope.

(** ** Exceptions and results *)

Inductive value_error :=
  | BadObjectIndex      (* "object index should be within [0,%s)" *)
  | NoCutouts           (* "object %s has no cutouts" *)
  | BadCutoutIndex      (* "requested cutout index %s for object %s ..." *)
  | BadCutoutType       (* "bad cutout type '%s'" *)
  | BadShape.           (* numpy: cannot reshape / cannot broadcast *)

Inductive exn :=
  | ValueError (why : value_error)
  | IndexError          (* numpy: index out of bounds *)
  | ReadError           (* the container reader rejects the row range *)
  | BadView.            (* a view that does not lie inside its buffer *)

Inductive result (A : Type) :=
  | Ok (a : A)
  | Raise (e : exn).
Arguments Ok {A} a.
Arguments Raise {A} e.

Definition result_bind {A B} (m : result A) (f : A -> result B) : result B :=
  match m with
  | Ok a => f a
  | Raise e => Raise e
  end.

(** ** binary64 scalars *)

(** Truncation toward zero of a finite float; [None] for nan and infinities. *)
Definition trunc_sf (x : spec_float) : option Z :=
  match x with
  | S754_zero _ => Some 0
  | S754_finite s m e =>
      let mag := Z.shiftl (Z.pos m) e in
      Some (if s then - mag else mag)
  | S754_infinity _ | S754_nan => None
  end.

Definition int64_min : Z := - 2 ^ 63.
Definition int64_max : Z := 2 ^ 63 - 1.

(** [x.astype('i8')] on one element: the C conversion double -> int64, which
    discards the fractional part.  Values that do not fit (and nan, inf) give
    the x86-64 "integer indefinite" value. *)
Definition astype_i8 (x : float) : Z :=
  match trunc_sf (Prim2SF x) with
  | Some z => if (int64_min <=? z) && (z <=? int64_max) then z else int64_min
  | None => int64_min
  end.

(** A Python float used as an array index: numpy of the Python 2 era converts
    it with [int()], which truncates; nan and inf are rejected. *)
Definition index_of_float (x : float) : result Z :=
  match trunc_sf (Prim2SF x) with
  | Some z => Ok z
  | None => Raise IndexError
  end.

(** An [int64] grid coordinate promoted to [float64]. *)
Definition float_of_nat (n : nat) : float :=
  PrimFloat.of_uint63 (Uint63.of_Z (Z.of_nat n)).

(** [numpy.int32] arithmetic: the result is reduced to 32 bits, two's
    complement. *)
Definition wrap_i4 (z : Z) : Z := (z + 2 ^ 31) mod 2 ^ 32 - 2 ^ 31.
Definition i4_add (x y : Z) : Z := wrap_i4 (x + y).
Definition i4_mul (x y : Z) : Z := wrap_i4 (x * y).

(** [x.clip(lo, hi)] on one element. *)
Definition clip (x lo hi : Z) : Z := Z.min (Z.max x lo) hi.

(** numpy index normalisation along an axis of length [n]: negative indices
    count from the end, anything else out of range raises [IndexError]. *)
Definition norm_index (n : nat) (i : Z) : result nat :=
  if (0 <=? i) && (i <? Z.of_nat n) then Ok (Z.to_nat i)
  else if (- Z.of_nat n <=? i) && (i <? 0) then Ok (Z.to_nat (i + Z.of_nat n))
  else Raise IndexError.

(** A bound of a Python slice along an axis of length [n]. *)
Definition slice_bound (n : nat) (i : Z) : nat :=
  if i <? 0 then Z.to_nat (Z.max 0 (i + Z.of_nat n))
  else Z.to_nat (Z.min i (Z.of_nat n)).

(** [xrange(n)] *)
Definition xrange (n : Z) : list Z := Z.of_nat <$> seq 0 (Z.to_nat n).

(** ** 2x2 matrices ([numpy.matrix]) *)

Record matrix := Matrix { m00 : float; m01 : float; m10 : float; m11 : float }.

(** ** The catalog *)

Record cat_row := CatRow {
  id : Z;
  ncutout : Z;
  box_size : Z;
  file_id : list Z;
  start_row : list Z;
  cutout_row : list float;
  cutout_col : list float;
  dudrow : list float;
  dudcol : list float;
  dvdrow : list float;
  dvdcol : list float
}.

(** [cat[field][iobj]] for a scalar column. *)
Definition cat1 {A} (field : cat_row -> A) (cat : list cat_row) (iobj : Z)
  : result A :=
  result_bind (norm_index (length cat) iobj) (fun i =>
  match cat !! i with
  | Some row => Ok (field row)
  | None => Raise IndexError
  end).

(** [cat[field][iobj, icutout]] for a per-cutout column. *)
Definition cat2 {A} (field : cat_row -> list A) (cat : list cat_row)
    (iobj icutout : Z) : result A :=
  result_bind (norm_index (length cat) iobj) (fun i =>
  match cat !! i with
  | Some row =>
      result_bind (norm_index (length (field row)) icutout) (fun k =>
      match field row !! k with
      | Some x => Ok x
      | None => Raise IndexError
      end)
  | None => Raise IndexError
  end).

(** ** Array views *)

Record ndarray := NdArray {
  base : nat;          (* buffer the view points into *)
  offset : nat;        (* position of element [0,0] in the buffer *)
  nrows : nat;         (* shape[0] *)
  ncols : nat          (* shape[1] *)
}.

Definition nd_size (a : ndarray) : nat := (nrows a * ncols a)%nat.

Definition flat_index (a : ndarray) (r c : nat) : nat :=
  (offset a + (r * ncols a + c))%nat.

(** [a[r1:r2, :]], a view on the same buffer. *)
Definition slice_rows (a : ndarray) (r1 r2 : Z) : ndarray :=
  let s := slice_bound (nrows a) r1 in
  let e := slice_bound (nrows a) r2 in
  {| base := base a;
     offset := (offset a + s * ncols a)%nat;
     nrows := (e - s)%nat;
     ncols := ncols a |}.

(** Index pairs of a [rows] x [cols] grid in row-major order
    ([numpy.mgrid], and the order in which [numpy.where] lists positions). *)
Definition ndindex (rows cols : nat) : list (nat * nat) :=
  r ← seq 0 rows; c ← seq 0 cols; [(r, c)].

(** [numpy.where(mask)] for a mask given pointwise. *)
Definition where_mask (rows cols : nat) (mask : nat -> nat -> bool)
  : list (nat * nat) :=
  filter (fun rc => mask rc.1 rc.2 = true) (ndindex rows cols).

(** [_split_mosaic] *)
Definition _split_mosaic (mosaic : ndarray) (box_size ncutout : Z)
  : list ndarray :=
  (fun i => let r1 := i * box_size in
            let r2 := (i + 1) * box_size in
            slice_rows mosaic r1 r2) <$> xrange ncutout.

(** [_get_extension_name] *)
Definition _get_extension_name (type : string) : result string :=
  if decide (type = "image") then Ok "image_cutouts"
  else if decide (type = "weight") then Ok "weight_cutouts"
  else if decide (type = "seg") then Ok "seg_cutouts"
  else Raise (ValueError BadCutoutType).

(** [flat.reshape(d0, d1)] of a one-dimensional array of [n] elements held in
    buffer [b]; a negative dimension is inferred from the other one. *)
Definition reshape (b n : nat) (d0 d1 : Z) : result ndarray :=
  let len := Z.of_nat n in
  if (d0 <? 0) && (d1 <? 0) then Raise (ValueError BadShape)
  else if d0 <? 0 then
    if (d1 =? 0) || negb (len mod d1 =? 0) then Raise (ValueError BadShape)
    else Ok (NdArray b 0 (Z.to_nat (len / d1)) (Z.to_nat d1))
  else if d1 <? 0 then
    if (d0 =? 0) || negb (len mod d0 =? 0) then Raise (ValueError BadShape)
    else Ok (NdArray b 0 (Z.to_nat d0) (Z.to_nat (len / d0)))
  else if d0 * d1 =? len then Ok (NdArray b 0 (Z.to_nat d0) (Z.to_nat d1))
  else Raise (ValueError BadShape).

#[global] Instance result_ret : MRet result := fun A a => Ok a.
#[global] Instance result_mbind : MBind result :=
  fun A B f m => result_bind m f.

(** The heap of array buffers; a buffer is named by its position. *)
Abbreviation heap pixel := (list (list pixel)) (only parsing).

Section MEDS.

(** The pixel dtype: the value [0.0] is stored as, and elementwise [!=]. *)
Context {pixel : Type}.
Variable zero : pixel.
Variable ne : pixel -> pixel -> bool.

(** [numpy.matrix.getI]; [None] stands for [LinAlgError]. *)
Variable getI : matrix -> option matrix.

(** ** The heap of array buffers and the monad of methods *)

Definition M (A : Type) : Type := heap pixel -> result A * heap pixel.

#[global] Instance M_ret : MRet M := fun A a h => (Ok a, h).
#[global] Instance M_bind : MBind M := fun A B f m h =>
  match m h with
  | (Ok a, h') => f a h'
  | (Raise e, h') => (Raise e, h')
  end.

Definition raise {A} (e : exn) : M A := fun h => (Raise e, h).
Definition lift {A} (r : result A) : M A := fun h => (r, h).

(** A new buffer. *)
Definition alloc (d : list pixel) : M nat :=
  fun h => (Ok (length h), h ++ [d]).

(** The elements of a view, row-major. *)
Definition load (a : ndarray) : M (list pixel) := fun h =>
  match h !! base a with
  | Some b =>
      if decide (offset a + nd_size a <= length b)%nat
      then (Ok (take (nd_size a) (drop (offset a) b)), h)
      else (Raise BadView, h)
  | None => (Raise BadView, h)
  end.

(** Overwrite the elements of a view. *)
Definition store (a : ndarray) (d : list pixel) : M unit := fun h =>
  match h !! base a with
  | Some b =>
      if decide ((offset a + nd_size a <= length b)%nat /\
                 length d = nd_size a)
      then (Ok tt,
            <[base a :=
                take (offset a) b ++ d ++ drop (offset a + nd_size a) b]> h)
      else (Raise BadView, h)
  | None => (Raise BadView, h)
  end.

(** ** numpy operations used by the class *)

(** [a.copy()] *)
Definition copy (a : ndarray) : M ndarray :=
  d ← load a;
  b ← alloc d;
  mret (NdArray b 0 (nrows a) (ncols a)).

(** Element [(i, j)] of row-major data of width [cols]. *)
Definition item (rows cols : nat) (d : list pixel) (ij : Z * Z)
  : result pixel :=
  r ← norm_index rows ij.1;
  c ← norm_index cols ij.2;
  match d !! (r * cols + c)%nat with
  | Some x => Ok x
  | None => Raise BadView
  end.

(** [a[i, j]] *)
Definition getitem (a : ndarray) (i j : Z) : M pixel :=
  d ← load a;
  lift (item (nrows a) (ncols a) d (i, j)).

(** [a[x, y]] with float scalars [x], [y] *)
Definition getitem_f (a : ndarray) (x y : float) : M pixel :=
  i ← lift (index_of_float x);
  j ← lift (index_of_float y);
  getitem a i j.

(** [a[irow, icol]] with index arrays, given as the list of index pairs. *)
Definition getitem_fancy (a : ndarray) (idx : list (Z * Z))
  : M (list pixel) :=
  d ← load a;
  lift (mapM (item (nrows a) (ncols a) d) idx).

(** Element [(r, c)] of the boolean array [d != v], for row-major data [d]
    of width [cols]. *)
Definition ne_at (cols : nat) (d : list pixel) (v : pixel) (r c : nat)
  : bool :=
  match d !! (r * cols + c)%nat with
  | Some x => ne x v
  | None => false
  end.

(** [numpy.where(a != v)] *)
Definition where_ne (a : ndarray) (v : pixel) : M (list (nat * nat)) :=
  d ← load a;
  mret (where_mask (nrows a) (ncols a) (ne_at (ncols a) d v)).

Definition setitem_data (cols : nat) (w : list (nat * nat)) (v : pixel)
    (d : list pixel) : list pixel :=
  foldl (fun d rc => <[(rc.1 * cols + rc.2)%nat := v]> d) d w.

(** [a[w] = v] for [w] a result of [numpy.where] *)
Definition setitem (a : ndarray) (w : list (nat * nat)) (v : pixel)
  : M unit :=
  if forallb (fun rc => (rc.1 <? nrows a)%nat && (rc.2 <? ncols a)%nat) w
  then d ← load a; store a (setitem_data (ncols a) w v d)
  else raise IndexError.

(** [a[:,:] = v] *)
Definition fill (a : ndarray) (v : pixel) : M unit :=
  store a (replicate (nd_size a) v).

(** [dst[:,:] = src[:,:]]; the class only assigns arrays of equal shape. *)
Definition assign (dst src : ndarray) : M unit :=
  if decide (nrows dst = nrows src /\ ncols dst = ncols src)
  then d ← load src; store dst d
  else raise (ValueError BadShape).

(** ** The class *)

Record MEDS := {
  _cat : list cat_row;
  image_cutouts : list pixel;
  weight_cutouts : list pixel;
  seg_cutouts : list pixel
}.

(** Modelled from the spec: [self._fits[extname]], one flat sequence of
    pixels for each of the three pixel extensions. *)
Definition fits_ext (self : MEDS) (extname : string)
  : result (list pixel) :=
  if decide (extname = "image_cutouts") then Ok (image_cutouts self)
  else if decide (extname = "weight_cutouts") then Ok (weight_cutouts self)
  else if decide (extname = "seg_cutouts") then Ok (seg_cutouts self)
  else Raise ReadError.

(** Modelled from the spec: the reader of the container ([fitsio]) is not
    part of the module.  [self._fits[extname][start:stop]] is the
    "contiguous row-range read [start, end)" of the named pixel extension:
    it returns the rows [start, stop) as a new one-dimensional array (its
    buffer and length); a range that is not inside the extension is
    rejected. *)
Definition fits_read (self : MEDS) (extname : string) (start stop : Z)
  : M (nat * nat) :=
  ext ← lift (fits_ext self extname);
  if (0 <=? start) && (start <=? stop) && (stop <=? Z.of_nat (length ext))
  then
    let d := take (Z.to_nat (stop - start)) (drop (Z.to_nat start) ext) in
    b ← alloc d;
    mret (b, length d)
  else raise ReadError.

(** [self.size] *)
Definition cat_size (self : MEDS) : Z := Z.of_nat (length (_cat self)).

Definition _check_indices (self : MEDS) (iobj : Z) (icutout : option Z)
  : M unit :=
  if iobj >=? cat_size self then raise (ValueError BadObjectIndex)
  else
    ncutout ← lift (cat1 ncutout (_cat self) iobj);
    if ncutout =? 0 then raise (ValueError NoCutouts)
    else
      match icutout with
      | Some icutout =>
          if icutout >=? ncutout then raise (ValueError BadCutoutIndex)
          else mret tt
      | None => mret tt
      end.

Definition get_cutout (self : MEDS) (iobj icutout : Z) (type : string)
  : M ndarray :=
  _check_indices self iobj (Some icutout);;
  box_size ← lift (cat1 box_size (_cat self) iobj);
  start_row ← lift (cat2 start_row (_cat self) iobj icutout);
  let row_end := i4_add start_row (i4_mul box_size box_size) in
  extname ← lift (_get_extension_name type);
  imflat ← fits_read self extname start_row row_end;
  im ← lift (reshape imflat.1 imflat.2 box_size box_size);
  mret im.

Definition get_mosaic (self : MEDS) (iobj : Z) (type : string)
  : M ndarray :=
  _check_indices self iobj None;;
  ncutout ← lift (cat1 ncutout (_cat self) iobj);
  box_size ← lift (cat1 box_size (_cat self) iobj);
  start_row ← lift (cat2 start_row (_cat self) iobj 0);
  let row_end :=
    i4_add start_row (i4_mul (i4_mul box_size box_size) ncutout) in
  extname ← lift (_get_extension_name type);
  mflat ← fits_read self extname start_row row_end;
  mosaic ← lift (reshape mflat.1 mflat.2 (i4_mul ncutout box_size) box_size);
  mret mosaic.

Definition get_cutout_list (self : MEDS) (iobj : Z) (type : string)
  : M (list ndarray) :=
  mosaic ← get_mosaic self iobj type;
  ncutout ← lift (cat1 ncutout (_cat self) iobj);
  box_size ← lift (cat1 box_size (_cat self) iobj);
  mret (_split_mosaic mosaic box_size ncutout).

Definition get_jacob_as_matrix (self : MEDS) (iobj icutout : Z)
  : result matrix :=
  j00 ← cat2 dudrow (_cat self) iobj icutout;
  j01 ← cat2 dudcol (_cat self) iobj icutout;
  j10 ← cat2 dvdrow (_cat self) iobj icutout;
  j11 ← cat2 dvdcol (_cat self) iobj icutout;
  mret (Matrix j00 j01 j10 j11).

(** The reference-frame position that SE pixel [(r, c)] maps to
    (lines 493-513), as floats. *)
Definition se_to_coadd_float (rowcen colcen coadd_rowcen coadd_colcen : float)
    (se_jacob cjinv : matrix) (r c : nat) : float * float :=
  let rows := (float_of_nat r - rowcen)%float in
  let cols := (float_of_nat c - colcen)%float in
  (* convert pixel coords in SE cutout to u,v *)
  let u := (rows * m00 se_jacob + cols * m01 se_jacob)%float in
  let v := (rows * m10 se_jacob + cols * m11 se_jacob)%float in
  (* now convert into pixels for coadd *)
  let crow := (coadd_rowcen + u * m00 cjinv + v * m01 cjinv)%float in
  let ccol := (coadd_colcen + u * m10 cjinv + v * m11 cjinv)%float in
  (crow, ccol).

(** The same after [crow.astype('i8')], [ccol.astype('i8')]
    (lines 515-516). *)
Definition se_to_coadd (rowcen colcen coadd_rowcen coadd_colcen : float)
    (se_jacob cjinv : matrix) (r c : nat) : Z * Z :=
  let p :=
    se_to_coadd_float rowcen colcen coadd_rowcen coadd_colcen
      se_jacob cjinv r c in
  (astype_i8 p.1, astype_i8 p.2).

(** The first mask of the SE branch (lines 518-519).  In Python [&] binds
    tighter than [|], so the expression groups as written here. *)
Definition wbad_mask (shape0 shape1 : Z) (crow ccol : Z) : bool :=
  ((crow <? 0) || ((crow >=? shape0) && (ccol <? 0))) || (ccol >=? shape1).

(** [segid = coadd_seg[coadd_rowcen, coadd_colcen]] with the centre read
    from the entry of cutout [icutout] (lines 480-485). *)
Definition segid_of (self : MEDS) (iobj icutout : Z) (coadd_seg : ndarray)
  : M pixel :=
  coadd_rowcen ← lift (cat2 cutout_row (_cat self) iobj icutout);
  coadd_colcen ← lift (cat2 cutout_col (_cat self) iobj icutout);
  getitem_f coadd_seg coadd_rowcen coadd_colcen.

(** [_make_composite_weight].  The [print] in the handler of
    [LinAlgError] is not modelled. *)
Definition _make_composite_weight (self : MEDS) (iobj icutout : Z)
    (wt coadd_seg : ndarray) : M ndarray :=
  cwt ← copy wt;
  coadd_rowcen ← lift (cat2 cutout_row (_cat self) iobj icutout);
  coadd_colcen ← lift (cat2 cutout_col (_cat self) iobj icutout);
  rowcen ← lift (cat2 cutout_row (_cat self) iobj icutout);
  colcen ← lift (cat2 cutout_col (_cat self) iobj icutout);
  segid ← getitem_f coadd_seg coadd_rowcen coadd_colcen;
  if decide (icutout = 0) then
    (* this cutout is the coadd *)
    w ← where_ne coadd_seg segid;
    (if decide (length w ≠ 0%nat) then setitem cwt w zero else mret tt);;
    mret cwt
  else
    se_jacob ← lift (get_jacob_as_matrix self iobj icutout);
    coadd_jacob ← lift (get_jacob_as_matrix self iobj 0);
    match getI coadd_jacob with
    | None =>
        (* coadd jacob is singular, setting weight to zero *)
        fill cwt zero;;
        mret cwt
    | Some cjinv =>
        let shape0 := Z.of_nat (nrows coadd_seg) in
        let shape1 := Z.of_nat (ncols coadd_seg) in
        let cpix :=
          se_to_coadd rowcen colcen coadd_rowcen coadd_colcen
            se_jacob cjinv in
        let wbad := where_mask (nrows cwt) (ncols cwt) (fun r c =>
          wbad_mask shape0 shape1 (cpix r c).1 (cpix r c).2) in
        (if decide (length wbad ≠ 0%nat) then setitem cwt wbad zero
         else mret tt);;
        (* clipping makes the notation easier *)
        let clipped := fun rc : nat * nat =>
          (clip (cpix rc.1 rc.2).1 0 (shape0 - 1),
           clip (cpix rc.1 rc.2).2 0 (shape1 - 1)) in
        segs ← getitem_fancy coadd_seg
                 (clipped <$> ndindex (nrows cwt) (ncols cwt));
        let wbad :=
          where_mask (nrows cwt) (ncols cwt) (ne_at (ncols cwt) segs segid) in
        (if decide (length wbad ≠ 0%nat) then setitem cwt wbad zero
         else mret tt);;
        mret cwt
    end.

Definition get_cweight_cutout (self : MEDS) (iobj icutout : Z)
  : M ndarray :=
  wt ← get_cutout self iobj icutout "weight";
  coadd_seg ← get_cutout self iobj 0 "seg";
  cwt ← _make_composite_weight self iobj icutout wt coadd_seg;
  mret cwt.

(** [for icutout, wt in enumerate(wlist): body], counting from [icutout]. *)
Fixpoint for_enumerate (icutout : Z) (wlist : list ndarray)
    (body : Z -> ndarray -> M unit) : M unit :=
  match wlist with
  | [] => mret tt
  | wt :: wlist =>
      body icutout wt;;
      for_enumerate (icutout + 1) wlist body
  end.

Definition get_cweight_mosaic (self : MEDS) (iobj : Z) : M ndarray :=
  wtmosaic ← get_mosaic self iobj "weight";
  coadd_seg ← get_cutout self iobj 0 "seg";
  ncutout ← lift (cat1 ncutout (_cat self) iobj);
  box_size ← lift (cat1 box_size (_cat self) iobj);
  (* shares underlying storage *)
  let wlist := _split_mosaic wtmosaic box_size ncutout in
  for_enumerate 0 wlist (fun icutout wt =>
    cwt ← _make_composite_weight self iobj icutout wt coadd_seg;
    assign wt cwt);;
  mret wtmosaic.

Definition get_cweight_cutout_list (self : MEDS) (iobj : Z)
  : M (list ndarray) :=
  wtmosaic ← get_cweight_mosaic self iobj;
  ncutout ← lift (cat1 ncutout (_cat self) iobj);
  box_size ← lift (cat1 box_size (_cat self) iobj);
  (* shares underlying storage *)
  let wlist := _split_mosaic wtmosaic box_size ncutout in
  mret wlist.

End MEDS.

Arguments MEDS : clear implicits.

(** ** A concrete inverse and concrete data, to run the model *)

(** Inverse of a 2x2 matrix by the adjugate; [None] when the determinant
    computes to zero. *)
Definition inv2x2 (a : matrix) : option matrix :=
  let det := (m00 a * m11 a - m01 a * m10 a)%float in
  if (det =? 0)%float then None
  else Some (Matrix (m11 a / det) (- m01 a / det)
                    (- m10 a / det) (m00 a / det))%float.

Definition zne (x y : Z) : bool := negb (x =? y).

(** [a[x, y]] with float scalars on row-major data. *)
Definition item_f {pixel} (rows cols : nat) (d : list pixel) (x y : float)
  : result pixel :=
  i ← index_of_float x;
  j ← index_of_float y;
  item rows cols d (i, j).

(** ** The composite weight as a function of the pixel data

    [composite_data] computes, from the elements [dw] of a [rows] x [cols]
    weight cutout and the elements [ds] of an [srows] x [scols] coadd seg
    cutout, the elements of the array that [_make_composite_weight]
    returns.  It is the functional reading of the method, and is proved
    below to agree with the in-place version on the heap. *)
Definition composite_data {pixel} (zero : pixel)
    (ne : pixel -> pixel -> bool) (getI : matrix -> option matrix)
    (self : MEDS pixel) (iobj icutout : Z)
    (rows cols srows scols : nat) (dw ds : list pixel)
  : result (list pixel) :=
  rowcen ← cat2 cutout_row (_cat self) iobj icutout;
  colcen ← cat2 cutout_col (_cat self) iobj icutout;
  segid ← item_f srows scols ds rowcen colcen;
  if decide (icutout = 0) then
    let w := where_mask srows scols (ne_at ne scols ds segid) in
    if forallb (fun rc => (rc.1 <? rows)%nat && (rc.2 <? cols)%nat) w
    then Ok (setitem_data cols w zero dw)
    else Raise IndexError
  else
    se_jacob ← get_jacob_as_matrix self iobj icutout;
    coadd_jacob ← get_jacob_as_matrix self iobj 0;
    match getI coadd_jacob with
    | None => Ok (replicate (rows * cols) zero)
    | Some cjinv =>
        let cpix := se_to_coadd rowcen colcen rowcen colcen se_jacob cjinv in
        let shape0 := Z.of_nat srows in
        let shape1 := Z.of_nat scols in
        let wbad1 := where_mask rows cols (fun r c =>
          wbad_mask shape0 shape1 (cpix r c).1 (cpix r c).2) in
        let clipped := fun rc : nat * nat =>
          (clip (cpix rc.1 rc.2).1 0 (shape0 - 1),
           clip (cpix rc.1 rc.2).2 0 (shape1 - 1)) in
        segs ← mapM (item srows scols ds) (clipped <$> ndindex rows cols);
        let wbad2 := where_mask rows cols (ne_at ne cols segs segid) in
        Ok (setitem_data cols wbad2 zero (setitem_data cols wbad1 zero dw))
    end.

(** ** Catalog invariant for one object

    Object [iobj] is entry [row] of the catalog, has at least one cutout,
    and its [ncutout] cutouts of [box_size]^2 pixels lie back to back in
    extension [ext] (the one that [type] names) from [start_row[iobj, 0]]
    on; row numbers of the extension fit the [i4] columns. *)
Definition object_stored {pixel} (self : MEDS pixel) (iobj : Z)
    (type : string) (row : cat_row) (start : Z) (ext : list pixel) : Prop :=
  0 <= iobj < cat_size self /\
  _cat self !! Z.to_nat iobj = Some row /\
  1 <= ncutout row /\ 0 <= box_size row /\
  start_row row !! 0%nat = Some start /\ 0 <= start /\
  (exists extname, _get_extension_name type = Ok extname /\
                   fits_ext self extname = Ok ext) /\
  start + box_size row * box_size row * ncutout row
    <= Z.of_nat (length ext) /\
  Z.of_nat (length ext) < 2 ^ 31.

(** ** Rounding, as the specification words it

    The value of a finite float as a fraction with a positive
    denominator. *)
Definition sf_ratio (x : spec_float) : option (Z * Z) :=
  match x with
  | S754_zero _ => Some (0, 1)
  | S754_finite s m e =>
      let n := if s then Z.neg m else Z.pos m in
      if 0 <=? e then Some (n * 2 ^ e, 1) else Some (n, 2 ^ (- e))
  | S754_infinity _ | S754_nan => None
  end.

(** [z] is [x] with its fractional part discarded. *)
Definition truncation_of (x : float) (z : Z) : Prop :=
  exists n dn, sf_ratio (Prim2SF x) = Some (n, dn) /\ z = Z.quot n dn.

(** [z] is an integer nearest to [x], that is [|z - x| <= 1/2]. *)
Definition nearest_to (x : float) (z : Z) : Prop :=
  exists n dn, sf_ratio (Prim2SF x) = Some (n, dn) /\
               Z.abs (2 * (z * dn - n)) <= dn.

(** [x] is finite and its integer part is an [int64]. *)
Definition fits_int64 (x : float) : Prop :=
  exists z, trunc_sf (Prim2SF x) = Some z /\ int64_min <= z <= int64_max.

(** [has_data h a d]: in heap [h] the view [a] lies inside its buffer and
    its elements, row-major, are [d]. *)
Definition has_data {pixel} (h : heap pixel) (a : ndarray) (d : list pixel)
  : Prop :=
  exists b, h !! base a = Some b /\
            (offset a + nd_size a <= length b)%nat /\
            d = take (nd_size a) (drop (offset a) b).

(** Storing [d] through a view at [off] replaces that segment of the
    buffer [b]. *)
Definition splice {pixel} (b : list pixel) (off : nat) (d : list pixel)
  : list pixel :=
  take off b ++ d ++ drop (off + length d) b.

(** ** Further methods of the class *)

(** A row of [self._image_info]. *)
Record image_info_row := ImageInfo {
  image_path : string;
  sky_path : string
}.

Section Accessors.

Context {pixel : Type}.

(** [get_jacobian]: the Jacobian of one cutout as a dict. *)
Definition get_jacobian (self : MEDS pixel) (iobj icutout : Z)
  : M (gmap string float) :=
  _check_indices self iobj (Some icutout);;
  j_dudrow ← lift (cat2 dudrow (_cat self) iobj icutout);
  j_dudcol ← lift (cat2 dudcol (_cat self) iobj icutout);
  j_dvdcol ← lift (cat2 dvdcol (_cat self) iobj icutout);
  j_dvdrow ← lift (cat2 dvdrow (_cat self) iobj icutout);
  mret (<["dvdrow" := j_dvdrow]>
          (<["dvdcol" := j_dvdcol]>
             (<["dudcol" := j_dudcol]>
                (<["dudrow" := j_dudrow]> (∅ : gmap string float))))).

(** [get_jacobian_list]: [jlist.append(j)] for [icutout] in
    [xrange(ncutout)]. *)
Definition get_jacobian_list (self : MEDS pixel) (iobj : Z)
  : M (list (gmap string float)) :=
  _check_indices self iobj None;;
  ncutout ← lift (cat1 ncutout (_cat self) iobj);
  mapM (get_jacobian self iobj) (xrange ncutout).

(** [get_source_info]; [image_info] is [self._image_info], the table
    that [file_id] points into. *)
Definition get_source_info (self : MEDS pixel)
    (image_info : list image_info_row) (iobj icutout : Z)
  : M image_info_row :=
  _check_indices self iobj (Some icutout);;
  ifile ← lift (cat2 file_id (_cat self) iobj icutout);
  lift (k ← norm_index (length image_info) ifile;
        match image_info !! k with
        | Some info => Ok info
        | None => Raise IndexError
        end).

Definition get_source_path (self : MEDS pixel)
    (image_info : list image_info_row) (iobj icutout : Z) : M string :=
  info ← get_source_info self image_info iobj icutout;
  mret (image_path info).

Definition get_sky_path (self : MEDS pixel)
    (image_info : list image_info_row) (iobj icutout : Z) : M string :=
  info ← get_source_info self image_info iobj icutout;
  mret (sky_path info).

End Accessors.

(** ** Concrete catalogs *)

(** One object with two 2x2 cutouts, centre [(0, 0)] in both; the coadd
    Jacobian is the identity and the SE Jacobian is twice the identity, so
    SE pixel [(r, c)] maps to coadd position [(2r, 2c)]. *)
Definition scaled_row : cat_row :=
  {| id := 7; ncutout := 2; box_size := 2;
     file_id := [0; 1]; start_row := [0; 4];
     cutout_row := [0; 0]%float; cutout_col := [0; 0]%float;
     dudrow := [1; 2]%float; dudcol := [0; 0]%float;
     dvdrow := [0; 0]%float; dvdcol := [1; 2]%float |}.

Definition scaled_meds : MEDS Z :=
  {| _cat := [scaled_row];
     image_cutouts := [10; 11; 12; 13; 20; 21; 22; 23];
     weight_cutouts := [5; 5; 5; 5; 6; 6; 6; 6];
     seg_cutouts := [1; 1; 1; 1; 9; 9; 9; 9] |}.

(** The same with an SE Jacobian of 1.75 times the identity: SE pixel
    [(r, c)] maps to coadd position [(1.75 r, 1.75 c)]. *)
Definition stretched_row : cat_row :=
  {| id := 8; ncutout := 2; box_size := 2;
     file_id := [0; 1]; start_row := [0; 4];
     cutout_row := [0; 0]%float; cutout_col := [0; 0]%float;
     dudrow := [1; 1.75]%float; dudcol := [0; 0]%float;
     dvdrow := [0; 0]%float; dvdcol := [1; 1.75]%float |}.

Definition stretched_meds : MEDS Z :=
  {| _cat := [stretched_row];
     image_cutouts := [10; 11; 12; 13; 20; 21; 22; 23];
     weight_cutouts := [5; 5; 5; 5; 6; 6; 6; 6];
     seg_cutouts := [1; 1; 1; 1; 9; 9; 9; 9] |}.

(** One object with a single 2x2 cutout whose centre is [(0.75, 0.75)],
    over a seg cutout with four different labels. *)
Definition offcentre_row : cat_row :=
  {| id := 9; ncutout := 1; box_size := 2;
     file_id := [0]; start_row := [0];
     cutout_row := [0.75]%float; cutout_col := [0.75]%float;
     dudrow := [1]%float; dudcol := [0]%float;
     dvdrow := [0]%float; dvdcol := [1]%float |}.

Definition offcentre_meds : MEDS Z :=
  {| _cat := [offcentre_row];
     image_cutouts := [10; 11; 12; 13];
     weight_cutouts := [5; 5; 5; 5];
     seg_cutouts := [1; 2; 3; 4] |}.

(** Two cutouts whose coadd Jacobian is the zero matrix. *)
Definition degenerate_row : cat_row :=
  {| id := 10; ncutout := 2; box_size := 2;
     file_id := [0; 1]; start_row := [0; 4];
     cutout_row := [0; 0]%float; cutout_col := [0; 0]%float;
     dudrow := [0; 1]%float; dudcol := [0; 0]%float;
     dvdrow := [0; 0]%float; dvdcol := [0; 1]%float |}.

Definition degenerate_meds : MEDS Z :=
  {| _cat := [degenerate_row];
     image_cutouts := [10; 11; 12; 13; 20; 21; 22; 23];
     weight_cutouts := [5; 5; 5; 5; 6; 6; 6; 6];
     seg_cutouts := [1; 1; 1; 1; 9; 9; 9; 9] |}.

(** Three objects with [NMAX = 2] catalog slots each: one with a single
    cutout, so that slot 1 is padding; one without cutouts; one whose
    [ncutout] entry is negative. *)
Definition padded_row : cat_row :=
  {| id := 11; ncutout := 1; box_size := 2;
     file_id := [0; 7]; start_row := [0; 4];
     cutout_row := [0; 0]%float; cutout_col := [0; 0]%float;
     dudrow := [1; 3]%float; dudcol := [0; 0]%float;
     dvdrow := [0; 0]%float; dvdcol := [1; 3]%float |}.

Definition empty_row : cat_row :=
  {| id := 12; ncutout := 0; box_size := 0;
     file_id := [0; 0]; start_row := [0; 0];
     cutout_row := [0; 0]%float; cutout_col := [0; 0]%float;
     dudrow := [0; 0]%float; dudcol := [0; 0]%float;
     dvdrow := [0; 0]%float; dvdcol := [0; 0]%float |}.

Definition unset_row : cat_row :=
  {| id := 13; ncutout := -1; box_size := 0;
     file_id := [0; 0]; start_row := [0; 0];
     cutout_row := [0; 0]%float; cutout_col := [0; 0]%float;
     dudrow := [0; 0]%float; dudcol := [0; 0]%float;
     dvdrow := [0; 0]%float; dvdcol := [0; 0]%float |}.

Definition padded_meds : MEDS Z :=
  {| _cat := [padded_row; empty_row; unset_row];
     image_cutouts := [10; 11; 12; 13; 20; 21; 22; 23];
     weight_cutouts := [5; 5; 5; 5; 6; 6; 6; 6];
     seg_cutouts := [1; 1; 1; 1; 9; 9; 9; 9] |}.

(** An image table with a coadd and one SE image. *)
Definition demo_image_info : list image_info_row :=
  [ImageInfo "coadd.fits" "coadd_bkg.fits";
   ImageInfo "se1.fits" "se1_bkg.fits"].

(** A heap holding one weight mosaic of two 2x2 cutouts. *)
Definition mosaic_heap : list (list Z) := [[5; 5; 5; 5; 6; 6; 6; 6]].

(** A heap holding an SE weight cutout and the coadd seg cutout. *)
Definition demo_heap : list (list Z) := [[6; 6; 6; 6]; [1; 1; 1; 1]].
Definition demo_wt : ndarray := NdArray 0 0 2 2.
Definition demo_seg : ndarray := NdArray 1 0 2 2.

(** ** Lists as row-major arrays *)

Lemma bind_singleton_fmap {A B} (f : A -> B) (l : list A) :
  (x ← l; [f x]) = f <$> l.
Proof. induction l as [|x l IH]; csimpl; [done|]. by rewrite IH. Qed.

Lemma ndindex_unfold rows cols :
  ndindex rows cols = r ← seq 0 rows; (pair r <$> seq 0 cols).
Proof.
  unfold ndindex. induction (seq 0 rows) as [|r l IH]; csimpl; [done|].
  by rewrite IH, bind_singleton_fmap.
Qed.

Lemma elem_of_ndindex rows cols r c :
  (r, c) ∈ ndindex rows cols <-> (r < rows)%nat /\ (c < cols)%nat.
Proof.
  rewrite ndindex_unfold, list_elem_of_bind. split.
  - intros (r' & Hc & Hr). apply list_elem_of_fmap in Hc as (c' & Heq & Hc).
    injection Heq as -> ->. apply elem_of_seq in Hr, Hc. lia.
  - intros [Hr Hc]. exists r. split.
    + apply list_elem_of_fmap. exists c. split; [done|]. apply elem_of_seq. lia.
    + apply elem_of_seq. lia.
Qed.

Lemma length_ndindex rows cols :
  length (ndindex rows cols) = (rows * cols)%nat.
Proof.
  rewrite ndindex_unfold.
  assert (forall n s,
    length (x ← seq s n; (pair x <$> seq 0 cols)) = (n * cols)%nat) as H.
  { induction n as [|n IH]; intros s; csimpl; [done|].
    rewrite length_app, length_fmap, length_seq, IH. lia. }
  apply H.
Qed.

Lemma lookup_ndindex rows cols r c :
  (r < rows)%nat -> (c < cols)%nat ->
  ndindex rows cols !! (r * cols + c)%nat = Some (r, c).
Proof.
  rewrite ndindex_unfold. intros Hr Hc.
  assert (forall n s i, (i < n)%nat ->
    (x ← seq s n; (pair x <$> seq 0 cols)) !! (i * cols + c)%nat
    = Some ((s + i)%nat, c)) as H.
  { induction n as [|n IH]; intros s i Hi; [lia|]. csimpl.
    destruct i as [|i].
    - rewrite lookup_app_l by (rewrite length_fmap, length_seq; lia).
      rewrite list_lookup_fmap, lookup_seq_lt by lia. simpl.
      do 2 f_equal; lia.
    - rewrite lookup_app_r by (rewrite length_fmap, length_seq; lia).
      rewrite length_fmap, length_seq.
      replace (S i * cols + c - cols)%nat with (i * cols + c)%nat by lia.
      rewrite IH by lia. do 2 f_equal; lia. }
  by rewrite H.
Qed.

Lemma elem_of_where_mask rows cols mask r c :
  (r, c) ∈ where_mask rows cols mask
  <-> (r < rows)%nat /\ (c < cols)%nat /\ mask r c = true.
Proof.
  unfold where_mask. rewrite list_elem_of_filter, elem_of_ndindex. simpl.
  tauto.
Qed.

Lemma flat_index_inj cols r c r' c' :
  (c < cols)%nat -> (c' < cols)%nat ->
  (r * cols + c = r' * cols + c')%nat -> r = r' /\ c = c'.
Proof.
  intros Hc Hc' Heq. destruct (lt_eq_lt_dec r r') as [[Hlt| ->]|Hlt].
  - assert ((r + 1) * cols <= r' * cols)%nat by (apply Nat.mul_le_mono_r; lia).
    lia.
  - lia.
  - assert ((r' + 1) * cols <= r * cols)%nat by (apply Nat.mul_le_mono_r; lia).
    lia.
Qed.

Lemma result_bind_ok {A B} (f : A -> result B) (a : A) :
  (Ok a ≫= f) = f a.
Proof. reflexivity. Qed.

Lemma mapM_result_lookup {A B} (f : A -> result B) (l : list A) l' i x :
  mapM f l = Ok l' -> l !! i = Some x ->
  exists y, l' !! i = Some y /\ f x = Ok y.
Proof.
  revert l' i. induction l as [|a l IH]; intros l' i Hm Hi; [done|].
  simpl in Hm. unfold mbind, result_mbind, result_bind in Hm.
  destruct (f a) as [y|] eqn:Hfa; [|done].
  destruct (mapM f l) as [k|] eqn:Hk; [|done].
  injection Hm as <-. destruct i as [|i]; simpl in *.
  - injection Hi as ->. eauto.
  - eauto.
Qed.

Lemma mapM_result_length {A B} (f : A -> result B) (l : list A) l' :
  mapM f l = Ok l' -> length l' = length l.
Proof.
  revert l'. induction l as [|a l IH]; intros l' Hm; simpl in Hm.
  - by injection Hm as <-.
  - unfold mbind, result_mbind, result_bind in Hm.
    destruct (f a) as [y|]; [|done].
    destruct (mapM f l) as [k|]; [|done].
    injection Hm as <-. simpl. f_equal. by apply IH.
Qed.

Lemma mapM_result_total {A B} (f : A -> result B) (l : list A) :
  (forall x, x ∈ l -> exists y, f x = Ok y) ->
  exists l', mapM f l = Ok l'.
Proof.
  induction l as [|a l IH]; intros Hf; simpl; [by eexists|].
  destruct (Hf a) as [y Hy]; [by left|].
  destruct IH as [k Hk]; [intros x Hx; apply Hf; by right|].
  exists (y :: k). by rewrite Hy, result_bind_ok, Hk.
Qed.

(** *** Conversion of floats to integers *)

Lemma trunc_sf_truncation x z :
  trunc_sf (Prim2SF x) = Some z -> truncation_of x z.
Proof.
  unfold truncation_of. destruct (Prim2SF x) as [s| | |s m e]; simpl; try done.
  - intros [= <-]. by exists 0, 1.
  - intros [= <-]. destruct (Z.leb_spec 0 e) as [He|He].
    + eexists _, 1. split; [done|]. rewrite Z.quot_1_r, Z.shiftl_mul_pow2 by done.
      destruct s; lia.
    + eexists _, _. split; [done|].
      assert (0 < 2 ^ (- e)) by (apply Z.pow_pos_nonneg; lia).
      assert (Z.shiftl (Z.pos m) e = Z.pos m / 2 ^ (- e)) as ->.
      { rewrite <- Z.shiftr_div_pow2 by lia. rewrite <- Z.shiftl_opp_r.
        f_equal. lia. }
      destruct s.
      * change (Z.neg m) with (- Z.pos m).
        rewrite Z.quot_opp_l by lia. f_equal.
        symmetry. apply Z.quot_div_nonneg; lia.
      * symmetry. apply Z.quot_div_nonneg; lia.
Qed.

Lemma astype_i8_truncation x : fits_int64 x -> truncation_of x (astype_i8 x).
Proof.
  intros (z & Hz & Hlo & Hhi). unfold astype_i8. rewrite Hz.
  destruct (Z.leb_spec int64_min z); [|lia].
  destruct (Z.leb_spec z int64_max); [|lia].
  by apply trunc_sf_truncation.
Qed.

Lemma index_of_float_truncation x i :
  index_of_float x = Ok i -> truncation_of x i.
Proof.
  unfold index_of_float.
  destruct (trunc_sf (Prim2SF x)) as [z|] eqn:Hz; [|done].
  intros [= <-]. by apply trunc_sf_truncation.
Qed.

Lemma norm_index_in_range n i :
  0 <= i < Z.of_nat n -> norm_index n i = Ok (Z.to_nat i).
Proof.
  intros [Hlo Hhi]. unfold norm_index.
  destruct (Z.leb_spec 0 i); [|lia]. by destruct (Z.ltb_spec i (Z.of_nat n)); [|lia].
Qed.

Lemma norm_index_pos n i k : norm_index n i = Ok k -> (0 < n)%nat.
Proof.
  unfold norm_index.
  destruct (Z.leb_spec 0 i), (Z.ltb_spec i (Z.of_nat n)); simpl;
    destruct (Z.leb_spec (- Z.of_nat n) i), (Z.ltb_spec i 0); simpl;
    intros; try done; lia.
Qed.

Lemma clip_in_range x n : 0 < n -> 0 <= clip x 0 (n - 1) < n.
Proof. unfold clip. lia. Qed.

Section Proofs.

Context {pixel : Type}.
Variable zero : pixel.
Variable ne : pixel -> pixel -> bool.
Variable getI : matrix -> option matrix.

Implicit Types (h : heap pixel) (d : list pixel) (a : ndarray).
Implicit Types (w : list (nat * nat)) (v : pixel) (self : MEDS pixel).

(** *** Assignment through an index list *)

Lemma length_setitem_data cols w v d :
  length (setitem_data cols w v d) = length d.
Proof.
  unfold setitem_data. revert d.
  induction w as [|rc w IH]; intros d; simpl; [done|].
  by rewrite IH, length_insert.
Qed.

Lemma setitem_data_old_or_new cols w v d k :
  setitem_data cols w v d !! k = d !! k \/
  setitem_data cols w v d !! k = Some v.
Proof.
  unfold setitem_data. revert d.
  induction w as [|rc w IH]; intros d; simpl; [by left|].
  destruct (IH (<[(rc.1 * cols + rc.2)%nat:=v]> d)) as [H|H]; [|by right].
  rewrite H. destruct (decide (k = rc.1 * cols + rc.2)%nat) as [->|Hne].
  - destruct (decide (rc.1 * cols + rc.2 < length d)%nat).
    + right. by apply list_lookup_insert_eq.
    + left. rewrite list_insert_ge by lia. done.
  - left. by apply list_lookup_insert_ne.
Qed.

Lemma setitem_data_lookup cols w v d r c x :
  (forall rc, rc ∈ w -> (rc.2 < cols)%nat) ->
  (c < cols)%nat ->
  d !! (r * cols + c)%nat = Some x ->
  setitem_data cols w v d !! (r * cols + c)%nat
  = Some (if decide ((r, c) ∈ w) then v else x).
Proof.
  unfold setitem_data. revert d x.
  induction w as [|[r' c'] w IH]; intros d x Hw Hc Hd; cbn [foldl].
  - rewrite Hd. case_decide as Hin; [by apply elem_of_nil in Hin|done].
  - assert (c' < cols)%nat as Hc' by (apply (Hw (r', c')); by left).
    assert (forall rc, rc ∈ w -> (rc.2 < cols)%nat) as Hw'
      by (intros rc Hrc; apply Hw; by right).
    destruct (decide ((r, c) = (r', c'))) as [Heq|Hne].
    + injection Heq as <- <-.
      rewrite (IH _ v Hw' Hc).
      * destruct (decide ((r, c) ∈ (r, c) :: w)) as [_|Hn].
        -- by destruct (decide ((r, c) ∈ w)).
        -- destruct Hn. by left.
      * apply list_lookup_insert_eq. by eapply lookup_lt_Some.
    + rewrite (IH _ x Hw' Hc).
      * f_equal. destruct (decide ((r, c) ∈ w)) as [Hin|Hnin].
        -- case_decide as Hn; [done|]. destruct Hn. by right.
        -- case_decide as Hn; [|done].
           apply elem_of_cons in Hn as [?|?]; done.
      * rewrite list_lookup_insert_ne; [done|]. simpl.
        intros Heq. apply Hne.
        destruct (flat_index_inj cols r' c' r c Hc' Hc Heq) as [-> ->]. done.
Qed.

(** *** Running the monad *)

Lemma run_bind {A B} (m : M A) (f : A -> M B) h :
  (m ≫= f) h = match m h with
               | (Ok a, h') => f a h'
               | (Raise e, h') => (Raise e, h')
               end.
Proof. reflexivity. Qed.

Lemma run_lift_bind {A B} (r : result A) (f : A -> M B) h :
  (lift r ≫= f) h = match r with
                    | Ok a => f a h
                    | Raise e => (Raise e, h)
                    end.
Proof. rewrite run_bind. unfold lift. by destruct r. Qed.

Lemma run_ret {A} (x : A) h : (mret x : M A) h = (Ok x, h).
Proof. reflexivity. Qed.

(** One step of a method: a catalog lookup whose outcome [H] is known. *)
Ltac run_lift H := rewrite run_lift_bind, H; cbn beta iota.

(** *** Views and their data *)

Lemma has_data_length h a d : has_data h a d -> length d = nd_size a.
Proof.
  intros (b & _ & Hlen & ->). rewrite length_take, length_drop. lia.
Qed.

Lemma has_data_inj h a d d' : has_data h a d -> has_data h a d' -> d = d'.
Proof. intros (b & Hb & _ & ->) (b' & Hb' & _ & ->). congruence. Qed.

Lemma has_data_app h h' a d : has_data h a d -> has_data (h ++ h') a d.
Proof.
  intros (b & Hb & Hlen & ->). exists b. split; [|done].
  by apply lookup_app_l_Some.
Qed.

Lemma has_data_fresh h d rows cols :
  length d = (rows * cols)%nat ->
  has_data (h ++ [d]) (NdArray (length h) 0 rows cols) d.
Proof.
  intros Hlen. exists d. unfold nd_size. cbn [base offset nrows ncols].
  split; [|split].
  - by rewrite lookup_app_r, Nat.sub_diag by lia.
  - lia.
  - by rewrite drop_0, firstn_all2 by lia.
Qed.

Lemma load_ok h a d : has_data h a d -> load a h = (Ok d, h).
Proof.
  intros (b & Hb & Hlen & ->). unfold load. rewrite Hb.
  by rewrite decide_True by done.
Qed.

Lemma load_inv h a d h' : load a h = (Ok d, h') -> has_data h a d /\ h' = h.
Proof.
  unfold load. destruct (h !! base a) as [b|] eqn:Hb; [|done].
  case_decide; [|done]. intros [= <- <-]. split; [|done]. by exists b.
Qed.

Lemma load_heap h a : (load a h).2 = h.
Proof.
  unfold load. destruct (h !! base a); [|done]. by case_decide.
Qed.

Lemma copy_ok h a d :
  has_data h a d ->
  copy a h = (Ok (NdArray (length h) 0 (nrows a) (ncols a)), h ++ [d]).
Proof. intros Hd. unfold copy. by rewrite run_bind, (load_ok _ _ _ Hd). Qed.

Lemma getitem_ok h a d i j :
  has_data h a d ->
  getitem a i j h = (item (nrows a) (ncols a) d (i, j), h).
Proof. intros Hd. unfold getitem. by rewrite run_bind, (load_ok _ _ _ Hd). Qed.

Lemma getitem_f_ok h a d x y :
  has_data h a d ->
  getitem_f a x y h = (item_f (nrows a) (ncols a) d x y, h).
Proof.
  intros Hd. unfold getitem_f, item_f. rewrite run_lift_bind.
  destruct (index_of_float x) as [i|]; [|done]. rewrite run_lift_bind.
  destruct (index_of_float y) as [j|]; [|done].
  by rewrite (getitem_ok _ _ _ _ _ Hd).
Qed.

Lemma getitem_fancy_ok h a d idx :
  has_data h a d ->
  getitem_fancy a idx h = (mapM (item (nrows a) (ncols a) d) idx, h).
Proof.
  intros Hd. unfold getitem_fancy. by rewrite run_bind, (load_ok _ _ _ Hd).
Qed.

Lemma where_ne_ok h a d v :
  has_data h a d ->
  where_ne ne a v h
  = (Ok (where_mask (nrows a) (ncols a) (ne_at ne (ncols a) d v)), h).
Proof. intros Hd. unfold where_ne. by rewrite run_bind, (load_ok _ _ _ Hd). Qed.

Lemma store_ok h a d0 d :
  has_data h a d0 -> length d = nd_size a ->
  exists b, h !! base a = Some b /\
    store a d h = (Ok tt, <[base a := splice b (offset a) d]> h).
Proof.
  intros (b & Hb & Hlen & _) Hd. exists b. split; [done|].
  unfold store, splice. rewrite Hb, decide_True by done. by rewrite Hd.
Qed.

Lemma store_heap_length h a d : length (store a d h).2 = length h.
Proof.
  unfold store. destruct (h !! base a); [|done].
  case_decide; [|done]. simpl. by rewrite length_insert.
Qed.

Lemma store_fresh h d0 d rows cols :
  length d0 = (rows * cols)%nat -> length d = (rows * cols)%nat ->
  store (NdArray (length h) 0 rows cols) d (h ++ [d0]) = (Ok tt, h ++ [d]).
Proof.
  intros H0 Hd. unfold store, nd_size. cbn [base offset nrows ncols].
  rewrite lookup_app_r, Nat.sub_diag by lia. cbn [lookup list_lookup].
  rewrite decide_True by (split; lia).
  rewrite drop_ge by lia. rewrite app_nil_r, take_0, app_nil_l.
  f_equal. rewrite insert_app_r_alt, Nat.sub_diag by lia. done.
Qed.

Lemma setitem_fresh h d w v rows cols :
  length d = (rows * cols)%nat ->
  setitem (NdArray (length h) 0 rows cols) w v (h ++ [d])
  = if forallb (fun rc => (rc.1 <? rows)%nat && (rc.2 <? cols)%nat) w
    then (Ok tt, h ++ [setitem_data cols w v d])
    else (Raise IndexError, h ++ [d]).
Proof.
  intros Hd. unfold setitem. cbn [base offset nrows ncols].
  destruct (forallb _ w); [|done].
  rewrite run_bind, (load_ok _ _ d) by by apply has_data_fresh.
  apply store_fresh; [done|]. by rewrite length_setitem_data.
Qed.

Lemma fill_fresh h d v rows cols :
  length d = (rows * cols)%nat ->
  fill (NdArray (length h) 0 rows cols) v (h ++ [d])
  = (Ok tt, h ++ [replicate (rows * cols) v]).
Proof.
  intros Hd. unfold fill. apply store_fresh; [done|].
  by rewrite length_replicate.
Qed.

Lemma forallb_where_mask rows cols mask :
  forallb (fun rc => (rc.1 <? rows)%nat && (rc.2 <? cols)%nat)
          (where_mask rows cols mask) = true.
Proof.
  apply forallb_forall. intros [r c] Hin%list_elem_of_In.
  apply elem_of_where_mask in Hin as (Hr & Hc & _). simpl.
  apply andb_true_iff. split; by apply Nat.ltb_lt.
Qed.

Lemma guarded_setitem_fresh h d w v rows cols :
  length d = (rows * cols)%nat ->
  (if decide (length w ≠ 0%nat)
   then setitem (NdArray (length h) 0 rows cols) w v
   else mret tt) (h ++ [d])
  = if forallb (fun rc => (rc.1 <? rows)%nat && (rc.2 <? cols)%nat) w
    then (Ok tt, h ++ [setitem_data cols w v d])
    else (Raise IndexError, h ++ [d]).
Proof.
  intros Hd. case_decide as Hw; [by apply setitem_fresh|].
  destruct w; [done|]. simpl in Hw. lia.
Qed.

(** *** The in-place method computes [composite_data] into a new buffer *)

Lemma make_composite_weight_run h self iobj icutout wt seg dw ds :
  has_data h wt dw -> has_data h seg ds ->
  let cwt := NdArray (length h) 0 (nrows wt) (ncols wt) in
  match composite_data zero ne getI self iobj icutout
          (nrows wt) (ncols wt) (nrows seg) (ncols seg) dw ds with
  | Ok d =>
      _make_composite_weight zero ne getI self iobj icutout wt seg h
      = (Ok cwt, h ++ [d])
  | Raise e =>
      exists d,
        _make_composite_weight zero ne getI self iobj icutout wt seg h
        = (Raise e, h ++ [d])
  end.
Proof.
  intros Hw Hs cwt.
  assert (length dw = (nrows wt * ncols wt)%nat) as Hlen
    by apply (has_data_length _ _ _ Hw).
  unfold _make_composite_weight, composite_data.
  subst cwt. rewrite run_bind, (copy_ok _ _ _ Hw).
  rewrite run_lift_bind.
  destruct (cat2 cutout_row (_cat self) iobj icutout) as [rowcen|e];
    [|by exists dw].
  rewrite result_bind_ok, run_lift_bind.
  destruct (cat2 cutout_col (_cat self) iobj icutout) as [colcen|e];
    [|by exists dw].
  rewrite result_bind_ok, !run_lift_bind, run_bind.
  rewrite (getitem_f_ok _ _ ds) by by apply has_data_app.
  destruct (item_f (nrows seg) (ncols seg) ds rowcen colcen) as [segid|e];
    [|by exists dw].
  rewrite result_bind_ok.
  destruct (decide (icutout = 0)) as [Hz|Hnz].
  - rewrite run_bind, (where_ne_ok _ _ ds) by by apply has_data_app.
    rewrite run_bind.
    rewrite guarded_setitem_fresh by done.
    destruct (forallb _ _); [done|by exists dw].
  - rewrite run_lift_bind.
    destruct (get_jacob_as_matrix self iobj icutout) as [se|e];
      [|by exists dw].
    rewrite result_bind_ok, run_lift_bind.
    destruct (get_jacob_as_matrix self iobj 0) as [cj|e]; [|by exists dw].
    rewrite result_bind_ok.
    destruct (getI cj) as [cjinv|].
    + cbv zeta. rewrite run_bind.
      cbn [nrows ncols].
      rewrite guarded_setitem_fresh, forallb_where_mask by done.
      rewrite run_bind.
      rewrite (getitem_fancy_ok _ _ ds) by by apply has_data_app.
      match goal with
      | |- context [mapM ?f ?l] => destruct (mapM f l) as [segs|e]
      end; [|by eexists].
      rewrite result_bind_ok, run_bind.
      rewrite guarded_setitem_fresh, forallb_where_mask
        by by rewrite length_setitem_data.
      done.
    + rewrite run_bind. by rewrite fill_fresh.
Qed.

Lemma segid_of_ok h self iobj icutout seg ds :
  has_data h seg ds ->
  segid_of self iobj icutout seg h
  = (rowcen ← cat2 cutout_row (_cat self) iobj icutout;
     colcen ← cat2 cutout_col (_cat self) iobj icutout;
     item_f (nrows seg) (ncols seg) ds rowcen colcen, h).
Proof.
  intros Hs. unfold segid_of. rewrite run_lift_bind.
  destruct (cat2 cutout_row _ _ _) as [x|]; [|done].
  rewrite result_bind_ok, run_lift_bind.
  destruct (cat2 cutout_col _ _ _) as [y|]; [|done].
  by rewrite result_bind_ok, (getitem_f_ok _ _ _ _ _ Hs).
Qed.

Lemma segid_of_inv h h' self iobj icutout seg ds segid :
  has_data h seg ds ->
  segid_of self iobj icutout seg h = (Ok segid, h') ->
  exists rowcen colcen,
    cat2 cutout_row (_cat self) iobj icutout = Ok rowcen /\
    cat2 cutout_col (_cat self) iobj icutout = Ok colcen /\
    item_f (nrows seg) (ncols seg) ds rowcen colcen = Ok segid.
Proof.
  intros Hs. rewrite (segid_of_ok _ _ _ _ _ _ Hs).
  destruct (cat2 cutout_row _ _ _) as [x|]; [|done].
  rewrite result_bind_ok.
  destruct (cat2 cutout_col _ _ _) as [y|]; [|done].
  rewrite result_bind_ok. intros [= Hi _]. eauto.
Qed.

(** Whatever branch is taken, a pixel is either left alone or zeroed. *)
Lemma composite_data_old_or_zero self iobj icutout rows cols srows scols
    dw ds d :
  length dw = (rows * cols)%nat ->
  composite_data zero ne getI self iobj icutout rows cols srows scols dw ds
  = Ok d ->
  length d = length dw /\
  forall k, d !! k = dw !! k \/ d !! k = Some zero.
Proof.
  intros Hlen. unfold composite_data.
  destruct (cat2 cutout_row _ _ _) as [x|]; [|done].
  rewrite result_bind_ok.
  destruct (cat2 cutout_col _ _ _) as [y|]; [|done].
  rewrite result_bind_ok.
  destruct (item_f _ _ _ _ _) as [segid|]; [|done].
  rewrite result_bind_ok.
  destruct (decide (icutout = 0)).
  - destruct (forallb _ _); [|done]. intros [= <-].
    split; [apply length_setitem_data|]. intros k.
    apply setitem_data_old_or_new.
  - destruct (get_jacob_as_matrix self iobj icutout) as [se|]; [|done].
    rewrite result_bind_ok.
    destruct (get_jacob_as_matrix self iobj 0) as [cj|]; [|done].
    rewrite result_bind_ok.
    destruct (getI cj) as [cjinv|].
    + cbv zeta.
      match goal with
      | |- context [mapM ?f ?l] => destruct (mapM f l) as [segs|]
      end; [|done].
      rewrite result_bind_ok. intros [= <-].
      split; [by rewrite !length_setitem_data|]. intros k.
      match goal with
      | |- context [setitem_data cols ?w2 zero (setitem_data cols ?w1 zero dw)] =>
          destruct (setitem_data_old_or_new cols w2 zero
                      (setitem_data cols w1 zero dw) k) as [H2|H2];
          [rewrite H2; apply setitem_data_old_or_new|by right]
      end.
    + intros [= <-]. split; [by rewrite length_replicate|]. intros k.
      destruct (decide (k < rows * cols)%nat).
      * right. by apply lookup_replicate_2.
      * left. rewrite !lookup_ge_None_2; [done|lia|].
        rewrite length_replicate. lia.
Qed.

Lemma lookup_grid d rows cols r c :
  length d = (rows * cols)%nat -> (r < rows)%nat -> (c < cols)%nat ->
  exists x, d !! (r * cols + c)%nat = Some x.
Proof.
  intros Hlen Hr Hc. apply lookup_lt_is_Some_2. rewrite Hlen.
  assert ((r + 1) * cols <= rows * cols)%nat
    by (apply Nat.mul_le_mono_r; lia).
  lia.
Qed.

Lemma item_inv rows cols d i j x :
  item rows cols d (i, j) = Ok x ->
  exists r c, norm_index rows i = Ok r /\ norm_index cols j = Ok c /\
              d !! (r * cols + c)%nat = Some x.
Proof.
  unfold item. cbn [fst snd].
  destruct (norm_index rows i) as [r|]; [|done]. rewrite result_bind_ok.
  destruct (norm_index cols j) as [c|]; [|done]. rewrite result_bind_ok.
  destruct (d !! (r * cols + c)%nat) as [y|] eqn:Hy; [|done].
  intros [= <-]. eauto.
Qed.

Lemma item_in_range rows cols d i j :
  length d = (rows * cols)%nat ->
  0 <= i < Z.of_nat rows -> 0 <= j < Z.of_nat cols ->
  exists x, item rows cols d (i, j) = Ok x /\
            d !! (Z.to_nat i * cols + Z.to_nat j)%nat = Some x.
Proof.
  intros Hlen Hi Hj. unfold item. cbn [fst snd].
  rewrite (norm_index_in_range _ _ Hi), result_bind_ok.
  rewrite (norm_index_in_range _ _ Hj), result_bind_ok.
  destruct (lookup_grid d rows cols (Z.to_nat i) (Z.to_nat j)) as [x Hx];
    [done|lia|lia|].
  exists x. by rewrite Hx.
Qed.

Lemma item_f_inv rows cols d x y p :
  item_f rows cols d x y = Ok p ->
  exists i j, index_of_float x = Ok i /\ index_of_float y = Ok j /\
              item rows cols d (i, j) = Ok p.
Proof.
  unfold item_f.
  destruct (index_of_float x) as [i|]; [|done]. rewrite result_bind_ok.
  destruct (index_of_float y) as [j|]; [|done]. rewrite result_bind_ok.
  eauto.
Qed.

Lemma clipped_item_total srows scols (ds : list pixel) rows cols
    (cpix : nat -> nat -> Z * Z) :
  length ds = (srows * scols)%nat -> (0 < srows)%nat -> (0 < scols)%nat ->
  let clipped := fun rc : nat * nat =>
    (clip (cpix rc.1 rc.2).1 0 (Z.of_nat srows - 1),
     clip (cpix rc.1 rc.2).2 0 (Z.of_nat scols - 1)) in
  exists segs,
    mapM (item srows scols ds) (clipped <$> ndindex rows cols) = Ok segs /\
    forall r c, (r < rows)%nat -> (c < cols)%nat ->
      exists sg,
        segs !! (r * cols + c)%nat = Some sg /\
        ds !! (Z.to_nat (clipped (r, c)).1 * scols
               + Z.to_nat (clipped (r, c)).2)%nat = Some sg.
Proof.
  intros Hls Hr0 Hc0 clipped.
  assert (forall rc, exists y,
            item srows scols ds (clipped rc) = Ok y /\
            ds !! (Z.to_nat (clipped rc).1 * scols
                   + Z.to_nat (clipped rc).2)%nat = Some y) as Hitem.
  { intros rc. destruct (clipped rc) as [i j] eqn:Hcl.
    apply item_in_range; [done| |].
    - injection Hcl as <- _. apply clip_in_range. lia.
    - injection Hcl as _ <-. apply clip_in_range. lia. }
  destruct (mapM_result_total (item srows scols ds)
              (clipped <$> ndindex rows cols)) as [segs Hsegs].
  { intros ij (rc & -> & _)%list_elem_of_fmap.
    destruct (Hitem rc) as (y & Hy & _). eauto. }
  exists segs. split; [done|]. intros r c Hr Hc.
  destruct (Hitem (r, c)) as (sg & Hsg & Hds).
  exists sg. split; [|done].
  destruct (mapM_result_lookup _ _ _ (r * cols + c)%nat
              (clipped (r, c)) Hsegs) as (y & Hy & Hy').
  - by rewrite list_lookup_fmap, lookup_ndindex.
  - rewrite Hsg in Hy'. by injection Hy' as <-.
Qed.

(** With catalog entries present, a centre inside the seg cutout and, for
    the coadd, a seg cutout of the shape of the weight cutout, the
    computation goes through. *)
Lemma composite_data_returns self iobj icutout rows cols srows scols
    (dw ds : list pixel) rowcen colcen segid :
  length ds = (srows * scols)%nat ->
  cat2 cutout_row (_cat self) iobj icutout = Ok rowcen ->
  cat2 cutout_col (_cat self) iobj icutout = Ok colcen ->
  item_f srows scols ds rowcen colcen = Ok segid ->
  (icutout = 0 -> srows = rows /\ scols = cols) ->
  (icutout ≠ 0 ->
     exists se cj, get_jacob_as_matrix self iobj icutout = Ok se /\
                   get_jacob_as_matrix self iobj 0 = Ok cj) ->
  exists d,
    composite_data zero ne getI self iobj icutout rows cols srows scols dw ds
    = Ok d.
Proof.
  intros Hls Hrc Hcc Hid Hcoadd Hse. unfold composite_data.
  rewrite Hrc, result_bind_ok, Hcc, result_bind_ok, Hid, result_bind_ok.
  destruct (decide (icutout = 0)) as [Hz|Hnz].
  - destruct (Hcoadd Hz) as [-> ->]. rewrite forallb_where_mask. eauto.
  - destruct (Hse Hnz) as (se & cj & -> & ->). rewrite !result_bind_ok.
    destruct (getI cj) as [cjinv|]; [|eauto]. cbv zeta.
    destruct (item_f_inv _ _ _ _ _ _ Hid) as (i0 & j0 & _ & _ & Hit).
    destruct (item_inv _ _ _ _ _ _ Hit) as (r0 & c0 & Hr0 & Hc0 & _).
    apply norm_index_pos in Hr0, Hc0.
    destruct (clipped_item_total srows scols ds rows cols
                (se_to_coadd rowcen colcen rowcen colcen se cjinv)
                Hls Hr0 Hc0) as (segs & -> & _).
    rewrite result_bind_ok. eauto.
Qed.

(** ** The claims about [_make_composite_weight] *)

(** C7.  Whenever [_make_composite_weight] returns, the returned array has
    the shape of the input weight cutout, and each of its pixels is either
    the input weight pixel at that position or exactly zero.  It does
    return when the catalog entries exist, the centre indexes the seg
    cutout and, for the coadd, the seg cutout has the shape of the weight
    cutout. *)
Theorem composite_weight_unchanged_or_zero h self iobj icutout wt seg dw ds :
  has_data h wt dw -> has_data h seg ds ->
  (forall cwt h',
     _make_composite_weight zero ne getI self iobj icutout wt seg h
     = (Ok cwt, h') ->
     nrows cwt = nrows wt /\ ncols cwt = ncols wt /\
     exists dc, has_data h' cwt dc /\ length dc = length dw /\
       forall r c x, (r < nrows wt)%nat -> (c < ncols wt)%nat ->
         dw !! (r * ncols wt + c)%nat = Some x ->
         dc !! (r * ncols wt + c)%nat = Some x \/
         dc !! (r * ncols wt + c)%nat = Some zero) /\
  (forall segid,
     segid_of self iobj icutout seg h = (Ok segid, h) ->
     (icutout = 0 -> nrows seg = nrows wt /\ ncols seg = ncols wt) ->
     (icutout ≠ 0 ->
        exists se cj, get_jacob_as_matrix self iobj icutout = Ok se /\
                      get_jacob_as_matrix self iobj 0 = Ok cj) ->
     exists cwt h',
       _make_composite_weight zero ne getI self iobj icutout wt seg h
       = (Ok cwt, h')).
Proof.
  intros Hw Hs.
  pose proof (has_data_length _ _ _ Hw) as Hlen. unfold nd_size in Hlen.
  pose proof (has_data_length _ _ _ Hs) as Hls. unfold nd_size in Hls.
  pose proof (make_composite_weight_run h self iobj icutout wt seg dw ds
                Hw Hs) as Hm. cbv zeta in Hm.
  split.
  - intros cwt h' Hrun.
    destruct (composite_data _ _ _ _ _ _ _ _ _ _ _ _) as [d|e] eqn:Hd.
    + rewrite Hm in Hrun. injection Hrun as <- <-.
      destruct (composite_data_old_or_zero _ _ _ _ _ _ _ _ _ _ Hlen Hd)
        as [Hld Hpt].
      split; [done|]. split; [done|]. exists d.
      split; [apply has_data_fresh; lia|]. split; [done|].
      intros r c x _ _ Hk. destruct (Hpt (r * ncols wt + c)%nat) as [H|H].
      * left. by rewrite H.
      * by right.
    + destruct Hm as [d' Hm]. by rewrite Hm in Hrun.
  - intros segid Hseg Hcoadd Hse.
    destruct (segid_of_inv _ _ _ _ _ _ _ _ Hs Hseg)
      as (rowcen & colcen & Hrc & Hcc & Hid).
    destruct (composite_data_returns self iobj icutout (nrows wt) (ncols wt)
                (nrows seg) (ncols seg) dw ds rowcen colcen segid
                Hls Hrc Hcc Hid Hcoadd Hse) as [d Hd].
    rewrite Hd in Hm. eauto.
Qed.

(** C5.  Reference frame ([icutout = 0]), weight and seg cutouts of the same
    shape, [segid] the label found at the centre: the method returns a new
    array of the shape of the weight cutout in which a pixel is zero where
    the seg pixel at the same position differs from [segid], and is the
    input weight pixel elsewhere. *)
Theorem composite_weight_reference_frame h self iobj wt seg dw ds segid :
  has_data h wt dw -> has_data h seg ds ->
  nrows seg = nrows wt -> ncols seg = ncols wt ->
  segid_of self iobj 0 seg h = (Ok segid, h) ->
  exists cwt dc,
    _make_composite_weight zero ne getI self iobj 0 wt seg h
    = (Ok cwt, h ++ [dc]) /\
    has_data (h ++ [dc]) cwt dc /\
    nrows cwt = nrows wt /\ ncols cwt = ncols wt /\
    forall r c, (r < nrows wt)%nat -> (c < ncols wt)%nat ->
      exists x sg,
        dw !! (r * ncols wt + c)%nat = Some x /\
        ds !! (r * ncols wt + c)%nat = Some sg /\
        dc !! (r * ncols wt + c)%nat
        = Some (if ne sg segid then zero else x).
Proof.
  intros Hw Hs Hrows Hcols Hseg.
  pose proof (has_data_length _ _ _ Hw) as Hlw. unfold nd_size in Hlw.
  pose proof (has_data_length _ _ _ Hs) as Hls. unfold nd_size in Hls.
  destruct (segid_of_inv _ _ _ _ _ _ _ _ Hs Hseg)
    as (rowcen & colcen & Hrc & Hcc & Hid).
  pose proof (make_composite_weight_run h self iobj 0 wt seg dw ds
                Hw Hs) as Hm. cbv zeta in Hm.
  unfold composite_data in Hm.
  rewrite Hrc, result_bind_ok, Hcc, result_bind_ok, Hid, result_bind_ok in Hm.
  rewrite decide_True in Hm by done. cbv zeta in Hm.
  rewrite Hrows, Hcols, forallb_where_mask in Hm.
  eexists _, _. split; [exact Hm|].
  split; [apply has_data_fresh; by rewrite length_setitem_data|].
  split; [done|]. split; [done|].
  intros r c Hr Hc.
  destruct (lookup_grid dw _ _ r c Hlw Hr Hc) as [x Hx].
  rewrite Hrows, Hcols in Hls.
  destruct (lookup_grid ds _ _ r c Hls Hr Hc) as [sg Hsg].
  exists x, sg. split; [done|]. split; [done|].
  rewrite (setitem_data_lookup _ _ _ _ _ _ x); [|
    intros [r' c'] Hin; by apply elem_of_where_mask in Hin as (_ & ? & _)
    |done|done].
  f_equal. case_decide as Hin.
  - apply elem_of_where_mask in Hin as (_ & _ & Hne).
    unfold ne_at in Hne. rewrite Hsg in Hne. by rewrite Hne.
  - destruct (ne sg segid) eqn:Hne; [|done].
    destruct Hin. apply elem_of_where_mask.
    split; [done|]. split; [done|]. unfold ne_at. by rewrite Hsg.
Qed.

(** C3.  SE frame ([0 < icutout]), catalog entries present and a centre
    that indexes the seg cutout: when the inversion of the coadd Jacobian
    reports a singular matrix, the method returns normally, and the result
    is a new array of the shape of the weight cutout with every pixel
    zero. *)
Theorem composite_weight_singular_jacobian h self iobj icutout wt seg dw ds
    segid se_jacob coadd_jacob :
  has_data h wt dw -> has_data h seg ds ->
  0 < icutout ->
  segid_of self iobj icutout seg h = (Ok segid, h) ->
  get_jacob_as_matrix self iobj icutout = Ok se_jacob ->
  get_jacob_as_matrix self iobj 0 = Ok coadd_jacob ->
  getI coadd_jacob = None ->
  exists cwt dc,
    _make_composite_weight zero ne getI self iobj icutout wt seg h
    = (Ok cwt, h ++ [dc]) /\
    has_data (h ++ [dc]) cwt dc /\
    nrows cwt = nrows wt /\ ncols cwt = ncols wt /\
    length dc = (nrows wt * ncols wt)%nat /\
    forall k, (k < nrows wt * ncols wt)%nat -> dc !! k = Some zero.
Proof.
  intros Hw Hs Hpos Hseg Hse Hcj Hsing.
  destruct (segid_of_inv _ _ _ _ _ _ _ _ Hs Hseg)
    as (rowcen & colcen & Hrc & Hcc & Hid).
  pose proof (make_composite_weight_run h self iobj icutout wt seg dw ds
                Hw Hs) as Hm. cbv zeta in Hm.
  unfold composite_data in Hm.
  rewrite Hrc, result_bind_ok, Hcc, result_bind_ok, Hid, result_bind_ok in Hm.
  rewrite decide_False in Hm by lia.
  rewrite Hse, result_bind_ok, Hcj, result_bind_ok, Hsing in Hm.
  eexists _, _. split; [exact Hm|].
  split; [apply has_data_fresh; by rewrite length_replicate|].
  split; [done|]. split; [done|].
  split; [by rewrite length_replicate|].
  intros k Hk. by apply lookup_replicate_2.
Qed.

(** C6 (as the code has it).  The label [segid] is the element of the coadd
    seg cutout at the centre [(row_c, col_c)] read from the entry of cutout
    [icutout] itself, each coordinate with its fractional part discarded
    (and a negative index counting from the end, as numpy does); reading it
    changes nothing. *)
Theorem segid_at_truncated_centre h h' self iobj icutout seg ds segid :
  has_data h seg ds ->
  segid_of self iobj icutout seg h = (Ok segid, h') ->
  h' = h /\
  exists row_c col_c i j r c,
    cat2 cutout_row (_cat self) iobj icutout = Ok row_c /\
    cat2 cutout_col (_cat self) iobj icutout = Ok col_c /\
    truncation_of row_c i /\ truncation_of col_c j /\
    norm_index (nrows seg) i = Ok r /\ norm_index (ncols seg) j = Ok c /\
    ds !! (r * ncols seg + c)%nat = Some segid.
Proof.
  intros Hs Hrun.
  assert (h' = h) as ->.
  { rewrite (segid_of_ok _ _ _ _ _ _ Hs) in Hrun. by injection Hrun. }
  split; [done|].
  destruct (segid_of_inv _ _ _ _ _ _ _ _ Hs Hrun)
    as (row_c & col_c & Hrc & Hcc & Hid).
  destruct (item_f_inv _ _ _ _ _ _ Hid) as (i & j & Hi & Hj & Hit).
  destruct (item_inv _ _ _ _ _ _ Hit) as (r & c & Hr & Hc & Hd).
  exists row_c, col_c, i, j, r, c.
  repeat split; try done; by apply index_of_float_truncation.
Qed.

(** C2 (as the code has it).  SE frame with an invertible coadd Jacobian:
    the mapped coordinates are converted with [astype('i8')], which discards
    the fractional part, and the bounds test and the seg lookup use these
    integers: pixel [(r, c)] of the result is zero when the first mask holds
    of them or the seg pixel at their clipped position differs from [segid],
    and is the input weight pixel otherwise. *)
Theorem composite_weight_se_frame h self iobj icutout wt seg dw ds segid
    rowcen colcen se_jacob coadd_jacob cjinv :
  has_data h wt dw -> has_data h seg ds ->
  0 < icutout ->
  cat2 cutout_row (_cat self) iobj icutout = Ok rowcen ->
  cat2 cutout_col (_cat self) iobj icutout = Ok colcen ->
  segid_of self iobj icutout seg h = (Ok segid, h) ->
  get_jacob_as_matrix self iobj icutout = Ok se_jacob ->
  get_jacob_as_matrix self iobj 0 = Ok coadd_jacob ->
  getI coadd_jacob = Some cjinv ->
  exists cwt dc,
    _make_composite_weight zero ne getI self iobj icutout wt seg h
    = (Ok cwt, h ++ [dc]) /\
    has_data (h ++ [dc]) cwt dc /\
    nrows cwt = nrows wt /\ ncols cwt = ncols wt /\
    forall r c, (r < nrows wt)%nat -> (c < ncols wt)%nat ->
      let xy := se_to_coadd_float rowcen colcen rowcen colcen
                  se_jacob cjinv r c in
      let crow := astype_i8 xy.1 in
      let ccol := astype_i8 xy.2 in
      let shape0 := Z.of_nat (nrows seg) in
      let shape1 := Z.of_nat (ncols seg) in
      (fits_int64 xy.1 -> truncation_of xy.1 crow) /\
      (fits_int64 xy.2 -> truncation_of xy.2 ccol) /\
      exists x sg,
        dw !! (r * ncols wt + c)%nat = Some x /\
        ds !! (Z.to_nat (clip crow 0 (shape0 - 1)) * ncols seg
               + Z.to_nat (clip ccol 0 (shape1 - 1)))%nat = Some sg /\
        dc !! (r * ncols wt + c)%nat
        = Some (if wbad_mask shape0 shape1 crow ccol || ne sg segid
                then zero else x).
Proof.
  intros Hw Hs Hpos Hrc Hcc Hseg Hse Hcj Hinv.
  pose proof (has_data_length _ _ _ Hw) as Hlw. unfold nd_size in Hlw.
  pose proof (has_data_length _ _ _ Hs) as Hls. unfold nd_size in Hls.
  destruct (segid_of_inv _ _ _ _ _ _ _ _ Hs Hseg)
    as (rowcen' & colcen' & Hrc' & Hcc' & Hid).
  rewrite Hrc in Hrc'. injection Hrc' as <-.
  rewrite Hcc in Hcc'. injection Hcc' as <-.
  destruct (item_f_inv _ _ _ _ _ _ Hid) as (i0 & j0 & _ & _ & Hit).
  destruct (item_inv _ _ _ _ _ _ Hit) as (r0 & c0 & Hr0 & Hc0 & _).
  apply norm_index_pos in Hr0, Hc0.
  pose proof (make_composite_weight_run h self iobj icutout wt seg dw ds
                Hw Hs) as Hm. cbv zeta in Hm.
  unfold composite_data in Hm.
  rewrite Hrc, result_bind_ok, Hcc, result_bind_ok, Hid, result_bind_ok in Hm.
  rewrite decide_False in Hm by lia.
  rewrite Hse, result_bind_ok, Hcj, result_bind_ok, Hinv in Hm.
  cbv zeta in Hm.
  set (cpix := se_to_coadd rowcen colcen rowcen colcen se_jacob cjinv) in *.
  set (clipped := fun rc : nat * nat =>
         (clip (cpix rc.1 rc.2).1 0 (Z.of_nat (nrows seg) - 1),
          clip (cpix rc.1 rc.2).2 0 (Z.of_nat (ncols seg) - 1))) in *.
  assert (forall rc, exists y,
            item (nrows seg) (ncols seg) ds (clipped rc) = Ok y /\
            ds !! (Z.to_nat (clipped rc).1 * ncols seg
                   + Z.to_nat (clipped rc).2)%nat = Some y) as Hitem.
  { intros rc. destruct (clipped rc) as [i j] eqn:Hcl.
    apply item_in_range; [done| |].
    - injection Hcl as <- _. apply clip_in_range. lia.
    - injection Hcl as _ <-. apply clip_in_range. lia. }
  destruct (mapM_result_total (item (nrows seg) (ncols seg) ds)
              (clipped <$> ndindex (nrows wt) (ncols wt))) as [segs Hsegs].
  { intros ij (rc & -> & _)%list_elem_of_fmap.
    destruct (Hitem rc) as (y & Hy & _). eauto. }
  rewrite Hsegs, result_bind_ok in Hm.
  eexists _, _. split; [exact Hm|].
  split; [apply has_data_fresh; by rewrite !length_setitem_data|].
  split; [done|]. split; [done|].
  intros r c Hr Hc xy crow ccol shape0 shape1. subst shape0 shape1.
  split; [apply astype_i8_truncation|].
  split; [apply astype_i8_truncation|].
  destruct (lookup_grid dw _ _ r c Hlw Hr Hc) as [x Hx].
  destruct (Hitem (r, c)) as (sg & Hsg & Hds).
  assert (segs !! (r * ncols wt + c)%nat = Some sg) as Hsegk.
  { destruct (mapM_result_lookup _ _ _ (r * ncols wt + c)%nat
                (clipped (r, c)) Hsegs) as (y & Hy & Hy').
    - by rewrite list_lookup_fmap, lookup_ndindex.
    - rewrite Hsg in Hy'. by injection Hy' as <-. }
  exists x, sg. split; [done|]. split; [exact Hds|].
  assert (forall mask rc, rc ∈ where_mask (nrows wt) (ncols wt) mask ->
            (rc.2 < ncols wt)%nat) as Hin.
  { intros mask [r' c'] Hrc'. by apply elem_of_where_mask in Hrc' as (_ & ? & _). }
  erewrite setitem_data_lookup; [| by apply Hin | done |].
  2:{ apply setitem_data_lookup; [by apply Hin|done|done]. }
  f_equal.
  assert (cpix r c = (crow, ccol)) as Hcp by done.
  destruct (decide ((r, c) ∈ where_mask _ _ (ne_at ne (ncols wt) segs segid)))
    as [H2|H2].
  - apply elem_of_where_mask in H2 as (_ & _ & H2).
    unfold ne_at in H2. rewrite Hsegk in H2. rewrite H2.
    by rewrite orb_true_r.
  - assert (ne sg segid = false) as ->.
    { destruct (ne sg segid) eqn:Hne; [|done]. destruct H2.
      apply elem_of_where_mask. split; [done|]. split; [done|].
      unfold ne_at. by rewrite Hsegk. }
    rewrite orb_false_r. case_decide as H1.
    + apply elem_of_where_mask in H1 as (_ & _ & H1).
      rewrite Hcp in H1. cbn [fst snd] in H1. by rewrite H1.
    + destruct (wbad_mask _ _ crow ccol) eqn:Hb; [|done].
      destruct H1. apply elem_of_where_mask. split; [done|]. split; [done|].
      by rewrite Hcp.
Qed.

(** *** Catalog lookups and index validation *)

Lemma cat1_ok {A} (field : cat_row -> A) cat iobj row :
  0 <= iobj < Z.of_nat (length cat) -> cat !! Z.to_nat iobj = Some row ->
  cat1 field cat iobj = Ok (field row).
Proof.
  intros Hi Hrow. unfold cat1. rewrite (norm_index_in_range _ _ Hi).
  unfold result_bind. by rewrite Hrow.
Qed.

Lemma cat2_ok {A} (field : cat_row -> list A) cat iobj icutout row x :
  0 <= iobj < Z.of_nat (length cat) -> cat !! Z.to_nat iobj = Some row ->
  0 <= icutout -> field row !! Z.to_nat icutout = Some x ->
  cat2 field cat iobj icutout = Ok x.
Proof.
  intros Hi Hrow Hk Hx. unfold cat2. rewrite (norm_index_in_range _ _ Hi).
  unfold result_bind. rewrite Hrow.
  apply lookup_lt_Some in Hx as Hlt.
  rewrite norm_index_in_range by lia. by rewrite Hx.
Qed.

Lemma check_indices_heap h self iobj icutout :
  (_check_indices self iobj icutout h).2 = h.
Proof.
  unfold _check_indices. destruct (iobj >=? cat_size self); [done|].
  rewrite run_lift_bind. destruct (cat1 ncutout _ _) as [n|]; [|done].
  destruct (n =? 0); [done|]. destruct icutout as [ic|]; [|done].
  by destruct (ic >=? n).
Qed.

Lemma check_indices_ok h self iobj icutout row :
  0 <= iobj < cat_size self -> _cat self !! Z.to_nat iobj = Some row ->
  ncutout row ≠ 0 ->
  (forall ic, icutout = Some ic -> ic < ncutout row) ->
  _check_indices self iobj icutout h = (Ok tt, h).
Proof.
  intros Hi Hrow Hn Hic. unfold _check_indices.
  destruct (Z.geb_spec iobj (cat_size self)); [lia|].
  rewrite run_lift_bind, (cat1_ok _ _ _ row) by done.
  destruct (Z.eqb_spec (ncutout row) 0); [done|].
  destruct icutout as [ic|]; [|done].
  specialize (Hic ic eq_refl).
  by destruct (Z.geb_spec ic (ncutout row)); [lia|].
Qed.

(** C4 (as the code has it).  Validation never touches the heap.  It raises
    [ValueError] for every object index at or beyond the number of objects;
    for an object index in range it raises [ValueError] when the object has
    no cutouts and, when a cutout index is given, when that index is at or
    beyond [ncutout]; an object index and a cutout index in range pass. *)
Theorem check_indices_validation h self iobj icutout :
  let run := _check_indices self iobj icutout h in
  run.2 = h /\
  (cat_size self <= iobj -> run.1 = Raise (ValueError BadObjectIndex)) /\
  (forall row,
     0 <= iobj < cat_size self -> _cat self !! Z.to_nat iobj = Some row ->
     (ncutout row = 0 -> run.1 = Raise (ValueError NoCutouts)) /\
     (ncutout row ≠ 0 ->
        (forall ic, icutout = Some ic -> ncutout row <= ic ->
            run.1 = Raise (ValueError BadCutoutIndex)) /\
        (forall ic, icutout = Some ic -> 0 <= ic < ncutout row ->
            run.1 = Ok tt) /\
        (icutout = None -> run.1 = Ok tt))).
Proof.
  intros run. subst run. split; [apply check_indices_heap|]. split.
  - intros Hge. unfold _check_indices.
    by destruct (Z.geb_spec iobj (cat_size self)); [|lia].
  - intros row Hi Hrow. split.
    + intros Hz. unfold _check_indices.
      destruct (Z.geb_spec iobj (cat_size self)); [lia|].
      rewrite run_lift_bind, (cat1_ok _ _ _ row) by done.
      by rewrite Hz.
    + intros Hnz. split; [|split].
      * intros ic -> Hge. unfold _check_indices.
        destruct (Z.geb_spec iobj (cat_size self)); [lia|].
        rewrite run_lift_bind, (cat1_ok _ _ _ row) by done.
        destruct (Z.eqb_spec (ncutout row) 0); [done|].
        by destruct (Z.geb_spec ic (ncutout row)); [|lia].
      * intros ic -> Hic.
        rewrite (check_indices_ok _ _ _ _ row); [done|done|done|done|].
        intros ? [= <-]. lia.
      * intros ->.
        rewrite (check_indices_ok _ _ _ _ row); [done|done|done|done|].
        by intros ? [=].
Qed.

(** *** Reading cutouts and mosaics *)

Lemma reshape_ok b n (n0 n1 : Z) :
  0 <= n0 -> 0 <= n1 -> Z.of_nat n = n0 * n1 ->
  reshape b n n0 n1 = Ok (NdArray b 0 (Z.to_nat n0) (Z.to_nat n1)).
Proof.
  intros H0 H1 Hn. unfold reshape.
  destruct (Z.ltb_spec n0 0); [lia|]. destruct (Z.ltb_spec n1 0); [lia|].
  simpl. by destruct (Z.eqb_spec (n0 * n1) (Z.of_nat n)); [|lia].
Qed.

Lemma fits_read_ok h (self : MEDS pixel) extname ext start stop :
  fits_ext self extname = Ok ext ->
  0 <= start -> start <= stop -> stop <= Z.of_nat (length ext) ->
  fits_read self extname start stop h
  = (Ok (length h, Z.to_nat (stop - start)),
     h ++ [take (Z.to_nat (stop - start)) (drop (Z.to_nat start) ext)]).
Proof.
  intros Hext H0 H1 H2. unfold fits_read.
  rewrite run_lift_bind, Hext.
  destruct (Z.leb_spec 0 start); [|lia].
  destruct (Z.leb_spec start stop); [|lia].
  destruct (Z.leb_spec stop (Z.of_nat (length ext))); [|lia].
  cbn [andb]. rewrite run_bind. unfold alloc. rewrite run_ret.
  do 3 f_equal. rewrite length_take, length_drop. lia.
Qed.

Lemma wrap_i4_id z : - 2 ^ 31 <= z < 2 ^ 31 -> wrap_i4 z = z.
Proof. intros Hz. unfold wrap_i4. rewrite Z.mod_small; lia. Qed.

(** Under the catalog invariant none of the [i4] computations wraps. *)
Lemma object_stored_no_wrap self iobj type row start ext :
  object_stored self iobj type row start ext ->
  0 <= box_size row * box_size row /\
  0 <= box_size row * box_size row * ncutout row /\
  0 <= ncutout row * box_size row /\
  wrap_i4 (box_size row * box_size row) = box_size row * box_size row /\
  wrap_i4 (box_size row * box_size row * ncutout row)
  = box_size row * box_size row * ncutout row /\
  wrap_i4 (start + box_size row * box_size row * ncutout row)
  = start + box_size row * box_size row * ncutout row /\
  wrap_i4 (ncutout row * box_size row) = ncutout row * box_size row.
Proof.
  intros (_ & _ & Hn & Hb & _ & Hs0 & _ & Hlen & Hi4).
  assert (0 <= box_size row * box_size row) as Hbb
    by (apply Z.mul_nonneg_nonneg; lia).
  assert (0 <= box_size row * box_size row * ncutout row) as Hbbn
    by (apply Z.mul_nonneg_nonneg; lia).
  assert (0 <= ncutout row * box_size row) as Hnb
    by (apply Z.mul_nonneg_nonneg; lia).
  assert (box_size row * box_size row
          <= box_size row * box_size row * ncutout row) as Hle1
    by (rewrite <- (Z.mul_1_r (box_size row * box_size row)) at 1;
        apply Z.mul_le_mono_nonneg_l; lia).
  assert (ncutout row * box_size row
          <= box_size row * box_size row * ncutout row) as Hle2.
  { destruct (Z.eq_dec (box_size row) 0) as [->|Hnz]; [lia|].
    replace (box_size row * box_size row * ncutout row)
      with (box_size row * (ncutout row * box_size row)) by lia.
    rewrite <- (Z.mul_1_l (ncutout row * box_size row)) at 1.
    apply Z.mul_le_mono_nonneg_r; lia. }
  split; [done|]. split; [done|]. split; [done|].
  rewrite !wrap_i4_id by lia. done.
Qed.

Lemma object_stored_first self iobj type row start ext :
  object_stored self iobj type row start ext ->
  box_size row * box_size row
  <= box_size row * box_size row * ncutout row /\
  wrap_i4 (start + box_size row * box_size row)
  = start + box_size row * box_size row.
Proof.
  intros Hobj. destruct (object_stored_no_wrap _ _ _ _ _ _ Hobj)
    as (Hbb & _).
  destruct Hobj as (_ & _ & Hn & Hb & _ & Hs0 & _ & Hlen & Hi4).
  assert (box_size row * box_size row
          <= box_size row * box_size row * ncutout row) as Hle1
    by (rewrite <- (Z.mul_1_r (box_size row * box_size row)) at 1;
        apply Z.mul_le_mono_nonneg_l; lia).
  split; [done|]. apply wrap_i4_id. lia.
Qed.

Lemma get_mosaic_ok h self iobj type row start ext :
  object_stored self iobj type row start ext ->
  get_mosaic self iobj type h
  = (Ok (NdArray (length h) 0
           (Z.to_nat (ncutout row * box_size row)) (Z.to_nat (box_size row))),
     h ++ [take (Z.to_nat (box_size row * box_size row * ncutout row))
             (drop (Z.to_nat start) ext)]).
Proof.
  intros Hobj. destruct (object_stored_no_wrap _ _ _ _ _ _ Hobj)
    as (Hbb & Hbbn & Hnb & Hw1 & Hw2 & Hw3 & Hw4).
  destruct Hobj
    as (Hi & Hrow & Hn & Hb & Hst & Hs0 & (extname & Hname & Hext) & Hlen & _).
  unfold get_mosaic. rewrite run_bind.
  rewrite (check_indices_ok _ _ _ _ row) by (try done; lia).
  run_lift (cat1_ok ncutout _ _ row Hi Hrow).
  run_lift (cat1_ok box_size _ _ row Hi Hrow).
  run_lift (cat2_ok start_row _ _ 0 row start Hi Hrow (Z.le_refl 0) Hst).
  run_lift Hname. unfold i4_add, i4_mul. rewrite Hw1, Hw2, Hw3, Hw4.
  rewrite run_bind, (fits_read_ok _ _ _ ext _ _ Hext) by lia.
  cbn [fst snd]. rewrite run_lift_bind.
  rewrite reshape_ok by lia. rewrite run_ret. by rewrite Z.add_simpl_l.
Qed.

Lemma get_cutout_0_ok h self iobj type row start ext :
  object_stored self iobj type row start ext ->
  get_cutout self iobj 0 type h
  = (Ok (NdArray (length h) 0
           (Z.to_nat (box_size row)) (Z.to_nat (box_size row))),
     h ++ [take (Z.to_nat (box_size row * box_size row))
             (drop (Z.to_nat start) ext)]).
Proof.
  intros Hobj. destruct (object_stored_no_wrap _ _ _ _ _ _ Hobj)
    as (Hbb & Hbbn & Hnb & Hw1 & _ & _ & _).
  destruct (object_stored_first _ _ _ _ _ _ Hobj) as (Hbb1 & Hw5).
  destruct Hobj
    as (Hi & Hrow & Hn & Hb & Hst & Hs0 & (extname & Hname & Hext) & Hlen & _).
  unfold get_cutout. rewrite run_bind.
  rewrite (check_indices_ok _ _ _ _ row)
    by (try done; try lia; intros ? [= <-]; lia).
  run_lift (cat1_ok box_size _ _ row Hi Hrow).
  run_lift (cat2_ok start_row _ _ 0 row start Hi Hrow (Z.le_refl 0) Hst).
  run_lift Hname. unfold i4_add, i4_mul. rewrite Hw1, Hw5.
  rewrite run_bind, (fits_read_ok _ _ _ ext _ _ Hext) by lia.
  cbn [fst snd]. rewrite run_lift_bind.
  rewrite reshape_ok by lia. rewrite run_ret. by rewrite Z.add_simpl_l.
Qed.

Lemma get_cutout_list_ok h self iobj type row start ext :
  object_stored self iobj type row start ext ->
  get_cutout_list self iobj type h
  = (Ok (_split_mosaic
           (NdArray (length h) 0
              (Z.to_nat (ncutout row * box_size row))
              (Z.to_nat (box_size row)))
           (box_size row) (ncutout row)),
     h ++ [take (Z.to_nat (box_size row * box_size row * ncutout row))
             (drop (Z.to_nat start) ext)]).
Proof.
  intros Hobj. unfold get_cutout_list.
  rewrite run_bind, (get_mosaic_ok _ _ _ _ _ _ _ Hobj).
  destruct Hobj as (Hi & Hrow & _).
  run_lift (cat1_ok ncutout _ _ row Hi Hrow).
  run_lift (cat1_ok box_size _ _ row Hi Hrow).
  done.
Qed.

(** *** Bands of a mosaic *)

Lemma lookup_splice (b : list pixel) off d k :
  (off + length d <= length b)%nat ->
  splice b off d !! k
  = if decide (k < off)%nat then b !! k
    else if decide (k < off + length d)%nat then d !! (k - off)%nat
    else b !! k.
Proof.
  intros Hlen. unfold splice.
  case_decide as H1.
  - rewrite lookup_app_l by (rewrite length_take; lia).
    by rewrite lookup_take_lt.
  - rewrite lookup_app_r by (rewrite length_take; lia).
    rewrite length_take, Nat.min_l by lia.
    case_decide as H2.
    + by rewrite lookup_app_l by lia.
    + rewrite lookup_app_r, lookup_drop by lia. f_equal. lia.
Qed.

Lemma length_splice (b : list pixel) off d :
  (off + length d <= length b)%nat -> length (splice b off d) = length b.
Proof.
  intros Hlen. unfold splice.
  rewrite !length_app, length_take, length_drop. lia.
Qed.

Lemma band_bound (i n q : nat) : (i < n)%nat -> (i * q + q <= n * q)%nat.
Proof.
  intros Hi. assert ((i + 1) * q <= n * q)%nat
    by (apply Nat.mul_le_mono_r; lia). lia.
Qed.

(** The elements of a view are the cells of its buffer from [offset] on. *)
Lemma has_data_lookup h a d k :
  has_data h a d -> (k < nd_size a)%nat ->
  exists b, h !! base a = Some b /\ d !! k = b !! (offset a + k)%nat.
Proof.
  intros (b & Hb & Hlen & ->) Hk. exists b. split; [done|].
  by rewrite lookup_take_lt, lookup_drop.
Qed.

Lemma has_data_band h b off n nb d i :
  has_data h (NdArray b off (n * nb) nb) d -> (i < n)%nat ->
  has_data h (NdArray b (off + i * nb * nb) nb nb)
             (take (nb * nb) (drop (i * nb * nb) d)).
Proof.
  intros (bb & Hb & Hlen & ->) Hi. unfold nd_size in *.
  cbn [base offset nrows ncols] in *.
  pose proof (band_bound i n (nb * nb) Hi) as Hband.
  exists bb. cbn [base offset nrows ncols]. unfold nd_size.
  cbn [nrows ncols].
  split; [done|]. split; [lia|].
  apply list_eq. intros k. rewrite !lookup_take.
  case_decide; [|done].
  rewrite !lookup_drop, lookup_take_lt by lia. rewrite lookup_drop.
  f_equal. lia.
Qed.

Lemma getitem_in_range h a d r c :
  has_data h a d -> (r < nrows a)%nat -> (c < ncols a)%nat ->
  exists x, d !! (r * ncols a + c)%nat = Some x /\
            getitem a (Z.of_nat r) (Z.of_nat c) h = (Ok x, h).
Proof.
  intros Hd Hr Hc. rewrite (getitem_ok _ _ _ _ _ Hd).
  destruct (item_in_range (nrows a) (ncols a) d (Z.of_nat r) (Z.of_nat c))
    as (x & Hx & Hlk); [apply (has_data_length _ _ _ Hd)|lia|lia|].
  rewrite !Nat2Z.id in Hlk. exists x. by rewrite Hx.
Qed.

Lemma slice_rows_band b off (n nb i : nat) :
  (i < n)%nat ->
  slice_rows (NdArray b off (n * nb) nb)
    (Z.of_nat i * Z.of_nat nb) ((Z.of_nat i + 1) * Z.of_nat nb)
  = NdArray b (off + i * nb * nb) nb nb.
Proof.
  intros Hi. unfold slice_rows, slice_bound. cbn [base offset nrows ncols].
  pose proof (band_bound i n nb Hi) as Hband.
  replace (Z.of_nat i * Z.of_nat nb) with (Z.of_nat (i * nb)) by lia.
  replace ((Z.of_nat i + 1) * Z.of_nat nb) with (Z.of_nat (i * nb + nb))
    by lia.
  destruct (Z.ltb_spec (Z.of_nat (i * nb)) 0); [lia|].
  destruct (Z.ltb_spec (Z.of_nat (i * nb + nb)) 0); [lia|].
  rewrite !Z.min_l, !Nat2Z.id by lia. f_equal; lia.
Qed.

Lemma split_mosaic_lookup mosaic box n i (wt : ndarray) :
  _split_mosaic mosaic box n !! i = Some wt <->
  (i < Z.to_nat n)%nat /\
  wt = slice_rows mosaic (Z.of_nat i * box) ((Z.of_nat i + 1) * box).
Proof.
  unfold _split_mosaic, xrange. rewrite !list_lookup_fmap.
  destruct (decide (i < Z.to_nat n)%nat) as [Hi|Hi].
  - rewrite lookup_seq_lt by done. simpl. split.
    + by intros [= <-].
    + by intros [_ ->].
  - rewrite lookup_seq_ge by lia. simpl. split; [done|]. by intros [? _].
Qed.

Lemma object_stored_sizes self iobj type row start ext :
  object_stored self iobj type row start ext ->
  let nb := Z.to_nat (box_size row) in
  let n := Z.to_nat (ncutout row) in
  box_size row = Z.of_nat nb /\ ncutout row = Z.of_nat n /\ (0 < n)%nat /\
  Z.to_nat (ncutout row * box_size row) = (n * nb)%nat /\
  Z.to_nat (box_size row * box_size row) = (nb * nb)%nat /\
  Z.to_nat (box_size row * box_size row * ncutout row) = (n * (nb * nb))%nat /\
  (Z.to_nat start + n * (nb * nb) <= length ext)%nat.
Proof.
  intros (_ & _ & Hn & Hb & _ & Hs0 & _ & Hlen & _) nb n. subst nb n.
  assert (0 <= box_size row * box_size row)
    by (apply Z.mul_nonneg_nonneg; lia).
  rewrite !Z2Nat.inj_mul by lia.
  repeat split; lia.
Qed.

(** C8.  For an object stored as the catalog says and a valid [type]:
    [get_cutout(iobj, 0, type)] is a [box_size] x [box_size] array whose
    pixels are those of the first [box_size] rows of [get_mosaic(iobj,
    type)], and element [i] of [get_cutout_list(iobj, type)] is a
    [box_size] x [box_size] array whose pixel [(r, c)] is pixel
    [(i*box_size + r, c)] of the mosaic. *)
Theorem cutout_and_list_agree_with_mosaic h self iobj type row start ext :
  object_stored self iobj type row start ext ->
  let nb := Z.to_nat (box_size row) in
  exists mosaic hm im hc l,
    get_mosaic self iobj type h = (Ok mosaic, hm) /\
    get_cutout self iobj 0 type h = (Ok im, hc) /\
    get_cutout_list self iobj type h = (Ok l, hm) /\
    nrows mosaic = (Z.to_nat (ncutout row) * nb)%nat /\ ncols mosaic = nb /\
    nrows im = nb /\ ncols im = nb /\
    (forall r c, (r < nb)%nat -> (c < nb)%nat ->
       exists x, getitem im (Z.of_nat r) (Z.of_nat c) hc = (Ok x, hc) /\
                 getitem mosaic (Z.of_nat r) (Z.of_nat c) hm = (Ok x, hm)) /\
    length l = Z.to_nat (ncutout row) /\
    (forall i wt, l !! i = Some wt ->
       nrows wt = nb /\ ncols wt = nb /\
       forall r c, (r < nb)%nat -> (c < nb)%nat ->
         exists x,
           getitem wt (Z.of_nat r) (Z.of_nat c) hm = (Ok x, hm) /\
           getitem mosaic (Z.of_nat (i * nb + r)) (Z.of_nat c) hm
           = (Ok x, hm)).
Proof.
  intros Hobj nb.
  pose proof (get_mosaic_ok h _ _ _ _ _ _ Hobj) as Hmos.
  pose proof (get_cutout_0_ok h _ _ _ _ _ _ Hobj) as Hcut.
  pose proof (get_cutout_list_ok h _ _ _ _ _ _ Hobj) as Hlist.
  destruct (object_stored_sizes _ _ _ _ _ _ Hobj)
    as (Hbox & Hnc & Hpos & Hnb & Hbb & Hbbn & Hext).
  fold nb in Hbox, Hnb, Hbb, Hbbn, Hext, Hmos, Hcut, Hlist.
  set (n := Z.to_nat (ncutout row)) in *.
  rewrite Hnb, Hbbn in Hmos, Hlist. rewrite Hbb in Hcut.
  set (dm := take (n * (nb * nb)) (drop (Z.to_nat start) ext)) in *.
  set (d0 := take (nb * nb) (drop (Z.to_nat start) ext)) in *.
  set (mosaic := NdArray (length h) 0 (n * nb) nb) in *.
  set (im := NdArray (length h) 0 nb nb) in *.
  assert (length dm = (n * nb * nb)%nat) as Hldm
    by (unfold dm; rewrite length_take, length_drop; lia).
  assert (length d0 = (nb * nb)%nat) as Hld0.
  { unfold d0. rewrite length_take, length_drop.
    pose proof (band_bound 0 n (nb * nb) Hpos). lia. }
  assert (has_data (h ++ [dm]) mosaic dm) as Hdm
    by (by apply has_data_fresh).
  assert (has_data (h ++ [d0]) im d0) as Hd0 by (by apply has_data_fresh).
  eexists mosaic, _, im, _, _.
  split; [exact Hmos|]. split; [exact Hcut|]. split; [exact Hlist|].
  split; [done|]. split; [done|]. split; [done|]. split; [done|].
  split; [|split].
  - intros r c Hr Hc.
    pose proof (band_bound r nb nb Hr) as Hrb.
    pose proof (band_bound 0 n (nb * nb) Hpos) as H0b.
    destruct (getitem_in_range _ _ _ r c Hd0 Hr Hc) as (x & Hx & Hgx).
    destruct (getitem_in_range _ _ _ r c Hdm) as (y & Hy & Hgy);
      [cbn [mosaic nrows]; pose proof (band_bound 0 n nb Hpos); lia|done|].
    cbn [im mosaic ncols] in Hx, Hy.
    unfold d0 in Hx. unfold dm in Hy.
    rewrite lookup_take_lt in Hx by lia. rewrite lookup_take_lt in Hy by lia.
    rewrite Hx in Hy. injection Hy as <-. eauto.
  - unfold _split_mosaic, xrange. by rewrite !length_fmap, length_seq.
  - intros i wt Hwt. apply split_mosaic_lookup in Hwt as [Hi ->].
    fold n in Hi. rewrite Hbox. unfold mosaic at 1 2 3.
    rewrite slice_rows_band by done. cbn [nrows ncols].
    split; [done|]. split; [done|].
    intros r c Hr Hc.
    pose proof (has_data_band _ _ _ _ _ _ i Hdm Hi) as Hband.
    pose proof (band_bound r nb nb Hr) as Hrb.
    pose proof (band_bound i n (nb * nb) Hi) as Hib.
    pose proof (band_bound i n nb Hi) as Hib'.
    destruct (getitem_in_range _ _ _ r c Hband Hr Hc) as (x & Hx & Hgx).
    destruct (getitem_in_range _ _ _ (i * nb + r) c Hdm) as (y & Hy & Hgy);
      [cbn [mosaic nrows]; lia|done|].
    cbn [mosaic ncols] in Hx, Hy.
    rewrite lookup_take_lt, lookup_drop in Hx by lia.
    replace (i * nb * nb + (r * nb + c))%nat
      with ((i * nb + r) * nb + c)%nat in Hx by lia.
    rewrite Hx in Hy. injection Hy as <-. eauto.
Qed.

(** *** Writing through one view, reading through another *)

Lemma splice_insert (b : list pixel) off n k v :
  (off + n <= length b)%nat -> (k < n)%nat ->
  splice b off (<[k:=v]> (take n (drop off b))) = <[(off + k)%nat:=v]> b.
Proof.
  intros Hlen Hk.
  assert (length (<[k:=v]> (take n (drop off b))) = n) as Hl
    by (rewrite length_insert, length_take, length_drop; lia).
  apply list_eq. intros j. rewrite lookup_splice by lia. rewrite Hl.
  destruct (decide (j = off + k)%nat) as [->|Hne].
  - rewrite decide_False, decide_True by lia.
    replace (off + k - off)%nat with k by lia.
    rewrite !list_lookup_insert_eq; [done|lia|].
    rewrite length_take, length_drop. lia.
  - rewrite (list_lookup_insert_ne b) by done.
    case_decide; [done|]. case_decide; [|done].
    rewrite list_lookup_insert_ne by lia.
    rewrite lookup_take_lt, lookup_drop by lia. f_equal. lia.
Qed.

Lemma setitem_one h a d r c v :
  has_data h a d -> (r < nrows a)%nat -> (c < ncols a)%nat ->
  exists b, h !! base a = Some b /\
    (flat_index a r c < length b)%nat /\
    setitem a [(r, c)] v h
    = (Ok tt, <[base a := <[flat_index a r c := v]> b]> h).
Proof.
  intros Hd Hr Hc.
  pose proof (band_bound r (nrows a) (ncols a) Hr) as Hrb.
  destruct (store_ok h a d (setitem_data (ncols a) [(r, c)] v d) Hd)
    as (b & Hb & Hst); [by rewrite length_setitem_data, (has_data_length h a)|].
  destruct Hd as (b' & Hb' & Hlen & Hdd). unfold nd_size in Hlen.
  rewrite Hb in Hb'. injection Hb' as <-.
  exists b. split; [done|]. split; [unfold flat_index; lia|].
  unfold setitem. cbn [forallb fst snd].
  destruct (Nat.ltb_spec r (nrows a)); [|lia].
  destruct (Nat.ltb_spec c (ncols a)); [|lia]. cbn [andb].
  rewrite run_bind, (load_ok _ _ d) by (by exists b).
  rewrite Hst. do 2 f_equal.
  unfold setitem_data. cbn [foldl fst snd]. rewrite Hdd.
  unfold flat_index, nd_size. apply splice_insert; lia.
Qed.

Lemma has_data_insert h a d bid b b' :
  has_data h a d -> h !! bid = Some b -> length b' = length b ->
  exists d', has_data (<[bid := b']> h) a d'.
Proof.
  intros (ba & Hba & Hlen & _) Hb Hl.
  apply lookup_lt_Some in Hb as Hlt.
  destruct (decide (base a = bid)) as [<-|Hne].
  - eexists. exists b'. rewrite list_lookup_insert_eq by done.
    split; [done|]. split; [|done]. rewrite Hba in Hb. injection Hb as <-. lia.
  - eexists. exists ba. rewrite list_lookup_insert_ne by done. done.
Qed.

(** Two views alias where they have the same buffer and the same cell. *)
Lemma write_read_alias h a a' d d' r c r' c' v :
  has_data h a d -> has_data h a' d' ->
  base a = base a' -> flat_index a r c = flat_index a' r' c' ->
  (r < nrows a)%nat -> (c < ncols a)%nat ->
  (r' < nrows a')%nat -> (c' < ncols a')%nat ->
  exists h2, setitem a [(r, c)] v h = (Ok tt, h2) /\
             getitem a' (Z.of_nat r') (Z.of_nat c') h2 = (Ok v, h2).
Proof.
  intros Hd Hd' Hbase Hflat Hr Hc Hr' Hc'.
  destruct (setitem_one h a d r c v Hd Hr Hc) as (b & Hb & Hfl & Hset).
  eexists. split; [exact Hset|].
  destruct (has_data_insert h a' d' (base a) b (<[flat_index a r c:=v]> b)
              Hd' Hb) as [d2 Hd2]; [by rewrite length_insert|].
  destruct (getitem_in_range _ _ _ r' c' Hd2 Hr' Hc') as (x & Hx & Hget).
  rewrite Hget. do 2 f_equal.
  pose proof (band_bound r' (nrows a') (ncols a') Hr') as Hrb.
  destruct (has_data_lookup _ _ _ (r' * ncols a' + c')%nat Hd2)
    as (b2 & Hb2 & Hlk); [unfold nd_size; lia|].
  rewrite <- Hbase in Hb2.
  rewrite list_lookup_insert_eq in Hb2 by (by eapply lookup_lt_Some).
  injection Hb2 as <-. rewrite Hx in Hlk.
  fold (flat_index a' r' c') in Hlk. rewrite <- Hflat in Hlk.
  rewrite list_lookup_insert_eq in Hlk by done. by injection Hlk.
Qed.

(** *** The loop of [get_cweight_mosaic] *)

Lemma band_splice_same (b : list pixel) off d :
  (off + length d <= length b)%nat ->
  take (length d) (drop off (splice b off d)) = d.
Proof.
  intros Hlen. apply list_eq. intros k. rewrite lookup_take, lookup_drop.
  case_decide as Hk.
  - rewrite lookup_splice by done.
    rewrite decide_False, decide_True by lia. f_equal. lia.
  - symmetry. apply lookup_ge_None_2. lia.
Qed.

Lemma band_splice_other (b : list pixel) off d o2 m :
  (off + length d <= length b)%nat ->
  (o2 + m <= off \/ off + length d <= o2)%nat ->
  take m (drop o2 (splice b off d)) = take m (drop o2 b).
Proof.
  intros Hlen Hdis. apply list_eq. intros k. rewrite !lookup_take.
  case_decide as Hk; [|done]. rewrite !lookup_drop, lookup_splice by done.
  destruct Hdis.
  - by rewrite decide_True by lia.
  - by rewrite !decide_False by lia.
Qed.

Lemma assign_ok h dst src dd dsrc :
  has_data h dst dd -> has_data h src dsrc ->
  nrows dst = nrows src -> ncols dst = ncols src ->
  exists b, h !! base dst = Some b /\
    assign dst src h = (Ok tt, <[base dst := splice b (offset dst) dsrc]> h).
Proof.
  intros Hdst Hsrc Hr Hc.
  destruct (store_ok h dst dd dsrc Hdst) as (b & Hb & Hst).
  { rewrite (has_data_length _ _ _ Hsrc). unfold nd_size. by rewrite Hr, Hc. }
  exists b. split; [done|]. unfold assign.
  rewrite decide_True by done. by rewrite run_bind, (load_ok _ _ _ Hsrc).
Qed.

Lemma split_mosaic_bands b (n nb : nat) :
  _split_mosaic (NdArray b 0 (n * nb) nb) (Z.of_nat nb) (Z.of_nat n)
  = (fun j => NdArray b (j * nb * nb) nb nb) <$> seq 0 n.
Proof.
  apply list_eq. intros i. rewrite list_lookup_fmap.
  destruct (decide (i < n)%nat) as [Hi|Hi].
  - rewrite lookup_seq_lt by done. simpl.
    apply split_mosaic_lookup. split; [lia|].
    by rewrite slice_rows_band.
  - rewrite lookup_seq_ge by lia. simpl.
    destruct (_split_mosaic _ _ _ !! i) as [wt|] eqn:Hwt; [|done].
    apply split_mosaic_lookup in Hwt as [? _]. lia.
Qed.

Lemma cweight_loop self iobj seg ds (b0 nb n : nat) :
  base seg ≠ b0 ->
  forall k i (H H' : heap pixel) Dm,
    (i + k = n)%nat ->
    H !! b0 = Some Dm -> length Dm = (n * (nb * nb))%nat ->
    has_data H seg ds ->
    for_enumerate (Z.of_nat i)
      ((fun j => NdArray b0 (j * nb * nb) nb nb) <$> seq i k)
      (fun icutout wt =>
         cwt ← _make_composite_weight zero ne getI self iobj icutout wt seg;
         assign wt cwt) H = (Ok tt, H') ->
    exists Dm',
      H' !! b0 = Some Dm' /\ length Dm' = length Dm /\ has_data H' seg ds /\
      (forall j, (j < i)%nat ->
         take (nb * nb) (drop (j * nb * nb) Dm')
         = take (nb * nb) (drop (j * nb * nb) Dm)) /\
      (forall j, (i <= j < n)%nat ->
         composite_data zero ne getI self iobj (Z.of_nat j) nb nb
           (nrows seg) (ncols seg)
           (take (nb * nb) (drop (j * nb * nb) Dm)) ds
         = Ok (take (nb * nb) (drop (j * nb * nb) Dm'))).
Proof.
  intros Hseg. induction k as [|k IH]; intros i H H' Dm Hik HDm Hlen Hs Hrun.
  - simpl in Hrun. injection Hrun as <-. exists Dm.
    repeat split; try done. intros j Hj. lia.
  - cbn [seq fmap list_fmap for_enumerate] in Hrun.
    rewrite run_bind in Hrun.
    assert (i < n)%nat as Hi by lia.
    pose proof (band_bound i n (nb * nb) Hi) as Hib.
    set (wt := NdArray b0 (i * nb * nb) nb nb) in *.
    set (dw := take (nb * nb) (drop (i * nb * nb) Dm)).
    assert (has_data H wt dw) as Hw.
    { exists Dm. unfold nd_size. cbn [wt base offset nrows ncols].
      split; [done|]. split; [lia|done]. }
    assert (length dw = (nb * nb)%nat) as Hldw
      by (unfold dw; rewrite length_take, length_drop; lia).
    rewrite run_bind in Hrun.
    pose proof (make_composite_weight_run H self iobj (Z.of_nat i) wt seg
                  dw ds Hw Hs) as Hm. cbv zeta in Hm.
    cbn [wt nrows ncols] in Hm.
    destruct (composite_data zero ne getI self iobj (Z.of_nat i) nb nb
                (nrows seg) (ncols seg) dw ds) as [di|e] eqn:Hcd.
    2:{ destruct Hm as [d' Hm]. by rewrite Hm in Hrun. }
    rewrite Hm in Hrun.
    destruct (composite_data_old_or_zero _ _ _ _ _ _ _ _ _ _ Hldw Hcd)
      as [Hldi _].
    destruct (assign_ok (H ++ [di]) wt (NdArray (length H) 0 nb nb) dw di)
      as (b & Hb & Hassign); [by apply has_data_app| |done|done|].
    { apply has_data_fresh. lia. }
    rewrite Hassign in Hrun. clear Hassign.
    cbn [wt base offset] in Hb, Hrun.
    rewrite (lookup_app_l_Some _ _ _ _ HDm) in Hb. injection Hb as <-.
    replace (Z.of_nat i + 1) with (Z.of_nat (S i)) in Hrun by lia.
    apply lookup_lt_Some in HDm as Hb0.
    assert (i * nb * nb + length di <= length Dm)%nat as Hfit by lia.
    destruct (IH (S i) (<[b0 := splice Dm (i * nb * nb) di]> (H ++ [di])) H'
                (splice Dm (i * nb * nb) di)) as
      (Dm' & HDm' & Hlen' & Hs' & Hlt & Hge); [lia| | | |exact Hrun|].
    + apply list_lookup_insert_eq. rewrite length_app. lia.
    + rewrite length_splice by done. done.
    + destruct Hs as (bs & Hbs & Hls & Hds). exists bs.
      rewrite list_lookup_insert_ne by done.
      split; [by apply lookup_app_l_Some|done].
    + exists Dm'. split; [done|].
      split; [by rewrite Hlen', length_splice|]. split; [done|]. split.
      * intros j Hj. rewrite Hlt by lia.
        pose proof (band_bound j i (nb * nb) Hj).
        apply band_splice_other; [done|]. left. lia.
      * intros j [Hj1 Hj2].
        destruct (decide (j = i)) as [->|Hne].
        -- fold dw. rewrite Hcd. f_equal. rewrite Hlt by lia.
           rewrite <- (band_splice_same Dm (i * nb * nb) di Hfit) at 1.
           by rewrite Hldi, Hldw.
        -- rewrite <- (Hge j) by lia. f_equal.
           assert (i < j)%nat as Hij by lia.
           pose proof (band_bound i j (nb * nb) Hij).
           symmetry. apply band_splice_other; [done|]. right. lia.
Qed.

Lemma get_jacob_as_matrix_ok self iobj icutout row (a b c e : float) :
  0 <= iobj < cat_size self -> _cat self !! Z.to_nat iobj = Some row ->
  0 <= icutout ->
  dudrow row !! Z.to_nat icutout = Some a ->
  dudcol row !! Z.to_nat icutout = Some b ->
  dvdrow row !! Z.to_nat icutout = Some c ->
  dvdcol row !! Z.to_nat icutout = Some e ->
  get_jacob_as_matrix self iobj icutout = Ok (Matrix a b c e).
Proof.
  intros Hi Hrow Hic Ha Hb Hc He. unfold get_jacob_as_matrix.
  rewrite (cat2_ok dudrow _ _ _ _ _ Hi Hrow Hic Ha), result_bind_ok.
  rewrite (cat2_ok dudcol _ _ _ _ _ Hi Hrow Hic Hb), result_bind_ok.
  rewrite (cat2_ok dvdrow _ _ _ _ _ Hi Hrow Hic Hc), result_bind_ok.
  by rewrite (cat2_ok dvdcol _ _ _ _ _ Hi Hrow Hic He), result_bind_ok.
Qed.

Lemma cweight_loop_returns self iobj seg ds (b0 nb n : nat) :
  base seg ≠ b0 ->
  (forall j (dw : list pixel), (j < n)%nat ->
     exists dc,
       composite_data zero ne getI self iobj (Z.of_nat j) nb nb
         (nrows seg) (ncols seg) dw ds = Ok dc) ->
  forall k i (H : heap pixel) Dm,
    (i + k = n)%nat ->
    H !! b0 = Some Dm -> length Dm = (n * (nb * nb))%nat ->
    has_data H seg ds ->
    exists H',
      for_enumerate (Z.of_nat i)
        ((fun j => NdArray b0 (j * nb * nb) nb nb) <$> seq i k)
        (fun icutout wt =>
           cwt ← _make_composite_weight zero ne getI self iobj icutout wt seg;
           assign wt cwt) H = (Ok tt, H').
Proof.
  intros Hseg Hret. induction k as [|k IH]; intros i H Dm Hik HDm Hlen Hs.
  - by exists H.
  - cbn [seq fmap list_fmap for_enumerate]. rewrite run_bind.
    assert (i < n)%nat as Hi by lia.
    pose proof (band_bound i n (nb * nb) Hi) as Hib.
    set (wt := NdArray b0 (i * nb * nb) nb nb) in *.
    set (dw := take (nb * nb) (drop (i * nb * nb) Dm)).
    assert (has_data H wt dw) as Hw.
    { exists Dm. unfold nd_size. cbn [wt base offset nrows ncols].
      split; [done|]. split; [lia|done]. }
    assert (length dw = (nb * nb)%nat) as Hldw
      by (unfold dw; rewrite length_take, length_drop; lia).
    rewrite run_bind.
    pose proof (make_composite_weight_run H self iobj (Z.of_nat i) wt seg
                  dw ds Hw Hs) as Hm. cbv zeta in Hm.
    cbn [wt nrows ncols] in Hm.
    destruct (Hret i dw Hi) as [di Hcd]. rewrite Hcd in Hm. rewrite Hm.
    destruct (composite_data_old_or_zero _ _ _ _ _ _ _ _ _ _ Hldw Hcd)
      as [Hldi _].
    destruct (assign_ok (H ++ [di]) wt (NdArray (length H) 0 nb nb) dw di)
      as (b & Hb & Hassign); [by apply has_data_app| |done|done|].
    { apply has_data_fresh. lia. }
    rewrite Hassign. clear Hassign.
    cbn [wt base offset] in Hb |- *.
    rewrite (lookup_app_l_Some _ _ _ _ HDm) in Hb. injection Hb as <-.
    replace (Z.of_nat i + 1) with (Z.of_nat (S i)) by lia.
    apply lookup_lt_Some in HDm as Hb0.
    assert (i * nb * nb + length di <= length Dm)%nat as Hfit by lia.
    apply (IH (S i) _ (splice Dm (i * nb * nb) di)); [lia| | |].
    + apply list_lookup_insert_eq. rewrite length_app. lia.
    + by rewrite length_splice.
    + destruct Hs as (bs & Hbs & Hls & Hds). exists bs.
      rewrite list_lookup_insert_ne by done.
      split; [by apply lookup_app_l_Some|done].
Qed.

Lemma get_cweight_mosaic_inv h self iobj row start extw exts m h' :
  object_stored self iobj "weight" row start extw ->
  object_stored self iobj "seg" row start exts ->
  get_cweight_mosaic zero ne getI self iobj h = (Ok m, h') ->
  let nb := Z.to_nat (box_size row) in
  let n := Z.to_nat (ncutout row) in
  let dm := take (n * (nb * nb)) (drop (Z.to_nat start) extw) in
  let ds := take (nb * nb) (drop (Z.to_nat start) exts) in
  m = NdArray (length h) 0 (n * nb) nb /\
  exists Dm',
    h' !! length h = Some Dm' /\ length Dm' = (n * (nb * nb))%nat /\
    forall j, (j < n)%nat ->
      composite_data zero ne getI self iobj (Z.of_nat j) nb nb nb nb
        (take (nb * nb) (drop (j * nb * nb) dm)) ds
      = Ok (take (nb * nb) (drop (j * nb * nb) Dm')).
Proof.
  intros Hobjw Hobjs Hrun nb n dm ds.
  pose proof (get_mosaic_ok h _ _ _ _ _ _ Hobjw) as Hmos.
  pose proof (get_cutout_0_ok
                (h ++ [take (Z.to_nat (box_size row * box_size row
                                       * ncutout row))
                         (drop (Z.to_nat start) extw)])
                _ _ _ _ _ _ Hobjs) as Hcut.
  destruct (object_stored_sizes _ _ _ _ _ _ Hobjw)
    as (Hbox & Hnc & Hpos & Hnb & Hbb & Hbbn & Hext).
  destruct (object_stored_sizes _ _ _ _ _ _ Hobjs)
    as (_ & _ & _ & _ & _ & _ & Hexts).
  fold nb n in Hbox, Hnc, Hpos, Hnb, Hbb, Hbbn, Hext, Hexts, Hmos, Hcut.
  rewrite Hnb, Hbbn in Hmos. rewrite Hbb, Hbbn in Hcut.
  fold dm in Hmos, Hcut. fold ds in Hcut.
  set (mosaic := NdArray (length h) 0 (n * nb) nb) in *.
  set (seg := NdArray (length (h ++ [dm])) 0 nb nb) in *.
  assert (length dm = (n * (nb * nb))%nat) as Hldm
    by (unfold dm; rewrite length_take, length_drop; lia).
  assert (length ds = (nb * nb)%nat) as Hlds.
  { unfold ds. rewrite length_take, length_drop.
    pose proof (band_bound 0 n (nb * nb) Hpos). lia. }
  assert (has_data ((h ++ [dm]) ++ [ds]) seg ds) as Hs
    by (by apply has_data_fresh).
  unfold get_cweight_mosaic in Hrun.
  rewrite run_bind, Hmos, run_bind, Hcut in Hrun.
  destruct Hobjw as (Hi & Hrow & _).
  rewrite run_lift_bind, (cat1_ok ncutout _ _ row Hi Hrow) in Hrun.
  rewrite run_lift_bind, (cat1_ok box_size _ _ row Hi Hrow) in Hrun.
  cbv zeta in Hrun. rewrite run_bind in Hrun.
  rewrite Hbox, Hnc in Hrun. unfold mosaic at 1 in Hrun.
  rewrite split_mosaic_bands in Hrun.
  match type of Hrun with
  | context [for_enumerate ?z ?l ?f ?H] =>
      destruct (for_enumerate z l f H) as [[[]|e] H'] eqn:Hloop;
      [|done]
  end.
  rewrite run_ret in Hrun. injection Hrun as <- <-.
  destruct (cweight_loop self iobj seg ds (length h) nb n) with
    (k := n) (i := 0%nat) (H := (h ++ [dm]) ++ [ds]) (H' := H') (Dm := dm)
    as (Dm' & HDm' & Hlen' & Hs' & _ & Hge);
    [cbn [seg base]; rewrite length_app; simpl; lia|lia| |done|done|exact Hloop|].
  { rewrite <- app_assoc. rewrite lookup_app_r, Nat.sub_diag by lia. done. }
  split; [done|]. exists Dm'. split; [done|]. split; [lia|].
  intros j Hj. apply (Hge j). lia.
Qed.

Lemma get_cweight_mosaic_returns h self iobj row start extw exts :
  object_stored self iobj "weight" row start extw ->
  object_stored self iobj "seg" row start exts ->
  (forall i, (i < Z.to_nat (ncutout row))%nat ->
     (exists rowcen colcen ri ci,
        cutout_row row !! i = Some rowcen /\
        cutout_col row !! i = Some colcen /\
        index_of_float rowcen = Ok ri /\ index_of_float colcen = Ok ci /\
        0 <= ri < box_size row /\ 0 <= ci < box_size row) /\
     (exists j00 j01 j10 j11 : float,
        dudrow row !! i = Some j00 /\ dudcol row !! i = Some j01 /\
        dvdrow row !! i = Some j10 /\ dvdcol row !! i = Some j11)) ->
  exists h',
    get_cweight_mosaic zero ne getI self iobj h
    = (Ok (NdArray (length h) 0
             (Z.to_nat (ncutout row) * Z.to_nat (box_size row))
             (Z.to_nat (box_size row))), h').
Proof.
  intros Hobjw Hobjs Hwf.
  pose proof (get_mosaic_ok h _ _ _ _ _ _ Hobjw) as Hmos.
  pose proof (get_cutout_0_ok
                (h ++ [take (Z.to_nat (box_size row * box_size row
                                       * ncutout row))
                         (drop (Z.to_nat start) extw)])
                _ _ _ _ _ _ Hobjs) as Hcut.
  destruct (object_stored_sizes _ _ _ _ _ _ Hobjw)
    as (Hbox & Hnc & Hpos & Hnb & Hbb & Hbbn & Hext).
  destruct (object_stored_sizes _ _ _ _ _ _ Hobjs)
    as (_ & _ & _ & _ & _ & _ & Hexts).
  set (nb := Z.to_nat (box_size row)) in *.
  set (n := Z.to_nat (ncutout row)) in *.
  rewrite Hnb, Hbbn in Hmos. rewrite Hbb, Hbbn in Hcut.
  set (dm := take (n * (nb * nb)) (drop (Z.to_nat start) extw)) in *.
  set (ds := take (nb * nb) (drop (Z.to_nat start) exts)) in *.
  set (mosaic := NdArray (length h) 0 (n * nb) nb) in *.
  set (seg := NdArray (length (h ++ [dm])) 0 nb nb) in *.
  assert (length dm = (n * (nb * nb))%nat) as Hldm
    by (unfold dm; rewrite length_take, length_drop; lia).
  assert (length ds = (nb * nb)%nat) as Hlds.
  { unfold ds. rewrite length_take, length_drop.
    pose proof (band_bound 0 n (nb * nb) Hpos). lia. }
  assert (has_data ((h ++ [dm]) ++ [ds]) seg ds) as Hs
    by (by apply has_data_fresh).
  pose proof Hobjw as (Hi & Hrow & _).
  assert (forall i, (i < n)%nat -> exists m,
            get_jacob_as_matrix self iobj (Z.of_nat i) = Ok m) as Hjac.
  { intros i Hin.
    destruct (Hwf i Hin) as (_ & a & b & c & e & Ha & Hb & Hc & He).
    exists (Matrix a b c e).
    apply (get_jacob_as_matrix_ok self iobj _ row);
      rewrite ?Nat2Z.id; try done; lia. }
  assert (forall j (dw : list pixel), (j < n)%nat ->
            exists dc,
              composite_data zero ne getI self iobj (Z.of_nat j) nb nb
                (nrows seg) (ncols seg) dw ds = Ok dc) as Hret.
  { intros j dw Hj.
    destruct (Hwf j Hj)
      as ((rowcen & colcen & ri & ci & Hr & Hc & Hri & Hci & Hrr & Hcr) & _).
    destruct (item_in_range nb nb ds ri ci Hlds) as (sg & Hsg & _);
      [lia|lia|].
    apply (composite_data_returns self iobj (Z.of_nat j) nb nb nb nb
             dw ds rowcen colcen sg); try done.
    - apply (cat2_ok cutout_row _ _ _ row); rewrite ?Nat2Z.id; try done; lia.
    - apply (cat2_ok cutout_col _ _ _ row); rewrite ?Nat2Z.id; try done; lia.
    - unfold item_f. by rewrite Hri, result_bind_ok, Hci, result_bind_ok.
    - intros _. destruct (Hjac j Hj) as [se Hse].
      destruct (Hjac 0%nat Hpos) as [cj Hcj]. by exists se, cj. }
  destruct (cweight_loop_returns self iobj seg ds (length h) nb n) with
    (k := n) (i := 0%nat) (H := (h ++ [dm]) ++ [ds]) (Dm := dm)
    as [H' Hloop];
    [cbn [seg base]; rewrite length_app; simpl; lia|done|lia| |done|done|].
  { rewrite <- app_assoc. rewrite lookup_app_r, Nat.sub_diag by lia. done. }
  exists H'.
  unfold get_cweight_mosaic. rewrite run_bind, Hmos, run_bind, Hcut.
  rewrite run_lift_bind, (cat1_ok ncutout _ _ row Hi Hrow).
  rewrite run_lift_bind, (cat1_ok box_size _ _ row Hi Hrow).
  cbv zeta. rewrite run_bind. rewrite Hbox, Hnc. unfold mosaic at 1.
  rewrite split_mosaic_bands. fold seg.
  change (Z.of_nat 0) with 0 in Hloop.
  by rewrite Hloop.
Qed.

(** C9.  The arrays in the list returned by [get_cutout_list] are views on
    the buffer of the mosaic they were split from: the list has [ncutout]
    elements, a pixel written through element [i] at [(r, c)] is read back
    through the mosaic at [(i*box_size + r, c)], and a pixel written
    through the mosaic there is read back through the list element.
    [get_cweight_mosaic] uses this.  It returns the weight mosaic it read;
    the split has one view for each of the [ncutout] cutouts, and
    afterwards view [i], and with it rows [i*box_size ...] of the returned
    mosaic, hold what [_make_composite_weight] computes for cutout [i]
    from the weights and coadd seg as read.  It does return for an object
    whose cutouts have their Jacobian entries and a centre that, with its
    fraction dropped, is a pixel position of the cutout. *)
Theorem cutout_list_shares_mosaic_storage h self iobj type row start ext
    extw exts :
  object_stored self iobj type row start ext ->
  object_stored self iobj "weight" row start extw ->
  object_stored self iobj "seg" row start exts ->
  let nb := Z.to_nat (box_size row) in
  let n := Z.to_nat (ncutout row) in
  (exists mosaic hm l,
     get_mosaic self iobj type h = (Ok mosaic, hm) /\
     get_cutout_list self iobj type h = (Ok l, hm) /\
     length l = n /\
     forall i, (i < n)%nat ->
       exists wt : ndarray,
         l !! i = Some wt /\
         base wt = base mosaic /\ nrows wt = nb /\ ncols wt = nb /\
         forall r c v, (r < nb)%nat -> (c < nb)%nat ->
           (exists h2,
              setitem wt [(r, c)] v hm = (Ok tt, h2) /\
              getitem mosaic (Z.of_nat (i * nb + r)) (Z.of_nat c) h2
              = (Ok v, h2)) /\
           (exists h2,
              setitem mosaic [((i * nb + r)%nat, c)] v hm = (Ok tt, h2) /\
              getitem wt (Z.of_nat r) (Z.of_nat c) h2 = (Ok v, h2))) /\
  (forall m h',
     get_cweight_mosaic zero ne getI self iobj h = (Ok m, h') ->
     exists wtmosaic h0 seg h1,
       get_mosaic self iobj "weight" h = (Ok wtmosaic, h0) /\
       get_cutout self iobj 0 "seg" h0 = (Ok seg, h1) /\
       m = wtmosaic /\
       length (_split_mosaic wtmosaic (box_size row) (ncutout row)) = n /\
       forall i, (i < n)%nat ->
         exists (wt cwt : ndarray) hi (dc : list pixel),
           _split_mosaic wtmosaic (box_size row) (ncutout row) !! i
           = Some wt /\
           base wt = base m /\ nrows wt = nb /\ ncols wt = nb /\
           _make_composite_weight zero ne getI self iobj (Z.of_nat i) wt seg h1
           = (Ok cwt, hi) /\
           has_data hi cwt dc /\ has_data h' wt dc /\
           forall r c, (r < nb)%nat -> (c < nb)%nat ->
             exists x,
               dc !! (r * nb + c)%nat = Some x /\
               getitem m (Z.of_nat (i * nb + r)) (Z.of_nat c) h'
               = (Ok x, h')) /\
  ((forall i, (i < n)%nat ->
      (exists rowcen colcen ri ci,
         cutout_row row !! i = Some rowcen /\
         cutout_col row !! i = Some colcen /\
         index_of_float rowcen = Ok ri /\ index_of_float colcen = Ok ci /\
         0 <= ri < box_size row /\ 0 <= ci < box_size row) /\
      (exists j00 j01 j10 j11 : float,
         dudrow row !! i = Some j00 /\ dudcol row !! i = Some j01 /\
         dvdrow row !! i = Some j10 /\ dvdcol row !! i = Some j11)) ->
   exists m h', get_cweight_mosaic zero ne getI self iobj h = (Ok m, h')).
Proof.
  intros Hobj Hobjw Hobjs nb n. split; [|split].
  - pose proof (get_mosaic_ok h _ _ _ _ _ _ Hobj) as Hmos.
    pose proof (get_cutout_list_ok h _ _ _ _ _ _ Hobj) as Hlist.
    destruct (object_stored_sizes _ _ _ _ _ _ Hobj)
      as (Hbox & Hnc & Hpos & Hnb & Hbb & Hbbn & Hext).
    fold nb n in Hbox, Hnc, Hpos, Hnb, Hbb, Hbbn, Hext, Hmos, Hlist.
    rewrite Hnb, Hbbn in Hmos, Hlist.
    set (dm := take (n * (nb * nb)) (drop (Z.to_nat start) ext)) in *.
    set (mosaic := NdArray (length h) 0 (n * nb) nb) in *.
    assert (length dm = (n * nb * nb)%nat) as Hldm
      by (unfold dm; rewrite length_take, length_drop; lia).
    assert (has_data (h ++ [dm]) mosaic dm) as Hdm
      by (by apply has_data_fresh).
    eexists mosaic, _, _. split; [exact Hmos|]. split; [exact Hlist|].
    split.
    { unfold _split_mosaic, xrange.
      rewrite !length_fmap, length_seq. by fold n. }
    intros i Hi.
    exists (NdArray (length h) (0 + i * nb * nb) nb nb).
    split.
    { apply split_mosaic_lookup. fold n. split; [done|].
      rewrite Hbox. symmetry. by apply slice_rows_band. }
    split; [done|]. split; [done|]. split; [done|].
    intros r c v Hr Hc.
    pose proof (has_data_band _ _ _ _ _ _ i Hdm Hi) as Hband.
    pose proof (band_bound i n nb Hi) as Hib.
    split.
    + eapply write_read_alias; try done;
        try (cbn [mosaic nrows ncols]; lia).
      unfold flat_index. cbn [mosaic offset ncols]. lia.
    + eapply write_read_alias; try done;
        try (cbn [mosaic nrows ncols]; lia).
      unfold flat_index. cbn [mosaic offset ncols]. lia.
  - intros m h' Hrun.
    destruct (get_cweight_mosaic_inv h self iobj row start extw exts m h'
                Hobjw Hobjs Hrun) as (-> & Dm' & HDm' & Hlen' & Hcomp).
    pose proof (get_mosaic_ok h _ _ _ _ _ _ Hobjw) as Hmos.
    pose proof (get_cutout_0_ok
                  (h ++ [take (Z.to_nat (box_size row * box_size row
                                         * ncutout row))
                           (drop (Z.to_nat start) extw)])
                  _ _ _ _ _ _ Hobjs) as Hcut.
    destruct (object_stored_sizes _ _ _ _ _ _ Hobjw)
      as (Hbox & Hnc & Hpos & Hnb & Hbb & Hbbn & Hext).
    destruct (object_stored_sizes _ _ _ _ _ _ Hobjs)
      as (_ & _ & _ & _ & _ & _ & Hexts).
    fold nb n in Hbox, Hnc, Hpos, Hnb, Hbb, Hbbn, Hext, Hexts, Hmos, Hcut,
      Hlen', Hcomp |- *.
    rewrite Hnb, Hbbn in Hmos. rewrite Hbb, Hbbn in Hcut.
    set (dm := take (n * (nb * nb)) (drop (Z.to_nat start) extw)) in *.
    set (ds := take (nb * nb) (drop (Z.to_nat start) exts)) in *.
    set (mosaic := NdArray (length h) 0 (n * nb) nb) in *.
    set (seg := NdArray (length (h ++ [dm])) 0 nb nb) in *.
    assert (length dm = (n * (nb * nb))%nat) as Hldm
      by (unfold dm; rewrite length_take, length_drop; lia).
    assert (length ds = (nb * nb)%nat) as Hlds.
    { unfold ds. rewrite length_take, length_drop.
      pose proof (band_bound 0 n (nb * nb) Hpos). lia. }
    assert (has_data ((h ++ [dm]) ++ [ds]) seg ds) as Hs
      by (by apply has_data_fresh).
    assert (has_data h' mosaic Dm') as Hdm'.
    { exists Dm'. unfold nd_size. cbn [mosaic base offset nrows ncols].
      split; [done|]. split; [lia|].
      by rewrite drop_0, take_ge by lia. }
    exists mosaic, (h ++ [dm]), seg, ((h ++ [dm]) ++ [ds]).
    split; [done|]. split; [done|]. split; [done|].
    rewrite Hbox, Hnc. unfold mosaic at 1 2.
    rewrite split_mosaic_bands. split; [by rewrite length_fmap, length_seq|].
    intros i Hin.
    pose proof (band_bound i n (nb * nb) Hin) as Hib.
    pose proof (band_bound i n nb Hin) as Hib'.
    set (wt := NdArray (length h) (i * nb * nb) nb nb).
    set (dw := take (nb * nb) (drop (i * nb * nb) dm)).
    set (dc := take (nb * nb) (drop (i * nb * nb) Dm')).
    assert (has_data ((h ++ [dm]) ++ [ds]) wt dw) as Hw.
    { exists dm. unfold nd_size. cbn [wt base offset nrows ncols].
      split; [|split; [lia|done]].
      rewrite <- app_assoc. by rewrite lookup_app_r, Nat.sub_diag by lia. }
    pose proof (make_composite_weight_run _ self iobj (Z.of_nat i) wt seg
                  dw ds Hw Hs) as Hm. cbv zeta in Hm.
    cbn [wt seg nrows ncols] in Hm.
    specialize (Hcomp i Hin). fold dw dc in Hcomp.
    rewrite Hcomp in Hm.
    eexists wt, _, _, dc.
    split; [by rewrite list_lookup_fmap, lookup_seq_lt|].
    split; [done|]. split; [done|]. split; [done|].
    split; [exact Hm|]. split.
    { apply has_data_fresh. unfold dc.
      rewrite length_take, length_drop. lia. }
    split.
    { exists Dm'. unfold nd_size. cbn [wt base offset nrows ncols].
      split; [done|]. split; [lia|done]. }
    intros r c Hr Hc.
    pose proof (band_bound r nb nb Hr) as Hrb.
    destruct (getitem_in_range _ _ _ (i * nb + r) c Hdm') as (x & Hx & Hgx);
      [cbn [mosaic nrows]; lia|done|].
    cbn [mosaic ncols] in Hx.
    exists x. split; [|exact Hgx].
    unfold dc. rewrite lookup_take_lt, lookup_drop by lia.
    rewrite <- Hx. f_equal. lia.
  - intros Hwf.
    destruct (get_cweight_mosaic_returns h self iobj row start extw exts
                Hobjw Hobjs Hwf) as [h' Hrun].
    by eexists _, h'.
Qed.

(** *** The heap only grows when a cutout is read *)

Lemma reshape_inv b n (n0 n1 : Z) a :
  reshape b n n0 n1 = Ok a ->
  base a = b /\ offset a = 0%nat /\ (nrows a * ncols a = n)%nat.
Proof.
  unfold reshape.
  destruct (Z.ltb_spec n0 0), (Z.ltb_spec n1 0); cbn [andb]; [done| | |].
  - destruct (Z.eqb_spec n1 0); [done|]. cbn [orb].
    destruct (Z.eqb_spec (Z.of_nat n mod n1) 0); [|done].
    intros [= <-]. cbn [base offset nrows ncols]. repeat split.
    assert (Z.of_nat n = n1 * (Z.of_nat n / n1))
      by (apply Z.div_exact; [lia|done]).
    assert (0 <= Z.of_nat n / n1) by (apply Z.div_pos; lia).
    rewrite <- Z2Nat.inj_mul by lia. lia.
  - destruct (Z.eqb_spec n0 0); [done|]. cbn [orb].
    destruct (Z.eqb_spec (Z.of_nat n mod n0) 0); [|done].
    intros [= <-]. cbn [base offset nrows ncols]. repeat split.
    assert (Z.of_nat n = n0 * (Z.of_nat n / n0))
      by (apply Z.div_exact; [lia|done]).
    assert (0 <= Z.of_nat n / n0) by (apply Z.div_pos; lia).
    rewrite <- Z2Nat.inj_mul by lia. lia.
  - destruct (Z.eqb_spec (n0 * n1) (Z.of_nat n)); [|done].
    intros [= <-]. cbn [base offset nrows ncols]. repeat split.
    rewrite <- Z2Nat.inj_mul by lia. lia.
Qed.

Lemma get_cutout_grows h self iobj icutout type :
  let run := get_cutout self iobj icutout type h in
  (exists l, run.2 = h ++ l) /\
  (forall im, run.1 = Ok im -> exists d, has_data run.2 im d).
Proof.
  cbv zeta. unfold get_cutout. rewrite run_bind.
  pose proof (check_indices_heap h self iobj (Some icutout)) as Hck.
  destruct (_check_indices self iobj (Some icutout) h) as [[[]|e] h0].
  2:{ cbn [snd] in *. subst. split; [by exists []; rewrite app_nil_r|done]. }
  cbn [snd] in Hck. subst h0.
  rewrite run_lift_bind.
  destruct (cat1 box_size _ _) as [box|];
    [|split; [by exists []; rewrite app_nil_r|done]].
  rewrite run_lift_bind.
  destruct (cat2 start_row _ _ _) as [st|];
    [|split; [by exists []; rewrite app_nil_r|done]].
  rewrite run_lift_bind.
  destruct (_get_extension_name type) as [extname|];
    [|split; [by exists []; rewrite app_nil_r|done]].
  rewrite run_bind. unfold fits_read. rewrite run_lift_bind.
  destruct (fits_ext self extname) as [ext|];
    [|split; [by exists []; rewrite app_nil_r|done]].
  destruct (_ && _);
    [|split; [by exists []; rewrite app_nil_r|done]].
  rewrite run_bind. unfold alloc. rewrite run_ret. cbn [fst snd].
  rewrite run_lift_bind.
  destruct (reshape _ _ _ _) as [im|] eqn:Hre; [|split; [by eexists|done]].
  rewrite run_ret. cbn [fst snd]. split; [by eexists|].
  intros ? [= <-]. apply reshape_inv in Hre as (Hb & Ho & Hsz).
  eexists. destruct im as [b o r c]. cbn [base offset nrows ncols] in *.
  subst b o. by apply has_data_fresh.
Qed.

(** C10.  [_make_composite_weight] writes only into a buffer that did not
    exist before the call: the heap afterwards is the heap before followed
    by that one buffer, so every array that existed before the call, in
    particular the weight cutout and the seg cutout passed in, holds the
    same data; the returned array lives in the new buffer.  Likewise
    [get_cweight_cutout] only adds buffers to the heap. *)
Theorem composite_weight_preserves_inputs h self iobj icutout :
  (forall wt seg dw ds,
     has_data h wt dw -> has_data h seg ds ->
     let run :=
       _make_composite_weight zero ne getI self iobj icutout wt seg h in
     (exists dc, run.2 = h ++ [dc]) /\
     has_data run.2 wt dw /\ has_data run.2 seg ds /\
     (forall a d, has_data h a d -> has_data run.2 a d) /\
     (forall cwt, run.1 = Ok cwt ->
        base cwt = length h /\ h !! base cwt = None)) /\
  (exists l, (get_cweight_cutout zero ne getI self iobj icutout h).2 = h ++ l).
Proof.
  assert (forall h wt seg dw ds,
    has_data h wt dw -> has_data h seg ds ->
    exists r dc,
      _make_composite_weight zero ne getI self iobj icutout wt seg h
      = (r, h ++ [dc]) /\
      forall cwt, r = Ok cwt -> base cwt = length h) as Hmcw.
  { clear h. intros h wt seg dw ds Hw Hs.
    pose proof (make_composite_weight_run h self iobj icutout wt seg dw ds
                  Hw Hs) as Hm. cbv zeta in Hm.
    destruct (composite_data _ _ _ _ _ _ _ _ _ _ _ _) as [d|e].
    - exists (Ok (NdArray (length h) 0 (nrows wt) (ncols wt))), d.
      split; [done|]. by intros cwt [= <-].
    - destruct Hm as [d Hm]. exists (Raise e), d. split; [done|]. done. }
  split.
  - intros wt seg dw ds Hw Hs run.
    destruct (Hmcw h wt seg dw ds Hw Hs) as (r & dc & Hr & Hb).
    subst run. rewrite Hr. cbn [fst snd]. split; [by exists dc|].
    split; [by apply has_data_app|]. split; [by apply has_data_app|].
    split; [intros a d Ha; by apply has_data_app|].
    intros cwt Hc. rewrite (Hb cwt Hc). split; [done|].
    apply lookup_ge_None_2. lia.
  - unfold get_cweight_cutout. rewrite run_bind.
    destruct (get_cutout_grows h self iobj icutout "weight") as [[l1 H1] Hv1].
    destruct (get_cutout self iobj icutout "weight" h) as [[wt|e] h1];
      cbn [fst snd] in *; [|by exists l1].
    destruct (Hv1 wt eq_refl) as [dw Hw].
    rewrite run_bind.
    destruct (get_cutout_grows h1 self iobj 0 "seg") as [[l2 H2] Hv2].
    destruct (get_cutout self iobj 0 "seg" h1) as [[seg|e] h2];
      cbn [fst snd] in *; [|exists (l1 ++ l2); by rewrite app_assoc, <- H1].
    destruct (Hv2 seg eq_refl) as [ds Hs].
    assert (has_data h2 wt dw) as Hw2 by (rewrite H2; by apply has_data_app).
    destruct (Hmcw h2 wt seg dw ds Hw2 Hs) as (r & dc & Hr & _).
    rewrite run_bind, Hr.
    exists (l1 ++ l2 ++ [dc]). rewrite !app_assoc, <- H1, <- H2.
    by destruct r.
Qed.

(** ** Further properties of the class *)

(** *** Reading any cutout *)

Lemma get_cutout_ok h self iobj icutout type row st ext :
  0 <= iobj < cat_size self -> _cat self !! Z.to_nat iobj = Some row ->
  ncutout row ≠ 0 -> icutout < ncutout row ->
  cat2 start_row (_cat self) iobj icutout = Ok st ->
  (exists extname, _get_extension_name type = Ok extname /\
                   fits_ext self extname = Ok ext) ->
  0 <= box_size row -> 0 <= st ->
  st + box_size row * box_size row <= Z.of_nat (length ext) ->
  Z.of_nat (length ext) < 2 ^ 31 ->
  get_cutout self iobj icutout type h
  = (Ok (NdArray (length h) 0
           (Z.to_nat (box_size row)) (Z.to_nat (box_size row))),
     h ++ [take (Z.to_nat (box_size row) * Z.to_nat (box_size row))
             (drop (Z.to_nat st) ext)]).
Proof.
  intros Hi Hrow Hn Hic Hst (extname & Hname & Hext) Hb Hs0 Hlen Hi4.
  assert (0 <= box_size row * box_size row) as Hbb
    by (apply Z.mul_nonneg_nonneg; lia).
  unfold get_cutout. rewrite run_bind.
  rewrite (check_indices_ok _ _ _ _ row)
    by (try done; intros ? [= <-]; lia).
  run_lift (cat1_ok box_size _ _ row Hi Hrow).
  run_lift Hst. run_lift Hname. unfold i4_add, i4_mul.
  rewrite (wrap_i4_id (box_size row * box_size row)) by lia.
  rewrite wrap_i4_id by lia.
  rewrite run_bind, (fits_read_ok _ _ _ ext _ _ Hext) by lia.
  cbn [fst snd]. rewrite run_lift_bind.
  rewrite reshape_ok by lia. rewrite run_ret.
  by rewrite Z.add_simpl_l, Z2Nat.inj_mul by lia.
Qed.

(** X1.  [get_cutout] addresses the flat extension by [start_row]: for a
    cutout index in [0, ncutout) whose [box_size]^2 rows from
    [start_row[iobj, icutout]] lie in the extension, the result is a new
    [box_size] x [box_size] array whose pixel [(r, c)] is row
    [start_row + r*box_size + c] of the extension. *)
Theorem get_cutout_addressing h self iobj icutout type row st ext :
  0 <= iobj < cat_size self -> _cat self !! Z.to_nat iobj = Some row ->
  0 <= icutout < ncutout row ->
  start_row row !! Z.to_nat icutout = Some st ->
  (exists extname, _get_extension_name type = Ok extname /\
                   fits_ext self extname = Ok ext) ->
  0 <= box_size row -> 0 <= st ->
  st + box_size row * box_size row <= Z.of_nat (length ext) ->
  Z.of_nat (length ext) < 2 ^ 31 ->
  let nb := Z.to_nat (box_size row) in
  exists im hc,
    get_cutout self iobj icutout type h = (Ok im, hc) /\
    base im = length h /\ nrows im = nb /\ ncols im = nb /\
    forall r c, (r < nb)%nat -> (c < nb)%nat ->
      exists x,
        ext !! (Z.to_nat st + (r * nb + c))%nat = Some x /\
        getitem im (Z.of_nat r) (Z.of_nat c) hc = (Ok x, hc).
Proof.
  intros Hi Hrow Hic Hst Hext Hb Hs0 Hlen Hi4 nb.
  pose proof (get_cutout_ok h self iobj icutout type row st ext Hi Hrow)
    as Hrun.
  rewrite Hrun; try done; try lia;
    [|by apply (cat2_ok start_row _ _ _ row); try lia].
  fold nb. eexists _, _. split; [done|].
  split; [done|]. split; [done|]. split; [done|].
  intros r c Hr Hc.
  set (d := take (nb * nb) (drop (Z.to_nat st) ext)).
  assert (length d = (nb * nb)%nat) as Hld.
  { unfold d. rewrite length_take, length_drop.
    assert (Z.of_nat (nb * nb) = box_size row * box_size row)
      by (unfold nb; lia). lia. }
  assert (has_data (h ++ [d]) (NdArray (length h) 0 nb nb) d) as Hd
    by (by apply has_data_fresh).
  destruct (getitem_in_range _ _ _ r c Hd Hr Hc) as (x & Hx & Hget).
  exists x. split; [|done]. cbn [ncols] in Hx. unfold d in Hx.
  pose proof (band_bound r nb nb Hr).
  by rewrite lookup_take_lt, lookup_drop in Hx by lia.
Qed.

(** X2.  When the cutouts of an object lie back to back
    ([start_row[iobj, i] = start_row[iobj, 0] + i*box_size^2]),
    [get_cutout(iobj, i, type)] has the pixels of rows
    [i*box_size, (i+1)*box_size) of [get_mosaic(iobj, type)], for every
    cutout index [i] in [0, ncutout). *)
Theorem get_cutout_agrees_with_mosaic h self iobj type row start ext i :
  object_stored self iobj type row start ext ->
  (i < Z.to_nat (ncutout row))%nat ->
  start_row row !! i
  = Some (start + Z.of_nat i * (box_size row * box_size row)) ->
  let nb := Z.to_nat (box_size row) in
  exists mosaic hm im hc,
    get_mosaic self iobj type h = (Ok mosaic, hm) /\
    get_cutout self iobj (Z.of_nat i) type h = (Ok im, hc) /\
    nrows im = nb /\ ncols im = nb /\
    forall r c, (r < nb)%nat -> (c < nb)%nat ->
      exists x,
        getitem im (Z.of_nat r) (Z.of_nat c) hc = (Ok x, hc) /\
        getitem mosaic (Z.of_nat (i * nb + r)) (Z.of_nat c) hm
        = (Ok x, hm).
Proof.
  intros Hobj Hin Hst nb.
  pose proof (get_mosaic_ok h _ _ _ _ _ _ Hobj) as Hmos.
  destruct (object_stored_sizes _ _ _ _ _ _ Hobj)
    as (Hbox & Hnc & Hpos & Hnb & Hbb & Hbbn & Hext).
  fold nb in Hbox, Hnb, Hbb, Hbbn, Hext, Hmos.
  set (n := Z.to_nat (ncutout row)) in *.
  rewrite Hnb, Hbbn in Hmos.
  destruct Hobj as (Hi & Hrow & Hn & Hb & _ & Hs0 & Hname & Hlen & Hi4).
  pose proof (band_bound i n (nb * nb) Hin) as Hib.
  pose proof (band_bound i n nb Hin) as Hib'.
  assert (Z.of_nat (nb * nb) = box_size row * box_size row) as Hq by lia.
  assert (Z.of_nat i * (box_size row * box_size row)
          = Z.of_nat (i * (nb * nb))) as Hoff by lia.
  pose proof (get_cutout_ok h self iobj (Z.of_nat i) type row
                (start + Z.of_nat i * (box_size row * box_size row)) ext
                Hi Hrow) as Hcut.
  rewrite Hoff in Hcut, Hst. fold nb in Hcut.
  rewrite Hcut; try done; try lia;
    [|apply (cat2_ok start_row _ _ _ row); try done; try lia;
      by rewrite Nat2Z.id].
  set (dm := take (n * (nb * nb)) (drop (Z.to_nat start) ext)) in *.
  set (di := take (nb * nb)
               (drop (Z.to_nat (start + Z.of_nat (i * (nb * nb)))) ext)).
  set (mosaic := NdArray (length h) 0 (n * nb) nb) in *.
  assert (length dm = (n * nb * nb)%nat) as Hldm
    by (unfold dm; rewrite length_take, length_drop; lia).
  assert (length di = (nb * nb)%nat) as Hldi
    by (unfold di; rewrite length_take, length_drop; lia).
  assert (has_data (h ++ [dm]) mosaic dm) as Hdm
    by (by apply has_data_fresh).
  assert (has_data (h ++ [di]) (NdArray (length h) 0 nb nb) di) as Hdi
    by (by apply has_data_fresh).
  eexists mosaic, _, _, _. split; [exact Hmos|]. split; [done|].
  split; [done|]. split; [done|].
  intros r c Hr Hc.
  pose proof (band_bound r nb nb Hr) as Hrb.
  destruct (getitem_in_range _ _ _ r c Hdi Hr Hc) as (x & Hx & Hgx).
  destruct (getitem_in_range _ _ _ (i * nb + r) c Hdm) as (y & Hy & Hgy);
    [cbn [mosaic nrows]; lia|done|].
  cbn [mosaic ncols] in Hx, Hy. unfold di in Hx. unfold dm in Hy.
  rewrite lookup_take_lt, lookup_drop in Hx by lia.
  rewrite lookup_take_lt, lookup_drop in Hy by lia.
  replace (Z.to_nat (start + Z.of_nat (i * (nb * nb))) + (r * nb + c))%nat
    with (Z.to_nat start + ((i * nb + r) * nb + c))%nat in Hx by lia.
  rewrite Hx in Hy. injection Hy as <-. eauto.
Qed.

(** *** Fresh buffers *)

Lemma get_cutout_fresh h self iobj icutout type im h1 :
  get_cutout self iobj icutout type h = (Ok im, h1) ->
  exists d, h1 = h ++ [d] /\ base im = length h /\ offset im = 0%nat /\
            length d = (nrows im * ncols im)%nat.
Proof.
  unfold get_cutout. rewrite run_bind.
  pose proof (check_indices_heap h self iobj (Some icutout)) as Hck.
  destruct (_check_indices self iobj (Some icutout) h) as [[[]|e] h0];
    [|done].
  cbn [snd] in Hck. subst h0. rewrite run_lift_bind.
  destruct (cat1 box_size _ _) as [box|]; [|done]. rewrite run_lift_bind.
  destruct (cat2 start_row _ _ _) as [st|]; [|done]. rewrite run_lift_bind.
  destruct (_get_extension_name type) as [extname|]; [|done].
  rewrite run_bind. unfold fits_read. rewrite run_lift_bind.
  destruct (fits_ext self extname) as [ext|]; [|done].
  destruct (_ && _); [|done].
  rewrite run_bind. unfold alloc. rewrite run_ret. cbn [fst snd].
  rewrite run_lift_bind.
  destruct (reshape _ _ _ _) as [a|] eqn:Hre; [|done].
  rewrite run_ret. intros [= <- <-].
  apply reshape_inv in Hre as (Hb & Ho & Hsz). eauto.
Qed.

Lemma setitem_heap h h' a w v :
  setitem a w v h = (Ok tt, h') -> exists b, h' = <[base a := b]> h.
Proof.
  unfold setitem. destruct (forallb _ w); [|done]. rewrite run_bind.
  destruct (load a h) as [[d|] h0] eqn:Hl; [|done].
  apply load_inv in Hl as [_ ->]. unfold store.
  destruct (h !! base a); [|done]. case_decide; [|done].
  intros [= <-]. eauto.
Qed.

(** X3.  Each call of [get_cutout] returns an array in a buffer of its
    own: two successive calls never share storage, and a pixel written
    into the first array leaves the second one as it was.  (The views of
    [get_cutout_list] do share storage with their mosaic.) *)
Theorem get_cutout_calls_do_not_alias h h1 h2 self iobj icutout type
    iobj' icutout' type' a1 a2 :
  get_cutout self iobj icutout type h = (Ok a1, h1) ->
  get_cutout self iobj' icutout' type' h1 = (Ok a2, h2) ->
  base a1 ≠ base a2 /\
  forall w v h3 d,
    setitem a1 w v h2 = (Ok tt, h3) ->
    has_data h2 a2 d -> has_data h3 a2 d.
Proof.
  intros H1 H2.
  destruct (get_cutout_fresh _ _ _ _ _ _ _ H1) as (d1 & -> & Hb1 & _).
  destruct (get_cutout_fresh _ _ _ _ _ _ _ H2) as (d2 & -> & Hb2 & _).
  rewrite length_app in Hb2. simpl in Hb2.
  assert (base a1 ≠ base a2) as Hne by lia.
  split; [done|]. intros w v h3 d Hset (b & Hb & Hlen & Hd).
  apply setitem_heap in Hset as [b' ->].
  exists b. by rewrite list_lookup_insert_ne.
Qed.

(** *** Errors of the accessors *)

Lemma check_indices_raise h self iobj icutout e h0 :
  _check_indices self iobj icutout h = (Raise e, h0) -> h0 = h.
Proof.
  intros Hck. pose proof (check_indices_heap h self iobj icutout) as Hh.
  by rewrite Hck in Hh.
Qed.

Lemma get_cutout_check_fails h self iobj icutout type e :
  (_check_indices self iobj (Some icutout) h).1 = Raise e ->
  get_cutout self iobj icutout type h = (Raise e, h).
Proof.
  intros Hck. unfold get_cutout. rewrite run_bind.
  destruct (_check_indices self iobj (Some icutout) h) as [r h0] eqn:Hc.
  cbn [fst] in Hck. subst r. by rewrite (check_indices_raise _ _ _ _ _ _ Hc).
Qed.

Lemma get_mosaic_check_fails h self iobj type e :
  (_check_indices self iobj None h).1 = Raise e ->
  get_mosaic self iobj type h = (Raise e, h).
Proof.
  intros Hck. unfold get_mosaic. rewrite run_bind.
  destruct (_check_indices self iobj None h) as [r h0] eqn:Hc.
  cbn [fst] in Hck. subst r. by rewrite (check_indices_raise _ _ _ _ _ _ Hc).
Qed.

Lemma get_extension_name_unknown type :
  type ≠ "image" -> type ≠ "weight" -> type ≠ "seg" ->
  _get_extension_name type = Raise (ValueError BadCutoutType).
Proof.
  intros H1 H2 H3. unfold _get_extension_name.
  by rewrite !decide_False by done.
Qed.

(** X4.  In [get_cutout] and [get_mosaic] the indices are checked before
    the cutout type: an index error is reported whatever the type is, and
    with valid indices a type other than 'image', 'weight' and 'seg' gives
    [ValueError]; in both cases nothing is read or allocated. *)
Theorem unknown_cutout_type_rejected h self iobj icutout type :
  (forall e, (_check_indices self iobj (Some icutout) h).1 = Raise e ->
     get_cutout self iobj icutout type h = (Raise e, h)) /\
  (forall e, (_check_indices self iobj None h).1 = Raise e ->
     get_mosaic self iobj type h = (Raise e, h)) /\
  (type ≠ "image" -> type ≠ "weight" -> type ≠ "seg" ->
   forall row st st0,
     0 <= iobj < cat_size self -> _cat self !! Z.to_nat iobj = Some row ->
     0 <= icutout < ncutout row ->
     start_row row !! Z.to_nat icutout = Some st ->
     start_row row !! 0%nat = Some st0 ->
     get_cutout self iobj icutout type h
     = (Raise (ValueError BadCutoutType), h) /\
     get_mosaic self iobj type h = (Raise (ValueError BadCutoutType), h)).
Proof.
  split; [apply get_cutout_check_fails|].
  split; [apply get_mosaic_check_fails|].
  intros H1 H2 H3 row st st0 Hi Hrow Hic Hst Hst0.
  pose proof (get_extension_name_unknown type H1 H2 H3) as Hname.
  split.
  - unfold get_cutout. rewrite run_bind.
    rewrite (check_indices_ok _ _ _ _ row)
      by (try done; try lia; intros ? [= <-]; lia).
    run_lift (cat1_ok box_size _ _ row Hi Hrow).
    rewrite run_lift_bind, (cat2_ok start_row _ _ icutout row st) by
      (try done; lia).
    by run_lift Hname.
  - unfold get_mosaic. rewrite run_bind.
    rewrite (check_indices_ok _ _ _ _ row) by (try done; lia).
    run_lift (cat1_ok ncutout _ _ row Hi Hrow).
    run_lift (cat1_ok box_size _ _ row Hi Hrow).
    run_lift (cat2_ok start_row _ _ 0 row st0 Hi Hrow (Z.le_refl 0) Hst0).
    by run_lift Hname.
Qed.

Lemma check_indices_empty h self iobj icutout row :
  0 <= iobj < cat_size self -> _cat self !! Z.to_nat iobj = Some row ->
  ncutout row = 0 ->
  _check_indices self iobj icutout h = (Raise (ValueError NoCutouts), h).
Proof.
  intros Hi Hrow Hz. unfold _check_indices.
  destruct (Z.geb_spec iobj (cat_size self)); [lia|].
  rewrite run_lift_bind, (cat1_ok _ _ _ row) by done. by rewrite Hz.
Qed.

(** X5.  An object without cutouts ([ncutout = 0]) is rejected by every
    accessor that validates its indices, with the same [ValueError] and
    before anything is read: cutouts, mosaics, lists, composite weights,
    Jacobians and source paths alike. *)
Theorem empty_object_rejected_everywhere h self iobj row :
  0 <= iobj < cat_size self -> _cat self !! Z.to_nat iobj = Some row ->
  ncutout row = 0 ->
  forall icutout type image_info,
    get_cutout self iobj icutout type h
    = (Raise (ValueError NoCutouts), h) /\
    get_mosaic self iobj type h = (Raise (ValueError NoCutouts), h) /\
    get_cutout_list self iobj type h = (Raise (ValueError NoCutouts), h) /\
    get_cweight_cutout zero ne getI self iobj icutout h
    = (Raise (ValueError NoCutouts), h) /\
    get_cweight_mosaic zero ne getI self iobj h
    = (Raise (ValueError NoCutouts), h) /\
    get_cweight_cutout_list zero ne getI self iobj h
    = (Raise (ValueError NoCutouts), h) /\
    get_jacobian self iobj icutout h = (Raise (ValueError NoCutouts), h) /\
    get_jacobian_list self iobj h = (Raise (ValueError NoCutouts), h) /\
    get_source_path self image_info iobj icutout h
    = (Raise (ValueError NoCutouts), h) /\
    get_sky_path self image_info iobj icutout h
    = (Raise (ValueError NoCutouts), h).
Proof.
  intros Hi Hrow Hz icutout type image_info.
  assert (forall ic, _check_indices self iobj ic h
                     = (Raise (ValueError NoCutouts), h)) as Hck
    by (intros ic; by apply (check_indices_empty _ _ _ _ row)).
  assert (forall ic ty, get_cutout self iobj ic ty h
                        = (Raise (ValueError NoCutouts), h)) as Hcut
    by (intros ic ty; apply get_cutout_check_fails; by rewrite Hck).
  assert (forall ty, get_mosaic self iobj ty h
                     = (Raise (ValueError NoCutouts), h)) as Hmos
    by (intros ty; apply get_mosaic_check_fails; by rewrite Hck).
  assert (get_cweight_mosaic zero ne getI self iobj h
          = (Raise (ValueError NoCutouts), h)) as Hcm
    by (unfold get_cweight_mosaic; by rewrite run_bind, Hmos).
  repeat split.
  - apply Hcut.
  - apply Hmos.
  - unfold get_cutout_list. by rewrite run_bind, Hmos.
  - unfold get_cweight_cutout. by rewrite run_bind, Hcut.
  - apply Hcm.
  - unfold get_cweight_cutout_list. by rewrite run_bind, Hcm.
  - unfold get_jacobian. by rewrite run_bind, Hck.
  - unfold get_jacobian_list. by rewrite run_bind, Hck.
  - unfold get_source_path, get_source_info. by rewrite !run_bind, Hck.
  - unfold get_sky_path, get_source_info. by rewrite !run_bind, Hck.
Qed.

(** *** Negative object indices *)

Lemma norm_index_wrap n i :
  - Z.of_nat n <= i < 0 -> norm_index n i = norm_index n (i + Z.of_nat n).
Proof.
  intros Hi. unfold norm_index.
  destruct (Z.leb_spec 0 i); [lia|]. cbn [andb].
  destruct (Z.leb_spec (- Z.of_nat n) i); [|lia].
  destruct (Z.ltb_spec i 0); [|lia]. cbn [andb].
  destruct (Z.leb_spec 0 (i + Z.of_nat n)); [|lia].
  by destruct (Z.ltb_spec (i + Z.of_nat n) (Z.of_nat n)); [|lia].
Qed.

Lemma cat1_wrap {A} (field : cat_row -> A) cat iobj :
  - Z.of_nat (length cat) <= iobj < 0 ->
  cat1 field cat iobj = cat1 field cat (iobj + Z.of_nat (length cat)).
Proof. intros Hi. unfold cat1. by rewrite (norm_index_wrap _ _ Hi). Qed.

Lemma cat2_wrap {A} (field : cat_row -> list A) cat iobj icutout :
  - Z.of_nat (length cat) <= iobj < 0 ->
  cat2 field cat iobj icutout
  = cat2 field cat (iobj + Z.of_nat (length cat)) icutout.
Proof. intros Hi. unfold cat2. by rewrite (norm_index_wrap _ _ Hi). Qed.

Lemma check_indices_wrap self iobj icutout :
  - cat_size self <= iobj < 0 ->
  _check_indices self iobj icutout
  = _check_indices self (iobj + cat_size self) icutout.
Proof.
  intros Hi. unfold _check_indices, cat_size in *.
  destruct (Z.geb_spec iobj (Z.of_nat (length (_cat self)))); [lia|].
  destruct (Z.geb_spec (iobj + Z.of_nat (length (_cat self)))
              (Z.of_nat (length (_cat self)))); [lia|].
  by rewrite (cat1_wrap ncutout _ _ Hi).
Qed.

(** X6.  A negative object index counts from the end of the catalog, as
    numpy indices do, and it does so in every accessor alike: for
    [-size <= iobj < 0] a call with [iobj] behaves exactly as the call with
    [iobj + size].  Below [-size] the catalog lookup raises [IndexError]. *)
Theorem negative_object_index_wraps self iobj :
  (- cat_size self <= iobj < 0 ->
   forall icutout type,
     get_cutout self iobj icutout type
     = get_cutout self (iobj + cat_size self) icutout type /\
     get_mosaic self iobj type
     = get_mosaic self (iobj + cat_size self) type /\
     get_cutout_list self iobj type
     = get_cutout_list self (iobj + cat_size self) type /\
     get_jacobian self iobj icutout
     = get_jacobian self (iobj + cat_size self) icutout /\
     get_cweight_cutout zero ne getI self iobj icutout
     = get_cweight_cutout zero ne getI self (iobj + cat_size self) icutout) /\
  (iobj < - cat_size self ->
   forall h icutout type,
     get_cutout self iobj icutout type h = (Raise IndexError, h) /\
     get_mosaic self iobj type h = (Raise IndexError, h)).
Proof.
  split.
  - intros Hi icutout type.
    assert (forall ic ty,
      get_cutout self iobj ic ty
      = get_cutout self (iobj + cat_size self) ic ty) as Hcut.
    { intros ic ty. unfold get_cutout.
      rewrite (check_indices_wrap _ _ _ Hi). unfold cat_size in *.
      by rewrite (cat1_wrap box_size _ _ Hi), (cat2_wrap start_row _ _ _ Hi). }
    assert (forall ty,
      get_mosaic self iobj ty = get_mosaic self (iobj + cat_size self) ty)
      as Hmos.
    { intros ty. unfold get_mosaic.
      rewrite (check_indices_wrap _ _ _ Hi). unfold cat_size in *.
      by rewrite (cat1_wrap ncutout _ _ Hi), (cat1_wrap box_size _ _ Hi),
        (cat2_wrap start_row _ _ _ Hi). }
    split; [apply Hcut|]. split; [apply Hmos|]. split; [|split].
    + unfold get_cutout_list. rewrite Hmos. unfold cat_size in *.
      by rewrite (cat1_wrap ncutout _ _ Hi), (cat1_wrap box_size _ _ Hi).
    + unfold get_jacobian. rewrite (check_indices_wrap _ _ _ Hi).
      unfold cat_size in *.
      by rewrite (cat2_wrap dudrow _ _ _ Hi), (cat2_wrap dudcol _ _ _ Hi),
        (cat2_wrap dvdcol _ _ _ Hi), (cat2_wrap dvdrow _ _ _ Hi).
    + unfold get_cweight_cutout, _make_composite_weight, get_jacob_as_matrix.
      rewrite !Hcut. unfold cat_size in *.
      by rewrite (cat2_wrap cutout_row _ _ _ Hi),
        (cat2_wrap cutout_col _ _ _ Hi),
        (cat2_wrap dudrow _ _ icutout Hi), (cat2_wrap dudcol _ _ icutout Hi),
        (cat2_wrap dvdrow _ _ icutout Hi), (cat2_wrap dvdcol _ _ icutout Hi),
        (cat2_wrap dudrow _ _ 0 Hi), (cat2_wrap dudcol _ _ 0 Hi),
        (cat2_wrap dvdrow _ _ 0 Hi), (cat2_wrap dvdcol _ _ 0 Hi).
  - intros Hi h icutout type.
    assert (forall ic, _check_indices self iobj ic h = (Raise IndexError, h))
      as Hck.
    { intros ic. unfold _check_indices, cat_size in *.
      destruct (Z.geb_spec iobj (Z.of_nat (length (_cat self)))); [lia|].
      rewrite run_lift_bind. unfold cat1, norm_index.
      destruct (Z.leb_spec 0 iobj); [lia|]. cbn [andb].
      by destruct (Z.leb_spec (- Z.of_nat (length (_cat self))) iobj);
        [lia|]. }
    split.
    + apply get_cutout_check_fails. by rewrite Hck.
    + apply get_mosaic_check_fails. by rewrite Hck.
Qed.

(** *** Negative cutout indices *)

Lemma cat2_negative_cutout {A} (field : cat_row -> list A) cat iobj icutout
    row x :
  0 <= iobj < Z.of_nat (length cat) -> cat !! Z.to_nat iobj = Some row ->
  - Z.of_nat (length (field row)) <= icutout < 0 ->
  field row !! Z.to_nat (icutout + Z.of_nat (length (field row))) = Some x ->
  cat2 field cat iobj icutout = Ok x.
Proof.
  intros Hi Hrow Hic Hx. unfold cat2. rewrite (norm_index_in_range _ _ Hi).
  unfold result_bind. rewrite Hrow, (norm_index_wrap _ _ Hic).
  rewrite norm_index_in_range by lia. by rewrite Hx.
Qed.

(** X7.  The cutout index is only checked against its upper bound, and a
    negative one counts from the end of the [NMAX] catalog slots: for
    [-NMAX <= icutout < 0], [get_cutout] returns the pixels addressed by
    [start_row[iobj, NMAX + icutout]], even when that slot is at or past
    [ncutout], where the same slot asked for by its non-negative index is
    refused. *)
Theorem negative_cutout_index_reads_slot h self iobj icutout type row st ext :
  0 <= iobj < cat_size self -> _cat self !! Z.to_nat iobj = Some row ->
  1 <= ncutout row ->
  let nmax := Z.of_nat (length (start_row row)) in
  - nmax <= icutout < 0 ->
  start_row row !! Z.to_nat (icutout + nmax) = Some st ->
  (exists extname, _get_extension_name type = Ok extname /\
                   fits_ext self extname = Ok ext) ->
  0 <= box_size row -> 0 <= st ->
  st + box_size row * box_size row <= Z.of_nat (length ext) ->
  Z.of_nat (length ext) < 2 ^ 31 ->
  get_cutout self iobj icutout type h
  = (Ok (NdArray (length h) 0
           (Z.to_nat (box_size row)) (Z.to_nat (box_size row))),
     h ++ [take (Z.to_nat (box_size row) * Z.to_nat (box_size row))
             (drop (Z.to_nat st) ext)]) /\
  (ncutout row <= icutout + nmax ->
   get_cutout self iobj (icutout + nmax) type h
   = (Raise (ValueError BadCutoutIndex), h)).
Proof.
  intros Hi Hrow Hn nmax Hic Hst Hext Hb Hs0 Hlen Hi4. split.
  - apply (get_cutout_ok h self iobj icutout type row st ext);
      try done; try lia.
    by apply (cat2_negative_cutout start_row _ _ _ row).
  - intros Hge. apply get_cutout_check_fails.
    unfold _check_indices.
    destruct (Z.geb_spec iobj (cat_size self)); [lia|].
    rewrite run_lift_bind, (cat1_ok _ _ _ row) by done.
    destruct (Z.eqb_spec (ncutout row) 0); [lia|].
    by destruct (Z.geb_spec (icutout + nmax) (ncutout row)); [|lia].
Qed.

(** *** Splitting a mosaic *)

Lemma slice_bound_le n i : (slice_bound n i <= n)%nat.
Proof. unfold slice_bound. destruct (Z.ltb_spec i 0); lia. Qed.

Lemma has_data_slice_rows h a d r1 r2 :
  has_data h a d ->
  let s := slice_bound (nrows a) r1 in
  let e := slice_bound (nrows a) r2 in
  has_data h (slice_rows a r1 r2)
    (take ((e - s) * ncols a) (drop (s * ncols a) d)).
Proof.
  intros (b & Hb & Hlen & ->) s e. unfold nd_size in Hlen.
  pose proof (slice_bound_le (nrows a) r1) as Hs. fold s in Hs.
  pose proof (slice_bound_le (nrows a) r2) as He. fold e in He.
  assert (s * ncols a + (e - s) * ncols a <= nrows a * ncols a)%nat as Hin.
  { rewrite <- Nat.mul_add_distr_r. apply Nat.mul_le_mono_r. lia. }
  exists b. unfold slice_rows, nd_size. cbn [base offset nrows ncols].
  fold s e. split; [done|]. split; [lia|].
  apply list_eq. intros k. rewrite !lookup_take.
  case_decide; [|done].
  rewrite !lookup_drop, lookup_take_lt by lia. rewrite lookup_drop.
  f_equal. lia.
Qed.

(** X8.  [_split_mosaic] cannot fail and cannot reach outside the mosaic,
    whatever [box_size] and [ncutout] are: it returns [max(ncutout, 0)]
    views, each on the buffer of the mosaic, as wide as the mosaic, and
    holding a window of consecutive rows of it (possibly none). *)
Theorem split_mosaic_views_stay_inside h mosaic d box_size ncutout :
  has_data h mosaic d ->
  length (_split_mosaic mosaic box_size ncutout) = Z.to_nat ncutout /\
  forall i (wt : ndarray),
    _split_mosaic mosaic box_size ncutout !! i = Some wt ->
    base wt = base mosaic /\ ncols wt = ncols mosaic /\
    (nrows wt <= nrows mosaic)%nat /\
    exists first,
      (first + nrows wt <= nrows mosaic)%nat /\
      has_data h wt
        (take (nrows wt * ncols mosaic) (drop (first * ncols mosaic) d)).
Proof.
  intros Hd. split.
  - unfold _split_mosaic, xrange. by rewrite !length_fmap, length_seq.
  - intros i wt Hwt. apply split_mosaic_lookup in Hwt as [_ ->].
    pose proof (has_data_slice_rows h mosaic d (Z.of_nat i * box_size)
                  ((Z.of_nat i + 1) * box_size) Hd) as Hsl.
    cbv zeta in Hsl.
    pose proof (slice_bound_le (nrows mosaic) (Z.of_nat i * box_size)).
    pose proof (slice_bound_le (nrows mosaic)
                  ((Z.of_nat i + 1) * box_size)).
    set (s := slice_bound (nrows mosaic) (Z.of_nat i * box_size)) in *.
    set (e := slice_bound (nrows mosaic) ((Z.of_nat i + 1) * box_size)) in *.
    change (slice_rows mosaic (Z.of_nat i * box_size)
              ((Z.of_nat i + 1) * box_size))
      with (NdArray (base mosaic) (offset mosaic + s * ncols mosaic)
              (e - s) (ncols mosaic)) in *.
    cbn [base offset nrows ncols].
    split; [done|]. split; [done|]. split; [lia|].
    exists s. split; [lia|]. exact Hsl.
Qed.

Lemma concat_bands (d : list pixel) q n :
  length d = (n * q)%nat ->
  concat ((fun i => take q (drop (i * q) d)) <$> seq 0 n) = d.
Proof.
  revert d. induction n as [|n IH]; intros d Hlen.
  - by destruct d.
  - cbn [seq]. rewrite fmap_cons. cbn [concat].
    rewrite <- fmap_S_seq, <- list_fmap_compose.
    transitivity (take q d ++ drop q d); [|apply take_drop].
    f_equal.
    etrans; [|apply (IH (drop q d)); rewrite length_drop; lia].
    f_equal. apply list_fmap_ext. intros _ i _. simpl.
    rewrite drop_drop. do 2 f_equal.
Qed.

(** X9.  Splitting loses nothing and duplicates nothing: for a mosaic of
    [ncutout * box_size] rows, the pixels of the views returned by
    [_split_mosaic], in list order, are the pixels of the mosaic. *)
Theorem split_mosaic_covers_mosaic h b off (n nb : nat) d :
  has_data h (NdArray b off (n * nb) nb) d ->
  exists bands,
    Forall2 (has_data h)
      (_split_mosaic (NdArray b off (n * nb) nb) (Z.of_nat nb) (Z.of_nat n))
      bands /\
    concat bands = d.
Proof.
  intros Hd.
  pose proof (has_data_length _ _ _ Hd) as Hlen.
  unfold nd_size in Hlen. cbn [nrows ncols] in Hlen.
  exists ((fun i => take (nb * nb) (drop (i * (nb * nb)) d)) <$> seq 0 n).
  split; [|apply concat_bands; lia].
  apply Forall2_same_length_lookup. split.
  - unfold _split_mosaic, xrange.
    by rewrite !length_fmap, !length_seq, Nat2Z.id.
  - intros i wt di Hwt Hdi.
    apply split_mosaic_lookup in Hwt as [Hi ->]. rewrite Nat2Z.id in Hi.
    rewrite list_lookup_fmap, lookup_seq_lt in Hdi by done.
    injection Hdi as <-. rewrite (slice_rows_band b off n nb i Hi).
    replace (0 + i)%nat with i by done.
    replace (i * (nb * nb))%nat with (i * nb * nb)%nat by lia.
    by apply (has_data_band h b off n).
Qed.

Lemma setitem_ok h a d w v :
  has_data h a d ->
  forallb (fun rc => (rc.1 <? nrows a)%nat && (rc.2 <? ncols a)%nat) w = true ->
  exists b, h !! base a = Some b /\
    setitem a w v h
    = (Ok tt,
       <[base a := splice b (offset a) (setitem_data (ncols a) w v d)]> h).
Proof.
  intros Hd Hw.
  destruct (store_ok h a d (setitem_data (ncols a) w v d) Hd)
    as (b & Hb & Hst);
    [by rewrite length_setitem_data, (has_data_length h a)|].
  exists b. split; [done|]. unfold setitem. rewrite Hw.
  by rewrite run_bind, (load_ok _ _ _ Hd).
Qed.

Lemma split_rows_disjoint rows box (i j : nat) :
  i ≠ j ->
  let s k := slice_bound rows (Z.of_nat k * box) in
  let e k := slice_bound rows ((Z.of_nat k + 1) * box) in
  (e i <= s i)%nat \/ (e j <= s j)%nat \/
  (e i <= s j)%nat \/ (e j <= s i)%nat.
Proof.
  intros Hij s e. unfold s, e, slice_bound.
  destruct (Z.le_gt_cases 0 box) as [Hbox|Hbox].
  - assert (0 <= Z.of_nat i * box) by (apply Z.mul_nonneg_nonneg; lia).
    assert (0 <= Z.of_nat j * box) by (apply Z.mul_nonneg_nonneg; lia).
    destruct (decide (i < j)%nat) as [Hlt|Hge].
    + assert ((Z.of_nat i + 1) * box <= Z.of_nat j * box)
        by (apply Z.mul_le_mono_nonneg_r; lia).
      right. right. left.
      destruct (Z.ltb_spec ((Z.of_nat i + 1) * box) 0),
        (Z.ltb_spec (Z.of_nat j * box) 0); lia.
    + assert ((Z.of_nat j + 1) * box <= Z.of_nat i * box)
        by (apply Z.mul_le_mono_nonneg_r; lia).
      right. right. right.
      destruct (Z.ltb_spec ((Z.of_nat j + 1) * box) 0),
        (Z.ltb_spec (Z.of_nat i * box) 0); lia.
  - assert (forall k : nat, (1 <= k)%nat ->
              (Z.to_nat (Z.max 0 ((Z.of_nat k + 1) * box + Z.of_nat rows))
               <= Z.to_nat (Z.max 0 (Z.of_nat k * box + Z.of_nat rows)))%nat
              /\ Z.of_nat k * box < 0 /\ (Z.of_nat k + 1) * box < 0) as Hneg.
    { intros k Hk.
      assert (Z.of_nat k * box <= 1 * box)
        by (apply Z.mul_le_mono_nonpos_r; lia). lia. }
    destruct (decide (1 <= i)%nat) as [Hi|Hi].
    + left. destruct (Hneg i Hi) as (Hle & H1 & H2).
      destruct (Z.ltb_spec ((Z.of_nat i + 1) * box) 0); [|lia].
      by destruct (Z.ltb_spec (Z.of_nat i * box) 0); [|lia].
    + right. left. destruct (Hneg j ltac:(lia)) as (Hle & H1 & H2).
      destruct (Z.ltb_spec ((Z.of_nat j + 1) * box) 0); [|lia].
      by destruct (Z.ltb_spec (Z.of_nat j * box) 0); [|lia].
Qed.

Lemma splice_nil (b : list pixel) off : splice b off [] = b.
Proof.
  unfold splice. cbn [length app]. rewrite Nat.add_0_r. apply take_drop.
Qed.

(** X10.  The views that [_split_mosaic] returns do not overlap, whatever
    [box_size] and [ncutout] are: an assignment to pixels of the view of
    cutout [i] lands in that view, and leaves the pixels of the view of
    every other cutout [j] unchanged. *)
Theorem split_mosaic_views_disjoint h h' mosaic d box_size ncutout
    (i j : nat) (wi wj : ndarray) (di dj : list pixel) w v :
  has_data h mosaic d ->
  _split_mosaic mosaic box_size ncutout !! i = Some wi ->
  _split_mosaic mosaic box_size ncutout !! j = Some wj ->
  i ≠ j ->
  has_data h wi di -> has_data h wj dj ->
  setitem wi w v h = (Ok tt, h') ->
  has_data h' wi (setitem_data (ncols wi) w v di) /\
  has_data h' wj dj.
Proof.
  intros Hd Hwi Hwj Hij Hdi Hdj Hset.
  apply split_mosaic_lookup in Hwi as [_ ->].
  apply split_mosaic_lookup in Hwj as [_ ->].
  pose proof (split_rows_disjoint (nrows mosaic) box_size i j Hij) as Hdis.
  cbv zeta in Hdis.
  pose proof (slice_bound_le (nrows mosaic) (Z.of_nat i * box_size)) as Hsi.
  pose proof (slice_bound_le (nrows mosaic) ((Z.of_nat i + 1) * box_size))
    as Hei.
  pose proof (slice_bound_le (nrows mosaic) (Z.of_nat j * box_size)) as Hsj.
  pose proof (slice_bound_le (nrows mosaic) ((Z.of_nat j + 1) * box_size))
    as Hej.
  set (si := slice_bound (nrows mosaic) (Z.of_nat i * box_size)) in *.
  set (ei := slice_bound (nrows mosaic) ((Z.of_nat i + 1) * box_size)) in *.
  set (sj := slice_bound (nrows mosaic) (Z.of_nat j * box_size)) in *.
  set (ej := slice_bound (nrows mosaic) ((Z.of_nat j + 1) * box_size)) in *.
  change (slice_rows mosaic (Z.of_nat i * box_size)
            ((Z.of_nat i + 1) * box_size))
    with (NdArray (base mosaic) (offset mosaic + si * ncols mosaic)
            (ei - si) (ncols mosaic)) in *.
  change (slice_rows mosaic (Z.of_nat j * box_size)
            ((Z.of_nat j + 1) * box_size))
    with (NdArray (base mosaic) (offset mosaic + sj * ncols mosaic)
            (ej - sj) (ncols mosaic)) in *.
  set (cols := ncols mosaic) in *.
  set (ai := NdArray (base mosaic) (offset mosaic + si * cols)
               (ei - si) cols) in *.
  destruct (forallb (fun rc => (rc.1 <? nrows ai)%nat
                               && (rc.2 <? ncols ai)%nat) w)
    eqn:Hw; [|by unfold setitem in Hset; rewrite Hw in Hset].
  destruct (setitem_ok h ai di w v Hdi Hw) as (bb & Hbb & Hrun).
  rewrite Hrun in Hset. injection Hset as <-.
  pose proof (has_data_length _ _ _ Hdi) as Hldi.
  destruct Hd as (b0 & Hb0 & Hlen0 & _).
  destruct Hdi as (bi & Hbi & Hleni & Hdi).
  destruct Hdj as (bj & Hbj & Hlenj & ->).
  unfold nd_size in *. cbn [ai base offset nrows ncols] in *.
  rewrite Hbb in Hb0, Hbi, Hbj.
  injection Hb0 as <-. injection Hbi as <-. injection Hbj as <-.
  set (new := setitem_data cols w v di) in *.
  assert (length new = ((ei - si) * cols)%nat) as Hlnew
    by (unfold new; rewrite length_setitem_data; done).
  apply lookup_lt_Some in Hbb as Hlt.
  subst ai. split.
  - exists (splice bb (offset mosaic + si * cols) new).
    unfold nd_size. cbn [base offset nrows ncols].
    rewrite list_lookup_insert_eq by done.
    split; [done|]. split; [rewrite length_splice; lia|].
    rewrite <- Hlnew. symmetry. apply band_splice_same. lia.
  - exists (splice bb (offset mosaic + si * cols) new).
    unfold nd_size. cbn [base offset nrows ncols].
    rewrite list_lookup_insert_eq by done.
    split; [done|]. split; [rewrite length_splice; lia|].
    destruct (decide (ei <= si)%nat) as [Hi0|Hi1].
    { replace new with (@nil pixel)
        by (symmetry; apply length_zero_iff_nil; rewrite Hlnew;
            replace (ei - si)%nat with 0%nat by lia; done).
      by rewrite splice_nil. }
    destruct (decide (ej <= sj)%nat) as [Hj0|Hj1].
    { replace (ej - sj)%nat with 0%nat by lia. done. }
    symmetry. apply band_splice_other; [lia|]. rewrite Hlnew.
    destruct Hdis as [?|[?|[Hle|Hle]]]; [lia|lia| |].
    + right.
      assert ((si + (ei - si)) * cols <= sj * cols)%nat
        by (apply Nat.mul_le_mono_r; lia). lia.
    + left.
      assert ((sj + (ej - sj)) * cols <= si * cols)%nat
        by (apply Nat.mul_le_mono_r; lia). lia.
Qed.

(** *** Jacobians and source files *)

Lemma get_jacobian_ok h self iobj icutout row (a b c e : float) :
  0 <= iobj < cat_size self -> _cat self !! Z.to_nat iobj = Some row ->
  ncutout row ≠ 0 -> 0 <= icutout < ncutout row ->
  dudrow row !! Z.to_nat icutout = Some a ->
  dudcol row !! Z.to_nat icutout = Some b ->
  dvdrow row !! Z.to_nat icutout = Some c ->
  dvdcol row !! Z.to_nat icutout = Some e ->
  get_jacobian self iobj icutout h
  = (Ok (<["dvdrow" := c]> (<["dvdcol" := e]> (<["dudcol" := b]>
           (<["dudrow" := a]> (∅ : gmap string float))))), h).
Proof.
  intros Hi Hrow Hn Hic Ha Hb Hc He. unfold get_jacobian.
  rewrite run_bind, (check_indices_ok h self iobj _ row) by
    (try done; intros ? [= <-]; lia).
  run_lift (cat2_ok dudrow _ _ _ _ _ Hi Hrow (proj1 Hic) Ha).
  run_lift (cat2_ok dudcol _ _ _ _ _ Hi Hrow (proj1 Hic) Hb).
  run_lift (cat2_ok dvdcol _ _ _ _ _ Hi Hrow (proj1 Hic) He).
  run_lift (cat2_ok dvdrow _ _ _ _ _ Hi Hrow (proj1 Hic) Hc).
  done.
Qed.

Lemma mapM_run_lookup {A B} (f : A -> M B) (l : list A) h :
  (forall x, x ∈ l -> exists y, f x h = (Ok y, h)) ->
  exists ys, mapM f l h = (Ok ys, h) /\ length ys = length l /\
    forall i x y, l !! i = Some x -> ys !! i = Some y -> f x h = (Ok y, h).
Proof.
  induction l as [|x l IH]; intros Hf.
  - exists []. split; [done|]. split; [done|]. by intros i x y [=].
  - destruct (Hf x) as [y Hy]; [by left|].
    destruct IH as (ys & Hys & Hlen & Hlook);
      [by intros x' Hx'; apply Hf; right|].
    exists (y :: ys). cbn [mapM]. rewrite run_bind, Hy, run_bind, Hys.
    split; [done|]. split; [by cbn; rewrite Hlen|].
    intros [|i] x' y'; cbn.
    + by intros [= <-] [= <-].
    + apply Hlook.
Qed.

(** X11.  For an object whose Jacobian columns have an entry for each of
    its [ncutout] cutouts, [get_jacobian_list] returns [ncutout] dicts and
    leaves the arrays alone; entry [i] is the dict [get_jacobian] returns
    for cutout [i], and it holds under the keys [dudrow], [dudcol],
    [dvdrow], [dvdcol] the entries [0,0], [0,1], [1,0], [1,1] of the
    matrix [get_jacob_as_matrix] returns for that cutout. *)
Theorem jacobian_list_matches_single_calls h self iobj row :
  0 <= iobj < cat_size self -> _cat self !! Z.to_nat iobj = Some row ->
  1 <= ncutout row ->
  (Z.to_nat (ncutout row) <= length (dudrow row))%nat ->
  (Z.to_nat (ncutout row) <= length (dudcol row))%nat ->
  (Z.to_nat (ncutout row) <= length (dvdrow row))%nat ->
  (Z.to_nat (ncutout row) <= length (dvdcol row))%nat ->
  exists jlist,
    get_jacobian_list self iobj h = (Ok jlist, h) /\
    length jlist = Z.to_nat (ncutout row) /\
    forall i j, jlist !! i = Some j ->
      get_jacobian self iobj (Z.of_nat i) h = (Ok j, h) /\
      exists m,
        get_jacob_as_matrix self iobj (Z.of_nat i) = Ok m /\
        j !! "dudrow" = Some (m00 m) /\ j !! "dudcol" = Some (m01 m) /\
        j !! "dvdrow" = Some (m10 m) /\ j !! "dvdcol" = Some (m11 m).
Proof.
  intros Hi Hrow Hn Ha Hb Hc He.
  assert (forall i : nat, (i < Z.to_nat (ncutout row))%nat ->
    exists (a b c e : float),
      dudrow row !! i = Some a /\ dudcol row !! i = Some b /\
      dvdrow row !! i = Some c /\ dvdcol row !! i = Some e) as Hcols.
  { intros i Hlt.
    destruct (lookup_lt_is_Some_2 (dudrow row) i) as [a Hla]; [lia|].
    destruct (lookup_lt_is_Some_2 (dudcol row) i) as [b Hlb]; [lia|].
    destruct (lookup_lt_is_Some_2 (dvdrow row) i) as [c Hlc]; [lia|].
    destruct (lookup_lt_is_Some_2 (dvdcol row) i) as [e Hle]; [lia|].
    by exists a, b, c, e. }
  assert (forall i : nat, (i < Z.to_nat (ncutout row))%nat ->
    exists (a b c e : float),
      get_jacobian self iobj (Z.of_nat i) h
      = (Ok (<["dvdrow" := c]> (<["dvdcol" := e]> (<["dudcol" := b]>
               (<["dudrow" := a]> (∅ : gmap string float))))), h) /\
      get_jacob_as_matrix self iobj (Z.of_nat i) = Ok (Matrix a b c e))
    as Hone.
  { intros i Hlt. destruct (Hcols i Hlt) as (a & b & c & e & ? & ? & ? & ?).
    exists a, b, c, e. split.
    - apply (get_jacobian_ok h self iobj _ row);
        rewrite ?Nat2Z.id; try done; lia.
    - apply (get_jacob_as_matrix_ok self iobj _ row);
        rewrite ?Nat2Z.id; try done; lia. }
  destruct (mapM_run_lookup (get_jacobian self iobj)
              (xrange (ncutout row)) h) as (jlist & Hrun & Hlen & Hlook).
  { intros x Hx. unfold xrange in Hx.
    apply list_elem_of_fmap in Hx as (i & -> & Hin).
    apply elem_of_seq in Hin.
    destruct (Hone i) as (a & b & c & e & Hj & _); [lia|]. eauto. }
  exists jlist. split; [|split].
  - unfold get_jacobian_list.
    rewrite run_bind, (check_indices_ok h self iobj None row) by
      (try done; lia).
    by run_lift (cat1_ok ncutout (_cat self) iobj row Hi Hrow).
  - rewrite Hlen. unfold xrange. by rewrite length_fmap, length_seq.
  - intros i j Hj.
    assert (i < Z.to_nat (ncutout row))%nat as Hlt.
    { apply lookup_lt_Some in Hj. rewrite Hlen in Hj. unfold xrange in Hj.
      by rewrite length_fmap, length_seq in Hj. }
    assert (xrange (ncutout row) !! i = Some (Z.of_nat i)) as Hxi.
    { unfold xrange. by rewrite list_lookup_fmap, lookup_seq_lt. }
    pose proof (Hlook i _ j Hxi Hj) as Hget. split; [done|].
    destruct (Hone i Hlt) as (a & b & c & e & Hj' & Hm).
    rewrite Hj' in Hget. injection Hget as <-.
    exists (Matrix a b c e). split; [done|]. by vm_compute.
Qed.

(** X12.  [get_jacob_as_matrix] does not validate its indices: for a
    cutout index at or past [ncutout] that still addresses a catalog slot
    it returns the matrix of that slot, where [get_jacobian] raises
    [ValueError]. *)
Theorem jacob_as_matrix_skips_validation h self iobj icutout row (a b c e : float) :
  0 <= iobj < cat_size self -> _cat self !! Z.to_nat iobj = Some row ->
  0 <= icutout -> ncutout row <= icutout ->
  dudrow row !! Z.to_nat icutout = Some a ->
  dudcol row !! Z.to_nat icutout = Some b ->
  dvdrow row !! Z.to_nat icutout = Some c ->
  dvdcol row !! Z.to_nat icutout = Some e ->
  get_jacob_as_matrix self iobj icutout = Ok (Matrix a b c e) /\
  get_jacobian self iobj icutout h
  = (Raise (ValueError (if ncutout row =? 0 then NoCutouts
                        else BadCutoutIndex)), h).
Proof.
  intros Hi Hrow Hic Hge Ha Hb Hc He. split.
  - by apply (get_jacob_as_matrix_ok self iobj icutout row).
  - unfold get_jacobian, _check_indices. rewrite run_bind.
    destruct (Z.geb_spec iobj (cat_size self)); [lia|].
    rewrite run_lift_bind, (cat1_ok _ _ _ row) by done.
    destruct (Z.eqb_spec (ncutout row) 0); [done|].
    by destruct (Z.geb_spec icutout (ncutout row)); [|lia].
Qed.

(** X13.  [get_source_path] and [get_sky_path] of a valid cutout read the
    two fields of one and the same row of the image table, the row
    [file_id[iobj, icutout]], which is also what [get_source_info]
    returns; when [file_id] points outside the table, all three raise
    [IndexError]. *)
Theorem source_and_sky_path_share_row h self image_info iobj icutout row fid :
  0 <= iobj < cat_size self -> _cat self !! Z.to_nat iobj = Some row ->
  0 <= icutout < ncutout row ->
  file_id row !! Z.to_nat icutout = Some fid ->
  (forall info, 0 <= fid -> image_info !! Z.to_nat fid = Some info ->
     get_source_info self image_info iobj icutout h = (Ok info, h) /\
     get_source_path self image_info iobj icutout h
     = (Ok (image_path info), h) /\
     get_sky_path self image_info iobj icutout h
     = (Ok (sky_path info), h)) /\
  (Z.of_nat (length image_info) <= fid \/
   fid < - Z.of_nat (length image_info) ->
     get_source_info self image_info iobj icutout h = (Raise IndexError, h) /\
     get_source_path self image_info iobj icutout h = (Raise IndexError, h) /\
     get_sky_path self image_info iobj icutout h = (Raise IndexError, h)).
Proof.
  intros Hi Hrow Hic Hfid.
  assert (forall r,
    (k ← norm_index (length image_info) fid;
     match image_info !! k with
     | Some info => Ok info
     | None => Raise IndexError
     end) = r ->
    get_source_info self image_info iobj icutout h = (r, h)) as Hinfo.
  { intros r <-. unfold get_source_info.
    rewrite run_bind, (check_indices_ok h self iobj _ row) by
      (try done; try lia; intros ? [= <-]; lia).
    by run_lift (cat2_ok file_id _ _ _ _ _ Hi Hrow (proj1 Hic) Hfid). }
  split.
  - intros info H0 Hlook.
    assert (get_source_info self image_info iobj icutout h = (Ok info, h))
      as Hget.
    { apply Hinfo. apply lookup_lt_Some in Hlook as Hlt.
      rewrite norm_index_in_range by lia. by rewrite result_bind_ok, Hlook. }
    split; [done|].
    unfold get_source_path, get_sky_path. by rewrite !run_bind, Hget.
  - intros Hout.
    assert (get_source_info self image_info iobj icutout h
            = (Raise IndexError, h)) as Hget.
    { apply Hinfo. unfold norm_index.
      destruct (Z.leb_spec 0 fid),
        (Z.ltb_spec fid (Z.of_nat (length image_info))),
        (Z.leb_spec (- Z.of_nat (length image_info)) fid),
        (Z.ltb_spec fid 0);
        cbn; try done; lia. }
    split; [done|].
    unfold get_source_path, get_sky_path. by rewrite !run_bind, Hget.
Qed.

(** *** Composite weights of a whole object *)

Lemma take_drop_take (l : list pixel) s q m k :
  (k + q <= m)%nat ->
  take q (drop k (take m (drop s l))) = take q (drop (s + k) l).
Proof.
  intros Hk. apply list_eq. intros i. rewrite !lookup_take.
  case_decide; [|done].
  rewrite lookup_drop, lookup_take_lt, !lookup_drop by lia.
  f_equal. lia.
Qed.

(** X14.  The two ways to the composite weight of cutout [i] agree.  For
    an object whose cutouts lie back to back in the weight and seg
    extensions, with [start_row[iobj, i]] pointing at cutout [i]: when
    [get_cweight_cutout_list(iobj)] returns, its element [i] is a
    [box_size] x [box_size] view on the composite mosaic, and
    [get_cweight_cutout(iobj, i)] returns an array of that shape holding
    the same pixels. *)
Theorem cweight_list_agrees_with_cweight_cutout h self iobj row start
    extw exts i l hl :
  object_stored self iobj "weight" row start extw ->
  object_stored self iobj "seg" row start exts ->
  (i < Z.to_nat (ncutout row))%nat ->
  start_row row !! i
  = Some (start + Z.of_nat i * (box_size row * box_size row)) ->
  get_cweight_cutout_list zero ne getI self iobj h = (Ok l, hl) ->
  let nb := Z.to_nat (box_size row) in
  exists wt cwt hc dc,
    l !! i = Some wt /\
    get_cweight_cutout zero ne getI self iobj (Z.of_nat i) h = (Ok cwt, hc) /\
    nrows wt = nb /\ ncols wt = nb /\ nrows cwt = nb /\ ncols cwt = nb /\
    has_data hl wt dc /\ has_data hc cwt dc.
Proof.
  intros Hobjw Hobjs Hin Hst Hrun nb.
  unfold get_cweight_cutout_list in Hrun. rewrite run_bind in Hrun.
  destruct (get_cweight_mosaic zero ne getI self iobj h)
    as [[m|e] h'] eqn:Hmos; [|done].
  destruct (get_cweight_mosaic_inv h self iobj row start extw exts m h'
              Hobjw Hobjs Hmos) as (-> & Dm' & HDm' & Hlen' & Hcomp).
  destruct (object_stored_sizes _ _ _ _ _ _ Hobjw)
    as (Hbox & Hnc & Hpos & Hnb & Hbb & Hbbn & Hext).
  destruct (object_stored_sizes _ _ _ _ _ _ Hobjs)
    as (_ & _ & _ & _ & _ & _ & Hexts).
  fold nb in Hbox, Hnb, Hbb, Hbbn, Hext, Hexts, Hcomp, Hlen', Hrun.
  set (n := Z.to_nat (ncutout row)) in *.
  pose proof Hobjw as (Hi & Hrow & Hn & Hb & _ & Hs0 & Hname & Hlen & Hi4).
  rewrite run_lift_bind, (cat1_ok ncutout _ _ row Hi Hrow) in Hrun.
  rewrite run_lift_bind, (cat1_ok box_size _ _ row Hi Hrow) in Hrun.
  cbv zeta in Hrun. rewrite run_ret in Hrun. injection Hrun as <- <-.
  rewrite Hbox, Hnc, split_mosaic_bands.
  pose proof (band_bound i n (nb * nb) Hin) as Hib.
  assert (Z.of_nat (nb * nb) = box_size row * box_size row) as Hq by lia.
  assert (Z.of_nat i * (box_size row * box_size row)
          = Z.of_nat (i * (nb * nb))) as Hoff by lia.
  (* the single call *)
  pose proof (get_cutout_ok h self iobj (Z.of_nat i) "weight" row
                (start + Z.of_nat i * (box_size row * box_size row)) extw
                Hi Hrow) as Hcut.
  rewrite Hoff in Hcut, Hst. fold nb in Hcut.
  set (dwi := take (nb * nb)
                (drop (Z.to_nat (start + Z.of_nat (i * (nb * nb)))) extw))
    in *.
  pose proof (get_cutout_0_ok (h ++ [dwi]) _ _ _ _ _ _ Hobjs) as Hseg.
  fold nb in Hseg. rewrite Hbb in Hseg.
  set (ds := take (nb * nb) (drop (Z.to_nat start) exts)) in *.
  set (wt1 := NdArray (length h) 0 nb nb) in *.
  set (seg := NdArray (length (h ++ [dwi])) 0 nb nb) in *.
  assert (length dwi = (nb * nb)%nat) as Hldw
    by (unfold dwi; rewrite length_take, length_drop; lia).
  assert (length ds = (nb * nb)%nat) as Hlds
    by (unfold ds; rewrite length_take, length_drop; lia).
  assert (has_data ((h ++ [dwi]) ++ [ds]) wt1 dwi) as Hw
    by (by apply has_data_app, has_data_fresh).
  assert (has_data ((h ++ [dwi]) ++ [ds]) seg ds) as Hs
    by (by apply has_data_fresh).
  pose proof (make_composite_weight_run _ self iobj (Z.of_nat i) wt1 seg
                dwi ds Hw Hs) as Hm. cbv zeta in Hm.
  cbn [wt1 seg nrows ncols] in Hm.
  specialize (Hcomp i Hin).
  rewrite take_drop_take in Hcomp by lia.
  replace (Z.to_nat start + i * nb * nb)%nat
    with (Z.to_nat (start + Z.of_nat (i * (nb * nb)))) in Hcomp by lia.
  fold dwi ds in Hcomp. rewrite Hcomp in Hm.
  set (dc := take (nb * nb) (drop (i * nb * nb) Dm')) in *.
  eexists (NdArray (length h) (i * nb * nb) nb nb), _, _, dc.
  split; [by rewrite list_lookup_fmap, lookup_seq_lt|].
  split.
  { unfold get_cweight_cutout.
    rewrite run_bind, Hcut; try done; try lia;
      [|apply (cat2_ok start_row _ _ _ row); try done; try lia;
        by rewrite Nat2Z.id].
    fold wt1. rewrite run_bind, Hseg. fold seg.
    rewrite run_bind, Hm. by rewrite run_ret. }
  split; [done|]. split; [done|]. split; [done|]. split; [done|].
  split.
  - exists Dm'. unfold nd_size. cbn [base offset nrows ncols].
    split; [done|]. split; [lia|done].
  - apply has_data_fresh. unfold dc. rewrite length_take, length_drop. lia.
Qed.

(** X15.  [get_cweight_mosaic] only ever zeroes pixels: for an object
    whose cutouts lie back to back in the weight and seg extensions, when
    it returns, each pixel of the mosaic it returns is the pixel
    [get_mosaic(iobj, type='weight')] has at that position, or zero, and
    the mosaic has the same shape. *)
Theorem cweight_mosaic_keeps_or_zeroes h self iobj row start extw exts m h' :
  object_stored self iobj "weight" row start extw ->
  object_stored self iobj "seg" row start exts ->
  get_cweight_mosaic zero ne getI self iobj h = (Ok m, h') ->
  exists mosaic hm,
    get_mosaic self iobj "weight" h = (Ok mosaic, hm) /\
    nrows m = nrows mosaic /\ ncols m = ncols mosaic /\
    forall r c, (r < nrows mosaic)%nat -> (c < ncols mosaic)%nat ->
      exists x y,
        getitem mosaic (Z.of_nat r) (Z.of_nat c) hm = (Ok x, hm) /\
        getitem m (Z.of_nat r) (Z.of_nat c) h' = (Ok y, h') /\
        (y = x \/ y = zero).
Proof.
  intros Hobjw Hobjs Hrun.
  destruct (get_cweight_mosaic_inv h self iobj row start extw exts m h'
              Hobjw Hobjs Hrun) as (-> & Dm' & HDm' & Hlen' & Hcomp).
  pose proof (get_mosaic_ok h _ _ _ _ _ _ Hobjw) as Hmos.
  destruct (object_stored_sizes _ _ _ _ _ _ Hobjw)
    as (Hbox & Hnc & Hpos & Hnb & Hbb & Hbbn & Hext).
  set (nb := Z.to_nat (box_size row)) in *.
  set (n := Z.to_nat (ncutout row)) in *.
  rewrite Hnb, Hbbn in Hmos.
  set (dm := take (n * (nb * nb)) (drop (Z.to_nat start) extw)) in *.
  set (mosaic := NdArray (length h) 0 (n * nb) nb) in *.
  assert (length dm = (n * nb * nb)%nat) as Hldm
    by (unfold dm; rewrite length_take, length_drop; lia).
  assert (has_data (h ++ [dm]) mosaic dm) as Hdm
    by (by apply has_data_fresh).
  assert (has_data h' mosaic Dm') as Hdm'.
  { exists Dm'. unfold nd_size. cbn [mosaic base offset nrows ncols].
    split; [done|]. split; [lia|].
    by rewrite drop_0, take_ge by lia. }
  exists mosaic, (h ++ [dm]). split; [done|]. split; [done|]. split; [done|].
  cbn [mosaic nrows ncols]. intros r c Hr Hc.
  destruct (getitem_in_range _ _ _ r c Hdm Hr Hc) as (x & Hx & Hgx).
  destruct (getitem_in_range _ _ _ r c Hdm' Hr Hc) as (y & Hy & Hgy).
  exists x, y. split; [done|]. split; [done|].
  cbn [mosaic ncols] in Hx, Hy.
  (* the cutout that row [r] of the mosaic belongs to *)
  assert (0 < nb)%nat as Hnbpos by lia.
  set (j := (r / nb)%nat). set (r' := (r mod nb)%nat).
  assert (r = j * nb + r')%nat as Hrj
    by (unfold j, r'; rewrite (Nat.mul_comm (r / nb) nb);
        apply Nat.div_mod_eq).
  assert (r' < nb)%nat as Hr' by (apply Nat.mod_upper_bound; lia).
  assert (j < n)%nat as Hj.
  { apply Nat.Div0.div_lt_upper_bound. lia. }
  pose proof (band_bound j n (nb * nb) Hj) as Hjb.
  pose proof (band_bound r' nb nb Hr') as Hrb.
  assert (length (take (nb * nb) (drop (j * nb * nb) dm)) = (nb * nb)%nat)
    as Hlj by (rewrite length_take, length_drop; lia).
  destruct (composite_data_old_or_zero self iobj (Z.of_nat j) nb nb nb nb
              _ _ _ Hlj (Hcomp j Hj)) as [_ Hold].
  specialize (Hold (r' * nb + c)%nat).
  rewrite !lookup_take_lt, !lookup_drop in Hold by lia.
  replace (j * nb * nb + (r' * nb + c))%nat with (r * nb + c)%nat
    in Hold by lia.
  rewrite Hx, Hy in Hold. destruct Hold as [[= ->]|[= ->]]; auto.
Qed.

(** *** Compositing twice *)

Lemma setitem_data_lookup_flat cols w v d k :
  setitem_data cols w v d !! k
  = if decide (k ∈ (fun rc : nat * nat => (rc.1 * cols + rc.2)%nat) <$> w)
    then (fun _ => v) <$> d !! k
    else d !! k.
Proof.
  unfold setitem_data. revert d.
  induction w as [|rc w IH]; intros d; cbn [foldl].
  - case_decide as Hin; [by apply elem_of_nil in Hin|done].
  - rewrite IH, fmap_cons.
    destruct (decide (k = rc.1 * cols + rc.2)%nat) as [->|Hne].
    + rewrite (decide_True (P := _ ∈ _ :: _)) by (by left).
      destruct (decide (rc.1 * cols + rc.2 < length d)%nat) as [Hlt|Hge].
      * rewrite list_lookup_insert_eq by done.
        destruct (lookup_lt_is_Some_2 d _ Hlt) as [x ->].
        by case_decide.
      * rewrite list_insert_ge by lia.
        rewrite lookup_ge_None_2 by lia. by case_decide.
    + rewrite list_lookup_insert_ne by done.
      destruct (decide (k ∈ _ <$> w)) as [Hin|Hnin].
      * by rewrite decide_True by (by right).
      * rewrite decide_False; [done|].
        intros [?|?]%elem_of_cons; done.
Qed.

Lemma setitem_data_twice cols w1 w2 v d :
  setitem_data cols w2 v (setitem_data cols w1 v
    (setitem_data cols w2 v (setitem_data cols w1 v d)))
  = setitem_data cols w2 v (setitem_data cols w1 v d).
Proof.
  apply list_eq. intros k. rewrite !setitem_data_lookup_flat.
  repeat case_decide; by destruct (d !! k).
Qed.

Lemma setitem_data_idem cols w v d :
  setitem_data cols w v (setitem_data cols w v d) = setitem_data cols w v d.
Proof.
  apply list_eq. intros k. rewrite !setitem_data_lookup_flat.
  repeat case_decide; by destruct (d !! k).
Qed.

Lemma composite_data_idem self iobj icutout rows cols srows scols
    (dw ds dc : list pixel) :
  composite_data zero ne getI self iobj icutout rows cols srows scols dw ds
  = Ok dc ->
  composite_data zero ne getI self iobj icutout rows cols srows scols dc ds
  = Ok dc.
Proof.
  unfold composite_data.
  destruct (cat2 cutout_row _ _ _) as [x|]; [|done].
  rewrite !result_bind_ok.
  destruct (cat2 cutout_col _ _ _) as [y|]; [|done].
  rewrite !result_bind_ok.
  destruct (item_f _ _ _ _ _) as [segid|]; [|done].
  rewrite !result_bind_ok.
  destruct (decide (icutout = 0)).
  - destruct (forallb _ _); [|done]. intros [= <-].
    by rewrite setitem_data_idem.
  - destruct (get_jacob_as_matrix self iobj icutout) as [se|]; [|done].
    rewrite !result_bind_ok.
    destruct (get_jacob_as_matrix self iobj 0) as [cj|]; [|done].
    rewrite !result_bind_ok.
    destruct (getI cj) as [cjinv|]; [|done].
    cbv zeta.
    match goal with
    | |- context [mapM ?f ?l] => destruct (mapM f l) as [segs|]
    end; [|done].
    rewrite !result_bind_ok. intros [= <-].
    by rewrite setitem_data_twice.
Qed.

(** X16.  Compositing is idempotent: the masks depend on the seg cutout
    and the catalog only, not on the weights, so passing the array that
    [_make_composite_weight] returned through it again, with the same seg
    cutout, returns an array with the same pixels. *)
Theorem composite_weight_idempotent h self iobj icutout wt seg dw ds cwt h1 :
  has_data h wt dw -> has_data h seg ds ->
  _make_composite_weight zero ne getI self iobj icutout wt seg h
  = (Ok cwt, h1) ->
  exists cwt2 h2 dc,
    _make_composite_weight zero ne getI self iobj icutout cwt seg h1
    = (Ok cwt2, h2) /\
    has_data h1 cwt dc /\ has_data h2 cwt2 dc /\
    nrows cwt2 = nrows wt /\ ncols cwt2 = ncols wt.
Proof.
  intros Hw Hs Hrun.
  pose proof (make_composite_weight_run h self iobj icutout wt seg dw ds
                Hw Hs) as Hm. cbv zeta in Hm.
  destruct (composite_data zero ne getI self iobj icutout
              (nrows wt) (ncols wt) (nrows seg) (ncols seg) dw ds)
    as [dc|e] eqn:Hcomp; [|by destruct Hm as [? Hm]; rewrite Hm in Hrun].
  rewrite Hm in Hrun. injection Hrun as <- <-.
  pose proof (has_data_length _ _ _ Hw) as Hlw. unfold nd_size in Hlw.
  destruct (composite_data_old_or_zero _ _ _ _ _ _ _ _ _ _ Hlw Hcomp)
    as [Hlc _].
  assert (has_data (h ++ [dc])
            (NdArray (length h) 0 (nrows wt) (ncols wt)) dc) as Hc
    by (apply has_data_fresh; lia).
  pose proof (make_composite_weight_run (h ++ [dc]) self iobj icutout
                (NdArray (length h) 0 (nrows wt) (ncols wt)) seg dc ds
                Hc (has_data_app _ [dc] _ _ Hs)) as Hm2.
  cbv zeta in Hm2. cbn [nrows ncols] in Hm2.
  rewrite (composite_data_idem _ _ _ _ _ _ _ _ _ _ Hcomp) in Hm2.
  eexists _, _, dc. split; [exact Hm2|]. split; [done|].
  split; [|done]. apply has_data_fresh. lia.
Qed.

(** X17.  Only [ncutout == 0] is refused: an object whose [ncutout] entry
    is negative passes [_check_indices] when no cutout index is given,
    and [get_jacobian_list] returns the empty list for it. *)
Theorem negative_ncutout_passes_check h self iobj row :
  0 <= iobj < cat_size self -> _cat self !! Z.to_nat iobj = Some row ->
  ncutout row < 0 ->
  _check_indices self iobj None h = (Ok tt, h) /\
  get_jacobian_list self iobj h = (Ok [], h).
Proof.
  intros Hi Hrow Hn.
  assert (_check_indices self iobj None h = (Ok tt, h)) as Hck
    by (apply (check_indices_ok h self iobj None row); try done; lia).
  split; [done|]. unfold get_jacobian_list. rewrite run_bind, Hck.
  run_lift (cat1_ok ncutout (_cat self) iobj row Hi Hrow).
  unfold xrange. by replace (Z.to_nat (ncutout row)) with 0%nat by lia.
Qed.

(** *** The composite accessors return *)

(** X18.  The composite accessors return for a well-formed object: when
    its cutouts lie back to back in the weight and seg extensions, every
    cutout has its four Jacobian entries, and every cutout centre, with
    its fraction dropped, is a pixel position of the cutout, then
    [get_cweight_mosaic] returns a mosaic of [ncutout * box_size] rows and
    [get_cweight_cutout_list] returns [ncutout] arrays. *)
Theorem cweight_accessors_return h self iobj row start extw exts :
  object_stored self iobj "weight" row start extw ->
  object_stored self iobj "seg" row start exts ->
  (forall i, (i < Z.to_nat (ncutout row))%nat ->
     (exists rowcen colcen ri ci,
        cutout_row row !! i = Some rowcen /\
        cutout_col row !! i = Some colcen /\
        index_of_float rowcen = Ok ri /\ index_of_float colcen = Ok ci /\
        0 <= ri < box_size row /\ 0 <= ci < box_size row) /\
     (exists j00 j01 j10 j11 : float,
        dudrow row !! i = Some j00 /\ dudcol row !! i = Some j01 /\
        dvdrow row !! i = Some j10 /\ dvdcol row !! i = Some j11)) ->
  (exists m h',
     get_cweight_mosaic zero ne getI self iobj h = (Ok m, h') /\
     nrows m = (Z.to_nat (ncutout row) * Z.to_nat (box_size row))%nat /\
     ncols m = Z.to_nat (box_size row)) /\
  (exists l h',
     get_cweight_cutout_list zero ne getI self iobj h = (Ok l, h') /\
     length l = Z.to_nat (ncutout row)).
Proof.
  intros Hobjw Hobjs Hwf.
  destruct (get_cweight_mosaic_returns h self iobj row start extw exts
              Hobjw Hobjs Hwf) as [H' Hrun].
  pose proof Hobjw as (Hi & Hrow & _).
  split.
  - by eexists _, H'.
  - eexists _, H'. split.
    + unfold get_cweight_cutout_list. rewrite run_bind, Hrun.
      rewrite run_lift_bind, (cat1_ok ncutout _ _ row Hi Hrow).
      rewrite run_lift_bind, (cat1_ok box_size _ _ row Hi Hrow).
      cbv zeta. by rewrite run_ret.
    + unfold _split_mosaic, xrange. by rewrite !length_fmap, length_seq.
Qed.

(** *** What the first mask of the SE branch does catch *)

Lemma wbad_mask_true shape0 shape1 crow ccol :
  wbad_mask shape0 shape1 crow ccol = true <->
  crow < 0 \/ shape1 <= ccol \/ (shape0 <= crow /\ ccol < 0).
Proof.
  unfold wbad_mask.
  destruct (Z.ltb_spec crow 0), (Z.geb_spec crow shape0),
    (Z.ltb_spec ccol 0), (Z.geb_spec ccol shape1); cbn; split;
    try done; try lia; auto.
Qed.

(** X19.  In the SE frame, with an invertible coadd Jacobian, a pixel
    whose truncated coadd position has a negative row, or a column at or
    past the width of the seg cutout, or both a row at or past its height
    and a negative column, is zero in the array that
    [_make_composite_weight] returns, whatever the seg cutout holds. *)
Theorem se_frame_zeroes_flagged_pixels h self iobj icutout wt seg dw ds
    rowcen colcen se_jacob coadd_jacob cjinv cwt h' :
  has_data h wt dw -> has_data h seg ds ->
  icutout ≠ 0 ->
  cat2 cutout_row (_cat self) iobj icutout = Ok rowcen ->
  cat2 cutout_col (_cat self) iobj icutout = Ok colcen ->
  get_jacob_as_matrix self iobj icutout = Ok se_jacob ->
  get_jacob_as_matrix self iobj 0 = Ok coadd_jacob ->
  getI coadd_jacob = Some cjinv ->
  _make_composite_weight zero ne getI self iobj icutout wt seg h
  = (Ok cwt, h') ->
  exists dc,
    has_data h' cwt dc /\
    forall r c, (r < nrows wt)%nat -> (c < ncols wt)%nat ->
      let p := se_to_coadd rowcen colcen rowcen colcen se_jacob cjinv r c in
      p.1 < 0 \/ Z.of_nat (ncols seg) <= p.2 \/
      (Z.of_nat (nrows seg) <= p.1 /\ p.2 < 0) ->
      dc !! (r * ncols wt + c)%nat = Some zero.
Proof.
  intros Hw Hs Hic Hrc Hcc Hse Hcj Hinv Hrun.
  pose proof (has_data_length _ _ _ Hw) as Hlw. unfold nd_size in Hlw.
  pose proof (make_composite_weight_run h self iobj icutout wt seg dw ds
                Hw Hs) as Hm. cbv zeta in Hm.
  destruct (composite_data zero ne getI self iobj icutout
              (nrows wt) (ncols wt) (nrows seg) (ncols seg) dw ds)
    as [dc|e] eqn:Hcomp; [|by destruct Hm as [? Hm]; rewrite Hm in Hrun].
  rewrite Hm in Hrun. injection Hrun as <- <-.
  destruct (composite_data_old_or_zero _ _ _ _ _ _ _ _ _ _ Hlw Hcomp)
    as [Hlc _].
  exists dc. split; [apply has_data_fresh; lia|].
  intros r c Hr Hc p Hflag.
  unfold composite_data in Hcomp.
  rewrite Hrc, result_bind_ok, Hcc, result_bind_ok in Hcomp.
  destruct (item_f _ _ _ _ _) as [segid|]; [|done].
  rewrite result_bind_ok, decide_False in Hcomp by done.
  rewrite Hse, result_bind_ok, Hcj, result_bind_ok, Hinv in Hcomp.
  cbv zeta in Hcomp.
  match type of Hcomp with
  | context [mapM ?f ?l] => destruct (mapM f l) as [segs|]
  end; [|done].
  rewrite result_bind_ok in Hcomp. injection Hcomp as <-.
  destruct (lookup_grid dw _ _ r c Hlw Hr Hc) as [x Hx].
  assert (forall mask rc, rc ∈ where_mask (nrows wt) (ncols wt) mask ->
            (rc.2 < ncols wt)%nat) as Hin.
  { intros mask [r' c'] Hrc'.
    by apply elem_of_where_mask in Hrc' as (_ & ? & _). }
  match goal with
  | |- setitem_data _ ?w2 _ (setitem_data _ ?w1 _ _) !! ?k = _ =>
      destruct (setitem_data_old_or_new (ncols wt) w2 zero
                  (setitem_data (ncols wt) w1 zero dw) k) as [H2|H2];
      [rewrite H2|done]
  end.
  erewrite setitem_data_lookup; [|by apply Hin|done|exact Hx].
  rewrite decide_True; [done|].
  apply elem_of_where_mask. split; [done|]. split; [done|].
  by apply wbad_mask_true.
Qed.

End Proofs.

Lemma demo_wt_data : has_data demo_heap demo_wt [6; 6; 6; 6].
Proof. exists [6; 6; 6; 6]. repeat split. vm_compute. lia. Defined.

Lemma demo_seg_data : has_data demo_heap demo_seg [1; 1; 1; 1].
Proof. exists [1; 1; 1; 1]. repeat split. vm_compute. lia. Defined.

Lemma scaled_weight_stored :
  object_stored scaled_meds 0 "weight" scaled_row 0 (weight_cutouts scaled_meds).
Proof.
  unfold object_stored.
  repeat split; try (vm_compute; congruence); try done.
  by exists "weight_cutouts".
Defined.

Lemma scaled_seg_stored :
  object_stored scaled_meds 0 "seg" scaled_row 0 (seg_cutouts scaled_meds).
Proof.
  unfold object_stored.
  repeat split; try (vm_compute; congruence); try done.
  by exists "seg_cutouts".
Defined.

(** ** The claims at concrete inputs *)

(** C1.  In [scaled_meds] SE pixel [(1, 0)] of cutout 1 maps to coadd
    position [(2, 0)], whose row is outside the 2x2 seg cutout while its
    column is inside; the first mask does not flag it, and the weight
    returned there is 6, not zero. *)
Theorem out_of_bounds_row_keeps_weight :
  get_jacob_as_matrix scaled_meds 0 1 = Ok (Matrix 2 0 0 2) /\
  inv2x2 (Matrix 1 0 0 1) = Some (Matrix 1 (-0) (-0) 1) /\
  se_to_coadd 0 0 0 0 (Matrix 2 0 0 2) (Matrix 1 (-0) (-0) 1) 1 0 = (2, 0) /\
  wbad_mask 2 2 2 0 = false /\
  get_cweight_cutout 0 zne inv2x2 scaled_meds 0 1 []
  = (Ok (NdArray 2 0 2 2), [[6; 6; 6; 6]; [1; 1; 1; 1]; [6; 0; 6; 0]]).
Proof. vm_compute. repeat split. Qed.

(** C2, as stated, fails.  In [stretched_meds] SE pixel [(1, 0)] of cutout
    1 maps to row 1.75; [astype('i8')] makes it 1, which is not a nearest
    integer (2 is), and the pixel keeps its weight because row 1 is inside
    the seg cutout. *)
Lemma se_frame_coordinates_not_rounded :
  let cjinv := Matrix 1 (-0) (-0) 1 in
  let xy := se_to_coadd_float 0 0 0 0 (Matrix 1.75 0 0 1.75) cjinv 1 0 in
  get_jacob_as_matrix stretched_meds 0 1 = Ok (Matrix 1.75 0 0 1.75) /\
  inv2x2 (Matrix 1 0 0 1) = Some cjinv /\
  xy.1 = 1.75%float /\
  se_to_coadd 0 0 0 0 (Matrix 1.75 0 0 1.75) cjinv 1 0 = (1, 0) /\
  ~ nearest_to xy.1 1 /\ nearest_to xy.1 2 /\
  get_cweight_cutout 0 zne inv2x2 stretched_meds 0 1 []
  = (Ok (NdArray 2 0 2 2), [[6; 6; 6; 6]; [1; 1; 1; 1]; [6; 6; 6; 6]]).
Proof.
  cbv zeta. repeat split; try (vm_compute; reflexivity).
  - intros (n & dn & Hr & Hle). vm_compute in Hr. injection Hr as <- <-.
    lia.
  - eexists _, _. split; [vm_compute; reflexivity|]. lia.
Qed.

(** C6, as stated, fails.  In [offcentre_meds] the centre is
    [(0.75, 0.75)]; the label read is the one at [(0, 0)], namely 1, whereas
    the only integer nearest to 0.75 is 1 and the label at [(1, 1)] is 4.
    The composite weight keeps pixel [(0, 0)] only. *)
Lemma segid_centre_not_rounded :
  segid_of offcentre_meds 0 0 (NdArray 0 0 2 2) [[1; 2; 3; 4]]
  = (Ok 1, [[1; 2; 3; 4]]) /\
  (forall i j, nearest_to 0.75 i -> nearest_to 0.75 j ->
     item 2 2 [1; 2; 3; 4] (i, j) = Ok 4) /\
  get_cweight_cutout 0 zne inv2x2 offcentre_meds 0 0 []
  = (Ok (NdArray 2 0 2 2), [[5; 5; 5; 5]; [1; 2; 3; 4]; [5; 0; 0; 0]]).
Proof.
  repeat split; try (vm_compute; reflexivity).
  intros i j (n & dn & Hr & Hle) (n' & dn' & Hr' & Hle').
  vm_compute in Hr, Hr'. injection Hr as <- <-. injection Hr' as <- <-.
  assert (i = 1) as -> by lia. assert (j = 1) as -> by lia.
  reflexivity.
Qed.

(** C4, as stated, fails.  [scaled_meds] has one object: object index -1
    and cutout index -1 pass validation, and object index 1 is rejected
    with [ValueError], not [IndexError]. *)
Lemma check_indices_accepts_negative :
  _check_indices scaled_meds (-1) None [] = (Ok tt, []) /\
  _check_indices scaled_meds 0 (Some (-1)) [] = (Ok tt, []) /\
  _check_indices scaled_meds 1 None []
  = (Raise (ValueError BadObjectIndex), []).
Proof. repeat split. Qed.

(** *** Instances of the general theorems *)

Lemma composite_weight_unchanged_or_zero_witness :
  exists dc, has_data (demo_heap ++ [[6; 0; 6; 0]]) (NdArray 2 0 2 2) dc /\
             length dc = 4%nat.
Proof.
  destruct (composite_weight_unchanged_or_zero 0 zne inv2x2
              demo_heap scaled_meds 0 1
              demo_wt demo_seg [6; 6; 6; 6] [1; 1; 1; 1]
              demo_wt_data demo_seg_data) as [Hpart _].
  destruct (Hpart (NdArray 2 0 2 2) (demo_heap ++ [[6; 0; 6; 0]]))
    as (_ & _ & dc & Hd & Hl & _); [vm_compute; reflexivity|].
  exists dc. split; [exact Hd|exact Hl].
Defined.

Lemma composite_weight_preserves_inputs_witness :
  has_data
    (_make_composite_weight 0 zne inv2x2 scaled_meds 0 1
       demo_wt demo_seg demo_heap).2
    demo_wt [6; 6; 6; 6] /\
  exists l,
    (get_cweight_cutout 0 zne inv2x2 scaled_meds 0 1 []).2 = [] ++ l.
Proof.
  destruct (composite_weight_preserves_inputs 0 zne inv2x2
              demo_heap scaled_meds 0 1) as [Hm _].
  destruct (Hm demo_wt demo_seg _ _ demo_wt_data demo_seg_data)
    as (_ & Hw & _).
  split; [exact Hw|].
  exact (proj2 (composite_weight_preserves_inputs 0 zne inv2x2
                  [] scaled_meds 0 1)).
Defined.

Lemma composite_weight_reference_frame_witness :
  exists cwt dc,
    _make_composite_weight 0 zne inv2x2 scaled_meds 0 0
      demo_wt demo_seg demo_heap
    = (Ok cwt, demo_heap ++ [dc]) /\
    nrows cwt = 2%nat /\ ncols cwt = 2%nat.
Proof.
  destruct (composite_weight_reference_frame 0 zne inv2x2
              demo_heap scaled_meds 0 demo_wt demo_seg
              [6; 6; 6; 6] [1; 1; 1; 1] 1
              demo_wt_data demo_seg_data)
    as (cwt & dc & Hrun & _ & Hr & Hc & _);
    [reflexivity|reflexivity|vm_compute; reflexivity|].
  exists cwt, dc. split; [exact Hrun|]. split; [exact Hr|exact Hc].
Defined.

Lemma composite_weight_singular_jacobian_witness :
  exists cwt dc,
    _make_composite_weight 0 zne inv2x2 degenerate_meds 0 1
      demo_wt demo_seg demo_heap
    = (Ok cwt, demo_heap ++ [dc]) /\
    dc !! 3%nat = Some 0.
Proof.
  destruct (composite_weight_singular_jacobian 0 zne inv2x2
              demo_heap degenerate_meds 0 1 demo_wt demo_seg
              [6; 6; 6; 6] [1; 1; 1; 1] 1
              (Matrix 1 0 0 1) (Matrix 0 0 0 0)
              demo_wt_data demo_seg_data)
    as (cwt & dc & Hrun & _ & _ & _ & _ & Hz);
    [lia|vm_compute; reflexivity|vm_compute; reflexivity
     |vm_compute; reflexivity|vm_compute; reflexivity|].
  exists cwt, dc. split; [exact Hrun|]. apply Hz. vm_compute. lia.
Defined.

Lemma composite_weight_se_frame_witness :
  exists cwt dc,
    _make_composite_weight 0 zne inv2x2 scaled_meds 0 1
      demo_wt demo_seg demo_heap
    = (Ok cwt, demo_heap ++ [dc]) /\
    has_data (demo_heap ++ [dc]) cwt dc.
Proof.
  destruct (composite_weight_se_frame 0 zne inv2x2
              demo_heap scaled_meds 0 1 demo_wt demo_seg
              [6; 6; 6; 6] [1; 1; 1; 1] 1 0%float 0%float
              (Matrix 2 0 0 2) (Matrix 1 0 0 1) (Matrix 1 (-0) (-0) 1)
              demo_wt_data demo_seg_data)
    as (cwt & dc & Hrun & Hd & _);
    [lia|vm_compute; reflexivity|vm_compute; reflexivity
     |vm_compute; reflexivity|vm_compute; reflexivity
     |vm_compute; reflexivity|vm_compute; reflexivity|].
  exists cwt, dc. split; [exact Hrun|exact Hd].
Defined.

Lemma segid_at_truncated_centre_witness :
  exists row_c col_c i j,
    cat2 cutout_row (_cat offcentre_meds) 0 0 = Ok row_c /\
    cat2 cutout_col (_cat offcentre_meds) 0 0 = Ok col_c /\
    truncation_of row_c i /\ truncation_of col_c j.
Proof.
  destruct (segid_at_truncated_centre [[1; 2; 3; 4]] [[1; 2; 3; 4]]
              offcentre_meds 0 0 (NdArray 0 0 2 2) [1; 2; 3; 4] 1)
    as (_ & row_c & col_c & i & j & r & c & Hr & Hc & Hi & Hj & _).
  - exists [1; 2; 3; 4]. repeat split. vm_compute. lia.
  - vm_compute. reflexivity.
  - exists row_c, col_c, i, j. repeat split; assumption.
Defined.

Lemma check_indices_validation_witness :
  (_check_indices scaled_meds 1 (Some 0) [[1]]).2 = [[1]] /\
  (_check_indices scaled_meds 1 (Some 0) [[1]]).1
  = Raise (ValueError BadObjectIndex) /\
  (_check_indices scaled_meds 0 (Some 2) [[1]]).1
  = Raise (ValueError BadCutoutIndex).
Proof.
  destruct (check_indices_validation [[1]] scaled_meds 1 (Some 0))
    as (Hh & Hobj & _).
  destruct (check_indices_validation [[1]] scaled_meds 0 (Some 2))
    as (_ & _ & Hrow).
  split; [exact Hh|]. split; [apply Hobj; vm_compute; congruence|].
  destruct (Hrow scaled_row) as (_ & Hnz);
    [vm_compute; split; congruence|reflexivity|].
  destruct Hnz as (Hge & _); [vm_compute; congruence|].
  apply (Hge 2); [reflexivity|vm_compute; congruence].
Defined.

Lemma cutout_and_list_agree_with_mosaic_witness :
  exists mosaic hm im hc l,
    get_mosaic scaled_meds 0 "weight" [] = (Ok mosaic, hm) /\
    get_cutout scaled_meds 0 0 "weight" [] = (Ok im, hc) /\
    get_cutout_list scaled_meds 0 "weight" [] = (Ok l, hm) /\
    length l = 2%nat.
Proof.
  destruct (cutout_and_list_agree_with_mosaic [] scaled_meds 0 "weight"
              scaled_row 0 (weight_cutouts scaled_meds)
              scaled_weight_stored)
    as (mosaic & hm & im & hc & l & Hm & Hc & Hl & _ & _ & _ & _ & _ & Hn & _).
  exists mosaic, hm, im, hc, l.
  split; [exact Hm|]. split; [exact Hc|]. split; [exact Hl|exact Hn].
Defined.

Lemma cutout_list_shares_mosaic_storage_witness :
  (exists mosaic hm l,
     get_mosaic scaled_meds 0 "weight" [] = (Ok mosaic, hm) /\
     get_cutout_list scaled_meds 0 "weight" [] = (Ok l, hm) /\
     length l = 2%nat) /\
  (exists x,
     getitem (NdArray 0 0 4 2) 2 1
       [[5; 5; 5; 5; 6; 0; 6; 0]; [1; 1; 1; 1]; [5; 5; 5; 5]; [6; 0; 6; 0]]
     = (Ok x,
        [[5; 5; 5; 5; 6; 0; 6; 0]; [1; 1; 1; 1];
         [5; 5; 5; 5]; [6; 0; 6; 0]])) /\
  (exists m h',
     get_cweight_mosaic 0 zne inv2x2 scaled_meds 0 [] = (Ok m, h')).
Proof.
  destruct (cutout_list_shares_mosaic_storage 0 zne inv2x2 []
              scaled_meds 0 "weight" scaled_row 0
              (weight_cutouts scaled_meds) (weight_cutouts scaled_meds)
              (seg_cutouts scaled_meds)
              scaled_weight_stored scaled_weight_stored scaled_seg_stored)
    as (Hlist & Hcomp & Hret).
  split; [|split].
  - destruct Hlist as (mosaic & hm & l & Hm & Hl & Hlen & _).
    exists mosaic, hm, l. split; [exact Hm|]. split; [exact Hl|exact Hlen].
  - destruct (Hcomp (NdArray 0 0 4 2)
                [[5; 5; 5; 5; 6; 0; 6; 0]; [1; 1; 1; 1];
                 [5; 5; 5; 5]; [6; 0; 6; 0]])
      as (wtmosaic & h0 & seg & h1 & _ & _ & _ & _ & Hall);
      [vm_compute; reflexivity|].
    destruct (Hall 1%nat)
      as (wt & cwt & hi & dc & _ & _ & _ & _ & _ & _ & _ & Hpix);
      [vm_compute; lia|].
    destruct (Hpix 0%nat 1%nat) as (x & _ & Hget);
      [vm_compute; lia|vm_compute; lia|].
    exists x. exact Hget.
  - apply Hret. intros [|[|i]] Hi; [| |vm_compute in Hi; lia].
    + split.
      * exists 0%float, 0%float, 0, 0.
        repeat split; first [reflexivity|vm_compute; congruence].
      * exists 1%float, 0%float, 0%float, 1%float. repeat split.
    + split.
      * exists 0%float, 0%float, 0, 0.
        repeat split; first [reflexivity|vm_compute; congruence].
      * exists 2%float, 0%float, 0%float, 2%float. repeat split.
Defined.

(** ** Instances of the further properties *)

Ltac by_computation :=
  first [ reflexivity
        | lia
        | vm_compute; reflexivity
        | vm_compute; congruence
        | vm_compute; split; congruence
        | vm_compute; lia
        | eexists; split; reflexivity ].

Lemma mosaic_heap_data :
  has_data mosaic_heap (NdArray 0 0 4 2) [5; 5; 5; 5; 6; 6; 6; 6].
Proof. exists [5; 5; 5; 5; 6; 6; 6; 6]. repeat split. vm_compute. lia. Defined.

Lemma mosaic_heap_band_0 :
  has_data mosaic_heap (NdArray 0 0 2 2) [5; 5; 5; 5].
Proof. exists [5; 5; 5; 5; 6; 6; 6; 6]. repeat split. vm_compute. lia. Defined.

Lemma mosaic_heap_band_1 :
  has_data mosaic_heap (NdArray 0 4 2 2) [6; 6; 6; 6].
Proof. exists [5; 5; 5; 5; 6; 6; 6; 6]. repeat split. vm_compute. lia. Defined.

Lemma get_cutout_addressing_witness :
  exists im hc,
    get_cutout scaled_meds 0 1 "weight" [] = (Ok im, hc) /\
    base im = 0%nat /\
    getitem im 1 1 hc = (Ok 6, hc).
Proof.
  destruct (get_cutout_addressing [] scaled_meds 0 1 "weight" scaled_row 4
              (weight_cutouts scaled_meds))
    as (im & hc & Hrun & Hb & _ & _ & Hpix); [by_computation..|].
  destruct (Hpix 1%nat 1%nat) as (x & Hx & Hget); [by_computation..|].
  exists im, hc. split; [exact Hrun|]. split; [exact Hb|].
  injection Hx as <-. exact Hget.
Defined.

Lemma get_cutout_agrees_with_mosaic_witness :
  exists mosaic hm im hc,
    get_mosaic scaled_meds 0 "weight" [] = (Ok mosaic, hm) /\
    get_cutout scaled_meds 0 1 "weight" [] = (Ok im, hc) /\
    nrows im = 2%nat.
Proof.
  destruct (get_cutout_agrees_with_mosaic [] scaled_meds 0 "weight"
              scaled_row 0 (weight_cutouts scaled_meds) 1
              scaled_weight_stored)
    as (mosaic & hm & im & hc & Hm & Hc & Hr & _); [by_computation..|].
  exists mosaic, hm, im, hc. split; [exact Hm|]. split; [exact Hc|exact Hr].
Defined.

Lemma get_cutout_calls_do_not_alias_witness :
  base (NdArray 0 0 2 2) ≠ base (NdArray 1 0 2 2) /\
  has_data [[0; 5; 5; 5]; [1; 1; 1; 1]] (NdArray 1 0 2 2) [1; 1; 1; 1].
Proof.
  destruct (get_cutout_calls_do_not_alias [] [[5; 5; 5; 5]]
              [[5; 5; 5; 5]; [1; 1; 1; 1]] scaled_meds
              0 0 "weight" 0 0 "seg" (NdArray 0 0 2 2) (NdArray 1 0 2 2))
    as [Hne Hkeep]; [by_computation..|].
  split; [exact Hne|].
  apply (Hkeep [(0, 0)%nat] 0 _ [1; 1; 1; 1]); [by_computation|].
  exists [1; 1; 1; 1]. repeat split. vm_compute. lia.
Defined.

Lemma unknown_cutout_type_rejected_witness :
  get_cutout scaled_meds 0 1 "sky" [] = (Raise (ValueError BadCutoutType), []) /\
  get_mosaic scaled_meds 0 "sky" [] = (Raise (ValueError BadCutoutType), []).
Proof.
  destruct (unknown_cutout_type_rejected [] scaled_meds 0 1 "sky")
    as (_ & _ & Hbad).
  apply (Hbad ltac:(discriminate) ltac:(discriminate) ltac:(discriminate)
           scaled_row 4 0); by_computation.
Defined.

Lemma empty_object_rejected_everywhere_witness :
  get_cutout padded_meds 1 0 "image" [] = (Raise (ValueError NoCutouts), []) /\
  get_cweight_mosaic 0 zne inv2x2 padded_meds 1 []
  = (Raise (ValueError NoCutouts), []) /\
  get_sky_path padded_meds demo_image_info 1 0 []
  = (Raise (ValueError NoCutouts), []).
Proof.
  destruct (empty_object_rejected_everywhere 0 zne inv2x2 [] padded_meds 1
              empty_row ltac:(by_computation) ltac:(by_computation)
              ltac:(by_computation) 0 "image" demo_image_info)
    as (Hc & _ & _ & _ & Hm & _ & _ & _ & _ & Hs).
  split; [exact Hc|]. split; [exact Hm|exact Hs].
Defined.

Lemma negative_object_index_wraps_witness :
  get_mosaic scaled_meds (-1) "weight"
  = get_mosaic scaled_meds (-1 + cat_size scaled_meds) "weight" /\
  get_cutout scaled_meds (-2) 0 "weight" [] = (Raise IndexError, []).
Proof.
  destruct (negative_object_index_wraps 0 zne inv2x2 scaled_meds (-1))
    as [Hwrap _].
  destruct (negative_object_index_wraps 0 zne inv2x2 scaled_meds (-2))
    as [_ Hout].
  split.
  - destruct (Hwrap ltac:(by_computation) 0 "weight") as (_ & Hm & _).
    exact Hm.
  - destruct (Hout ltac:(by_computation) [] 0 "weight") as [Hc _].
    exact Hc.
Defined.

Lemma negative_cutout_index_reads_slot_witness :
  get_cutout padded_meds 0 (-1) "image" []
  = (Ok (NdArray 0 0 2 2), [[20; 21; 22; 23]]) /\
  get_cutout padded_meds 0 1 "image" []
  = (Raise (ValueError BadCutoutIndex), []).
Proof.
  destruct (negative_cutout_index_reads_slot [] padded_meds 0 (-1) "image"
              padded_row 4 (image_cutouts padded_meds))
    as [Hread Hrefused]; [by_computation..|].
  split; [exact Hread|]. apply Hrefused. by_computation.
Defined.

Lemma split_mosaic_views_stay_inside_witness :
  length (_split_mosaic (NdArray 0 0 4 2) 3 2) = 2%nat /\
  forall wt, _split_mosaic (NdArray 0 0 4 2) 3 2 !! 1%nat = Some wt ->
    (nrows wt <= 4)%nat.
Proof.
  destruct (split_mosaic_views_stay_inside mosaic_heap (NdArray 0 0 4 2)
              [5; 5; 5; 5; 6; 6; 6; 6] 3 2 mosaic_heap_data)
    as [Hlen Hin].
  split; [exact Hlen|]. intros wt Hwt.
  destruct (Hin 1%nat wt Hwt) as (_ & _ & Hr & _). exact Hr.
Defined.

Lemma split_mosaic_covers_mosaic_witness :
  exists bands,
    Forall2 (has_data mosaic_heap) (_split_mosaic (NdArray 0 0 4 2) 2 2)
      bands /\
    concat bands = [5; 5; 5; 5; 6; 6; 6; 6].
Proof.
  exact (split_mosaic_covers_mosaic mosaic_heap 0 0 2 2
           [5; 5; 5; 5; 6; 6; 6; 6] mosaic_heap_data).
Defined.

Lemma split_mosaic_views_disjoint_witness :
  has_data [[7; 5; 5; 5; 6; 6; 6; 6]] (NdArray 0 0 2 2) [7; 5; 5; 5] /\
  has_data [[7; 5; 5; 5; 6; 6; 6; 6]] (NdArray 0 4 2 2) [6; 6; 6; 6].
Proof.
  apply (split_mosaic_views_disjoint mosaic_heap
           [[7; 5; 5; 5; 6; 6; 6; 6]] (NdArray 0 0 4 2)
           [5; 5; 5; 5; 6; 6; 6; 6] 2 2 0 1
           (NdArray 0 0 2 2) (NdArray 0 4 2 2)
           [5; 5; 5; 5] [6; 6; 6; 6] [(0, 0)%nat] 7
           mosaic_heap_data); [by_computation..| | |by_computation].
  - exact mosaic_heap_band_0.
  - exact mosaic_heap_band_1.
Defined.

Lemma jacobian_list_matches_single_calls_witness :
  exists jlist,
    get_jacobian_list scaled_meds 0 [] = (Ok jlist, []) /\
    length jlist = 2%nat.
Proof.
  destruct (jacobian_list_matches_single_calls [] scaled_meds 0 scaled_row)
    as (jlist & Hrun & Hlen & _); [by_computation..|].
  exists jlist. split; [exact Hrun|exact Hlen].
Defined.

Lemma jacob_as_matrix_skips_validation_witness :
  get_jacob_as_matrix padded_meds 0 1 = Ok (Matrix 3 0 0 3) /\
  get_jacobian padded_meds 0 1 []
  = (Raise (ValueError BadCutoutIndex), []).
Proof.
  apply (jacob_as_matrix_skips_validation [] padded_meds 0 1 padded_row
           3 0 0 3); by_computation.
Defined.

Lemma source_and_sky_path_share_row_witness :
  get_source_path scaled_meds demo_image_info 0 1 [] = (Ok "se1.fits", []) /\
  get_sky_path scaled_meds demo_image_info 0 1 [] = (Ok "se1_bkg.fits", []).
Proof.
  destruct (source_and_sky_path_share_row [] scaled_meds demo_image_info
              0 1 scaled_row 1) as [Hin _]; [by_computation..|].
  destruct (Hin (ImageInfo "se1.fits" "se1_bkg.fits"))
    as (_ & Hp & Hs); [by_computation..|].
  split; [exact Hp|exact Hs].
Defined.

Lemma cweight_list_agrees_with_cweight_cutout_witness :
  exists cwt hc dc,
    get_cweight_cutout 0 zne inv2x2 scaled_meds 0 1 [] = (Ok cwt, hc) /\
    has_data hc cwt dc /\
    has_data [[5; 5; 5; 5; 6; 0; 6; 0]; [1; 1; 1; 1];
              [5; 5; 5; 5]; [6; 0; 6; 0]] (NdArray 0 4 2 2) dc.
Proof.
  destruct (cweight_list_agrees_with_cweight_cutout 0 zne inv2x2 []
              scaled_meds 0 scaled_row 0
              (weight_cutouts scaled_meds) (seg_cutouts scaled_meds) 1
              [NdArray 0 0 2 2; NdArray 0 4 2 2]
              [[5; 5; 5; 5; 6; 0; 6; 0]; [1; 1; 1; 1];
               [5; 5; 5; 5]; [6; 0; 6; 0]]
              scaled_weight_stored scaled_seg_stored)
    as (wt & cwt & hc & dc & Hl & Hrun & _ & _ & _ & _ & Hwt & Hcwt); [by_computation..|].
  injection Hl as <-.
  exists cwt, hc, dc. split; [exact Hrun|]. split; [exact Hcwt|exact Hwt].
Defined.

Lemma cweight_mosaic_keeps_or_zeroes_witness :
  exists mosaic hm,
    get_mosaic scaled_meds 0 "weight" [] = (Ok mosaic, hm) /\
    nrows (NdArray 0 0 4 2) = nrows mosaic.
Proof.
  destruct (cweight_mosaic_keeps_or_zeroes 0 zne inv2x2 []
              scaled_meds 0 scaled_row 0
              (weight_cutouts scaled_meds) (seg_cutouts scaled_meds)
              (NdArray 0 0 4 2)
              [[5; 5; 5; 5; 6; 0; 6; 0]; [1; 1; 1; 1];
               [5; 5; 5; 5]; [6; 0; 6; 0]]
              scaled_weight_stored scaled_seg_stored)
    as (mosaic & hm & Hm & Hr & _); [by_computation..|].
  exists mosaic, hm. split; [exact Hm|exact Hr].
Defined.

Lemma composite_weight_idempotent_witness :
  exists cwt2 h2 dc,
    _make_composite_weight 0 zne inv2x2 scaled_meds 0 1
      (NdArray 2 0 2 2) demo_seg (demo_heap ++ [[6; 0; 6; 0]])
    = (Ok cwt2, h2) /\
    has_data (demo_heap ++ [[6; 0; 6; 0]]) (NdArray 2 0 2 2) dc /\
    has_data h2 cwt2 dc.
Proof.
  destruct (composite_weight_idempotent 0 zne inv2x2 demo_heap scaled_meds
              0 1 demo_wt demo_seg [6; 6; 6; 6] [1; 1; 1; 1]
              (NdArray 2 0 2 2) (demo_heap ++ [[6; 0; 6; 0]])
              demo_wt_data demo_seg_data)
    as (cwt2 & h2 & dc & Hrun & H1 & H2 & _); [by_computation..|].
  exists cwt2, h2, dc. split; [exact Hrun|]. split; [exact H1|exact H2].
Defined.

Lemma negative_ncutout_passes_check_witness :
  _check_indices padded_meds 2 None [] = (Ok tt, []) /\
  get_jacobian_list padded_meds 2 [] = (Ok [], []).
Proof.
  apply (negative_ncutout_passes_check [] padded_meds 2 unset_row);
    by_computation.
Defined.

Lemma cweight_accessors_return_witness :
  exists l h',
    get_cweight_cutout_list 0 zne inv2x2 scaled_meds 0 [] = (Ok l, h') /\
    length l = 2%nat.
Proof.
  destruct (cweight_accessors_return 0 zne inv2x2 [] scaled_meds 0
              scaled_row 0 (weight_cutouts scaled_meds)
              (seg_cutouts scaled_meds)
              scaled_weight_stored scaled_seg_stored) as [_ Hl];
    [|exact Hl].
  intros [|[|i]] Hi; [| |vm_compute in Hi; lia].
  - split.
    + exists 0%float, 0%float, 0, 0. repeat split; by_computation.
    + exists 1%float, 0%float, 0%float, 1%float. repeat split.
  - split.
    + exists 0%float, 0%float, 0, 0. repeat split; by_computation.
    + exists 2%float, 0%float, 0%float, 2%float. repeat split.
Defined.

Lemma se_frame_zeroes_flagged_pixels_witness :
  exists dc,
    has_data (demo_heap ++ [[6; 0; 6; 0]]) (NdArray 2 0 2 2) dc /\
    dc !! 1%nat = Some 0.
Proof.
  destruct (se_frame_zeroes_flagged_pixels 0 zne inv2x2 demo_heap
              scaled_meds 0 1 demo_wt demo_seg [6; 6; 6; 6] [1; 1; 1; 1]
              0%float 0%float
              (Matrix 2 0 0 2) (Matrix 1 0 0 1) (Matrix 1 (-0) (-0) 1)
              (NdArray 2 0 2 2) (demo_heap ++ [[6; 0; 6; 0]])
              demo_wt_data demo_seg_data)
    as (dc & Hdc & Hzero); [by_computation..|].
  exists dc. split; [exact Hdc|].
  apply (Hzero 0%nat 1%nat); [by_computation..|].
  right. left. by_computation.
Defined.
